(** * RLDS dataset builders (PPGM / T-DROID): trajectory and video assembly

    A shallow embedding of [PPGM_dataset_builder.py] (the T-DROID builder
    is the same program up to two renamings and the label format):
    the MP4 frame reader, the multi-camera wrapper, the HDF5 trajectory
    reader, [load_trajectory] and the episode encoder of [_parse_example].

    Python exceptions are values of [exn]; a call that may raise returns
    a [result].  Objects mutated by the code are records threaded through
    the calls.  The two external collaborators, OpenCV's [VideoCapture]
    and NumPy's global random generator, are modelled after their
    documentation in [cv2] and [RandomState]. *)

From Stdlib Require Import List ZArith Lia Bool String Ascii Arith.
From Stdlib Require Import Sorted Permutation Floats SpecFloat DecimalString.
From Stdlib Require Import DecimalZ DecimalPos.
Import ListNotations.

Set Implicit Arguments.
Set Warnings "-register-all".
Open Scope string_scope.
Open Scope list_scope.

(** ** Python results and exceptions *)

Inductive exn : Type :=
| ValueError | AssertionError | KeyError | RuntimeError
| TypeError | IndexError | AttributeError | OverflowError
| cv2_error.

Inductive result (A : Type) : Type :=
| Ok (a : A)
| Raise (e : exn).
Arguments Ok {A} a.
Arguments Raise {A} e.

Definition bind {A B} (r : result A) (k : A -> result B) : result B :=
  match r with
  | Ok a => k a
  | Raise e => Raise e
  end.

Notation "x <- e ;; k" := (bind e (fun x => k))
  (at level 61, e at next level, right associativity).
Notation "' p <- e ;; k" := (bind e (fun x => let p := x in k))
  (at level 61, p pattern, e at next level, right associativity).

Definition assert (b : bool) : result unit :=
  if b then Ok tt else Raise AssertionError.

Definition returns {A} (r : result A) : Prop := exists a, r = Ok a.

(** ** Python dicts: insertion-ordered, string keys *)

Definition dict (V : Type) := list (string * V).

Fixpoint dict_get {V} (d : dict V) (k : string) : option V :=
  match d with
  | [] => None
  | (k', v) :: d' => if String.eqb k' k then Some v else dict_get d' k
  end.

(** [d[k]]: raises [KeyError] on a missing key. *)
Definition dict_item {V} (d : dict V) (k : string) : result V :=
  match dict_get d k with
  | Some v => Ok v
  | None => Raise KeyError
  end.

(** [d[k] = v]: overwrites in place, or appends a new key. *)
Fixpoint dict_set {V} (d : dict V) (k : string) (v : V) : dict V :=
  match d with
  | [] => [(k, v)]
  | (k', v') :: d' =>
      if String.eqb k' k then (k', v) :: d' else (k', v') :: dict_set d' k v
  end.

Definition dict_keys {V} (d : dict V) : list string := map fst d.

(** [d.update(e)] *)
Definition dict_update {V} (d e : dict V) : dict V :=
  fold_left (fun acc kv => dict_set acc (fst kv) (snd kv)) e d.

Definition mem_string (k : string) (l : list string) : bool :=
  existsb (String.eqb k) l.

(** ** Images, as terms over the decoded pixel data

    Pixel arithmetic is not needed by any property below, so an image is
    the decoded frame together with the conversions applied to it. *)

Inductive ColorCode := COLOR_BGR2GRAY | COLOR_BGR2RGB.

Inductive Image : Type :=
| Decoded (px : list Z)                  (* a BGR frame out of the decoder *)
| OfArray (xs : list float)              (* a one-dimensional array of a log *)
| CvtColor (code : ColorCode) (src : Image)
| Resize (w h : nat) (src : Image)       (* PIL resize, LANCZOS, as an array *)
| ExpandDims (src : Image).

(** [image.shape[2:]]: the axes after the first two. *)
Fixpoint channels (im : Image) : list nat :=
  match im with
  | Decoded _ => [3]
  | OfArray _ => []
  | CvtColor COLOR_BGR2GRAY _ => []
  | CvtColor COLOR_BGR2RGB _ => [3]
  | Resize _ _ src => channels src
  | ExpandDims src =>
      match src with
      | OfArray _ => []
      | _ => channels src ++ [1]
      end
  end.

(** [len(image.shape)] *)
Definition ndim (im : Image) : nat :=
  match im with
  | OfArray _ => 1
  | _ => 2 + List.length (channels im)
  end.

(** ** The Python values a timestep is made of *)

(** One row of a dataset, as h5py hands it out: a NumPy scalar or a
    one-dimensional array. *)
Inductive elem : Type :=
| EBool (b : bool)
| EFloat (x : float)
| EArray (xs : list float).

Inductive pyval : Type :=
| VDict (items : list (string * pyval))
| VElem (e : elem)
| VInt (z : Z)
| VImage (im : Image).

(** The dict behind [v] in a method call ([v.keys()], [v.items()],
    [v.get(k)], [v.update(d)]): no other value has the attribute. *)
Definition as_dict (v : pyval) : result (dict pyval) :=
  match v with
  | VDict d => Ok d
  | _ => Raise AttributeError
  end.

(** The dict behind [v] in [v[k]], for a string [k]: NumPy scalars and
    arrays refuse the index, an [int] is not subscriptable. *)
Definition subscript (v : pyval) : result (dict pyval) :=
  match v with
  | VDict d => Ok d
  | VInt _ => Raise TypeError
  | VElem _ | VImage _ => Raise IndexError
  end.

(** The dict behind [v] in [v[k] = x]. *)
Definition assignable (v : pyval) : result (dict pyval) :=
  match v with
  | VDict d => Ok d
  | VElem (EArray _) | VImage _ => Raise IndexError
  | VElem _ | VInt _ => Raise TypeError
  end.

(** [v[k]] *)
Definition item (v : pyval) (k : string) : result pyval :=
  d <- subscript v ;; dict_item d k.

(** [v.get(k, None)] *)
Definition py_get (v : pyval) (k : string) : result (option pyval) :=
  d <- as_dict v ;; Ok (dict_get d k).

(** [t[a][b] = v] *)
Definition set_item2 (t : pyval) (a b : string) (v : pyval) : result pyval :=
  td <- subscript t ;;
  o <- dict_item td a ;;
  od <- assignable o ;;
  Ok (VDict (dict_set td a (VDict (dict_set od b v)))).

(** [t[a][b][c] = v] *)
Definition set_item3 (t : pyval) (a b c : string) (v : pyval)
  : result pyval :=
  td <- subscript t ;;
  o <- dict_item td a ;;
  od <- subscript o ;;
  o' <- dict_item od b ;;
  od' <- assignable o' ;;
  Ok (VDict (dict_set td a (VDict (dict_set od b (VDict (dict_set od' c v)))))).

(** [bool(v)], as [not v] needs it. *)
Definition truthy (v : pyval) : result bool :=
  match v with
  | VDict d => Ok (negb (Nat.eqb (List.length d) 0))
  | VInt z => Ok (negb (z =? 0)%Z)
  | VElem (EBool b) => Ok b
  | VElem (EFloat x) => Ok (negb (PrimFloat.eqb x 0%float))
  | VElem (EArray [x]) => Ok (negb (PrimFloat.eqb x 0%float))
  | VElem (EArray _) => Raise ValueError
  | VImage _ => Raise ValueError
  end.

Definition images_value (d : dict Image) : pyval :=
  VDict (map (fun kv => (fst kv, VImage (snd kv))) d).

(** ** OpenCV's VideoCapture, after its documentation

    [read] decodes the next frame and returns [(True, frame)], or
    [(False, None)] when no frame can be grabbed.  Setting
    [CAP_PROP_POS_FRAMES] to [k] makes frame [k] (0-based) the one decoded
    next; the position is clamped to the stream.  [cvtColor] raises
    [cv2.error] on an empty source. *)

Module cv2.

Record VideoCapture := mkCap {
  frames : list (list Z);
  pos : nat;
  opened : bool
}.

(** [cv2.VideoCapture(filepath)]: a file that is no video yields a
    capture that is not opened. *)
Definition open (content : option (list (list Z))) : VideoCapture :=
  match content with
  | Some fs => mkCap fs 0 true
  | None => mkCap [] 0 false
  end.

Definition isOpened (c : VideoCapture) : bool := opened c.

Definition read (c : VideoCapture) : (bool * option Image) * VideoCapture :=
  if opened c then
    match nth_error (frames c) (pos c) with
    | Some px => ((true, Some (Decoded px)), mkCap (frames c) (S (pos c)) true)
    | None => ((false, None), c)
    end
  else ((false, None), c).

Definition set_CAP_PROP_POS_FRAMES (c : VideoCapture) (k : Z) : VideoCapture :=
  mkCap (frames c)
        (Z.to_nat (Z.min (Z.max 0 k) (Z.of_nat (List.length (frames c)))))
        (opened c).

Definition release (c : VideoCapture) : VideoCapture :=
  mkCap (frames c) (pos c) false.

Definition cvtColor (src : option Image) (code : ColorCode) : result Image :=
  match src with
  | Some im => Ok (CvtColor code im)
  | None => Raise cv2_error
  end.

End cv2.

(** ** class MP4Reader *)

Module MP4Reader.

(** [skip_reading] is an attribute only [set_reading_parameters]
    creates: [None] is a reader that has not been configured yet. *)
Record t := mk {
  serial_number : string;
  grayscale : bool;
  _index : Z;
  _mp4_reader : cv2.VideoCapture;
  skip_reading : option bool
}.

Definition __init__ (content : option (list (list Z)))
           (serial_number : string) (grayscale : bool) : result t :=
  let cap := cv2.open content in
  if negb (cv2.isOpened cap) then Raise RuntimeError
  else Ok (mk serial_number grayscale 0 cap None).

Definition set_reading_parameters (self : t) (image : bool) : t :=
  mk (serial_number self) (grayscale self) (_index self) (_mp4_reader self)
     (Some (negb image)).

Definition get_skip_reading (self : t) : result bool :=
  match skip_reading self with
  | Some b => Ok b
  | None => Raise AttributeError
  end.

(** What [read_camera] returns: [{}], or [{"image": {serial: frame}}]. *)
Definition data_dict := dict (dict Image).

Definition _process_frame (frame : Image) : Image := frame.

Definition read_camera (self : t) (ignore_data : bool)
  : result (option data_dict * t) :=
  skip <- get_skip_reading self ;;
  if skip then Ok (Some [], self)
  else
    let '((success, frame), cap) := cv2.read (_mp4_reader self) in
    frame <- cv2.cvtColor frame
               (if grayscale self then COLOR_BGR2GRAY else COLOR_BGR2RGB) ;;
    let self := mk (serial_number self) (grayscale self)
                   (_index self + 1) cap (skip_reading self) in
    if negb success then Ok (None, self)
    else if ignore_data then Ok (None, self)
    else Ok (Some [("image", [(serial_number self, _process_frame frame)])],
             self).

(** [while self._index < index: self.read_camera(ignore_data=True)].
    Every pass that does not raise adds one to [_index], so
    [index - _index] passes are enough; [fuel] counts them. *)
Fixpoint advance (fuel : nat) (self : t) (index : Z) : result t :=
  if (_index self <? index)%Z then
    match fuel with
    | O => Ok self
    | S fuel' =>
        '(_, self') <- read_camera self true ;;
        advance fuel' self' index
    end
  else Ok self.

Definition set_frame_index (self : t) (index : Z) : result t :=
  skip <- get_skip_reading self ;;
  if skip then Ok self
  else
    let self :=
      if (index <? _index self)%Z then
        mk (serial_number self) (grayscale self) index
           (cv2.set_CAP_PROP_POS_FRAMES (_mp4_reader self) (index - 1))
           (skip_reading self)
      else self in
    advance (Z.to_nat (index - _index self)) self index.

Definition disable_camera (self : t) : t :=
  mk (serial_number self) (grayscale self) (_index self)
     (cv2.release (_mp4_reader self)) (skip_reading self).

(** The frame a reader of the given colour mode hands out for decoded
    pixels [px]. *)
Definition frame_of (self : t) (px : list Z) : Image :=
  CvtColor (if grayscale self then COLOR_BGR2GRAY else COLOR_BGR2RGB)
           (Decoded px).

End MP4Reader.

(** ** Strings: the operations the wrapper applies to file paths *)

(** [s.endswith(suffix)] *)
Fixpoint endswith (s suffix : string) : bool :=
  if String.eqb s suffix then true
  else match s with
       | EmptyString => false
       | String _ s' => endswith s' suffix
       end.

(** [c in s] *)
Fixpoint has_char (c : ascii) (s : string) : bool :=
  match s with
  | EmptyString => false
  | String c' s' => Ascii.eqb c' c || has_char c s'
  end.

(** [s.startswith(".")] *)
Definition is_hidden (s : string) : bool :=
  match s with
  | String c _ => Ascii.eqb c "."
  | EmptyString => false
  end.

(** [s.split("/")[-1]], with [cur] the component read so far. *)
Fixpoint last_component (cur s : string) : string :=
  match s with
  | EmptyString => cur
  | String c s' =>
      if Ascii.eqb c "/" then last_component EmptyString s'
      else last_component (cur ++ String c EmptyString)%string s'
  end.

(** [s[:-4]] *)
Definition drop_last4 (s : string) : string :=
  substring 0 (String.length s - 4) s.

(** ** The recording folder and [glob] *)

(** A directory entry: its name and, when the file is a video OpenCV can
    open, its frames. *)
Record DirEntry := mkEntry {
  entry_name : string;
  entry_video : option (list (list Z))
}.

Definition Directory := list DirEntry.

(** [glob.has_magic]: a path that holds [*], [?] or [[] is read as a
    pattern. *)
Definition has_magic (s : string) : bool :=
  has_char "*" s || has_char "?" s || has_char "[" s.

(** What the disk holds for the path given as [recording_folderpath]:
    the listing of the directory of that very name ([here]; empty when
    there is none) and, for a path that [glob] reads as a pattern, the
    directories it matches with their listings, in the order [glob]
    visits them ([matching]). *)
Record Folder := mkFolder {
  here : Directory;
  matching : list (string * Directory)
}.

(** The files of one directory that match [*.mp4]: the entries whose
    name ends in [.mp4], hidden files left out, as paths under the
    directory, in the order the directory lists them. *)
Definition glob1 (dirname : string) (d : Directory)
  : list (string * option (list (list Z))) :=
  map (fun e => ((dirname ++ "/" ++ entry_name e)%string, entry_video e))
      (filter (fun e => endswith (entry_name e) ".mp4"
                        && negb (is_hidden (entry_name e))) d).

(** [glob.glob(folder + "/*.mp4")]: the files matching [*.mp4] in the
    folder or, when the folder path is itself a pattern, in every
    directory it matches.  (The directory part of the paths is not
    normalised the way [glob] does it: the program only looks at their
    last component.) *)
Definition glob_mp4 (folder : string) (f : Folder)
  : list (string * option (list (list Z))) :=
  if has_magic folder
  then flat_map (fun md => glob1 (fst md) (snd md)) (matching f)
  else glob1 folder (here f).

Definition CAMERA_TYPE_DICT : dict Z :=
  [("wrist_camera_id", 0%Z); ("static_camera_id", 1%Z)].

Definition CAMERA_TYPE_TO_STRING_DICT (v : Z) : result string :=
  if (v =? 0)%Z then Ok "wrist_camera"
  else if (v =? 1)%Z then Ok "static_camera"
  else Raise KeyError.

Definition get_camera_type (cam_id : string) : option string :=
  match dict_get CAMERA_TYPE_DICT cam_id with
  | None => None
  | Some type_int =>
      match CAMERA_TYPE_TO_STRING_DICT type_int with
      | Ok type_str => Some type_str
      | Raise _ => None
      end
  end.

(** Per camera type, the [image] reading option ([None]: the keyword is
    left out and defaults to [True]). *)
Definition camera_kwargs_t := dict (option bool).

(** ** class RecordedMultiCameraWrapper *)

Module RecordedMultiCameraWrapper.

Record t := mk {
  camera_kwargs : camera_kwargs_t;
  camera_dict : dict MP4Reader.t
}.

(** The loop of [__init__] over [all_filepaths].  (The first two
    statements of its body, [get_camera_type] and the lookup in
    [camera_kwargs], compute a value that is dropped.) *)
Fixpoint open_readers (all_filepaths : list (string * option (list (list Z))))
         (camera_dict : dict MP4Reader.t) : result (dict MP4Reader.t) :=
  match all_filepaths with
  | [] => Ok camera_dict
  | (f, content) :: rest =>
      let serial_number := drop_last4 (last_component EmptyString f) in
      if endswith f "_depth.mp4" then
        r <- MP4Reader.__init__ content serial_number true ;;
        open_readers rest (dict_set camera_dict serial_number r)
      else if endswith f ".mp4" then
        r <- MP4Reader.__init__ content serial_number false ;;
        open_readers rest (dict_set camera_dict serial_number r)
      else Raise ValueError
  end.

Definition __init__ (recording_folderpath : string) (d : Folder)
           (camera_kwargs : camera_kwargs_t) : result t :=
  let mp4_filepaths := glob_mp4 recording_folderpath d in
  let svo_filepaths := [] in
  let all_filepaths := svo_filepaths ++ mp4_filepaths in
  camera_dict <- open_readers all_filepaths [] ;;
  Ok (mk camera_kwargs camera_dict).

(** [full_obs_dict[key].update(data_dict[key])] for every key of
    [data_dict], on a [defaultdict(dict)]. *)
Definition merge_obs (full_obs_dict data_dict : dict (dict Image))
  : dict (dict Image) :=
  fold_left
    (fun full kv =>
       let old := match dict_get full (fst kv) with
                  | Some o => o
                  | None => []
                  end in
       dict_set full (fst kv) (dict_update old (snd kv)))
    data_dict full_obs_dict.

(** The body of the loop of [read_cameras] for one [cam_id], up to the
    test of [data_dict]. *)
Definition read_one (cam_id : string) (self : t) (index : option Z)
           (camera_type_dict : dict string) (timestamp_dict : pyval)
  : result (option MP4Reader.data_dict * t) :=
  cam_type <- dict_item camera_type_dict cam_id ;;
  let image := match dict_get (camera_kwargs self) cam_type with
               | Some (Some b) => b
               | _ => true
               end in
  cam <- dict_item (camera_dict self) cam_id ;;
  let cam := MP4Reader.set_reading_parameters cam image in
  timestamp <- py_get timestamp_dict (cam_id ++ "_frame_received") ;;
  cam <- match index with
         | Some i => MP4Reader.set_frame_index cam i
         | None => Ok cam
         end ;;
  '(data_dict, cam) <- MP4Reader.read_camera cam false ;;
  Ok (data_dict, mk (camera_kwargs self)
                    (dict_set (camera_dict self) cam_id cam)).

(** The loop of [read_cameras] over [all_cam_ids]. *)
Fixpoint read_each (all_cam_ids : list string) (self : t) (index : option Z)
         (camera_type_dict : dict string) (timestamp_dict : pyval)
         (full_obs_dict : dict (dict Image))
  : result (option (dict (dict Image)) * t) :=
  match all_cam_ids with
  | [] => Ok (Some full_obs_dict, self)
  | cam_id :: rest =>
      '(data_dict, self) <-
         read_one cam_id self index camera_type_dict timestamp_dict ;;
      match data_dict with
      | None => Ok (None, self)
      | Some data_dict =>
          read_each rest self index camera_type_dict timestamp_dict
                    (merge_obs full_obs_dict data_dict)
      end
  end.

Definition read_cameras (self : t) (index : option Z)
           (camera_type_dict : dict string) (timestamp_dict : pyval)
  : result (option (dict (dict Image)) * t) :=
  let all_cam_ids := dict_keys (camera_dict self) in
  read_each all_cam_ids self index camera_type_dict timestamp_dict [].

End RecordedMultiCameraWrapper.

(** ** The HDF5 log *)

(** A node of the file: a group, a dataset (its rows), or an object that
    is neither (a committed datatype). *)
Inductive h5node : Type :=
| Group (items : list (string * h5node))
| Dataset (rows : list elem)
| Datatype.

Record H5File := mkFile {
  root : list (string * h5node);
  attrs : dict string;
  is_open : bool
}.

Definition length_eqb (a b : option nat) : bool :=
  match a, b with
  | None, None => true
  | Some x, Some y => Nat.eqb x y
  | _, _ => false
  end.

(** [get_hdf5_length], on a node: the [isinstance] dispatch of the loop
    body is the match on the node, and the loop over [hdf5_file.keys()]
    is the inner [fix], with [length] the running value ([None] until the
    first key sets it). *)
Fixpoint node_length (keys_to_ignore : list string) (curr_data : h5node)
  : result (option nat) :=
  match curr_data with
  | Group items =>
      (fix loop (items : list (string * h5node)) (length : option nat)
         : result (option nat) :=
         match items with
         | [] => Ok length
         | (key, curr_data) :: rest =>
             if mem_string key keys_to_ignore then loop rest length
             else
               curr_length <- node_length keys_to_ignore curr_data ;;
               let length := match length with
                             | None => curr_length
                             | Some _ => length
                             end in
               _ <- assert (length_eqb curr_length length) ;;
               loop rest length
         end) items None
  | Dataset rows => Ok (Some (List.length rows))
  | Datatype => Raise ValueError
  end.

Definition get_hdf5_length (hdf5_file : list (string * h5node))
           (keys_to_ignore : list string) : result (option nat) :=
  node_length keys_to_ignore (Group hdf5_file).

(** [load_hdf5_to_dict], on a node, in the same shape. *)
Fixpoint load_node (index : nat) (keys_to_ignore : list string)
         (curr_data : h5node) : result pyval :=
  match curr_data with
  | Group items =>
      (fix loop (items : list (string * h5node)) (data_dict : dict pyval)
         : result pyval :=
         match items with
         | [] => Ok (VDict data_dict)
         | (key, curr_data) :: rest =>
             if mem_string key keys_to_ignore then loop rest data_dict
             else
               v <- load_node index keys_to_ignore curr_data ;;
               loop rest (dict_set data_dict key v)
         end) items []
  | Dataset rows =>
      match nth_error rows index with
      | Some e => Ok (VElem e)
      | None => Raise IndexError
      end
  | Datatype => Raise ValueError
  end.

Definition load_hdf5_to_dict (hdf5_file : list (string * h5node))
           (index : nat) (keys_to_ignore : list string) : result pyval :=
  load_node index keys_to_ignore (Group hdf5_file).

(** [path in hdf5_file], for a two-component path. *)
Definition h5_contains2 (f : list (string * h5node)) (a b : string) : bool :=
  match dict_get f a with
  | Some (Group items) =>
      match dict_get items b with
      | Some _ => true
      | None => false
      end
  | _ => false
  end.

(** ** class TrajectoryReader *)

Module TrajectoryReader.

Record t := mk {
  _hdf5_file : H5File;
  _read_images : bool;
  _length : option nat;
  _index : nat
}.

Definition __init__ (file : H5File) (read_images : bool) : result t :=
  let is_video_folder := h5_contains2 (root file) "observations" "videos" in
  let read_images := read_images && is_video_folder in
  length <- get_hdf5_length (root file) [] ;;
  Ok (mk file read_images length 0).

Definition length (self : t) : option nat := _length self.

(** [read_timestep(index=i)]: the call [load_trajectory] makes, with
    the index given. *)
Definition read_timestep (self : t) (index : nat)
           (keys_to_ignore : list string) : result (pyval * t) :=
  _ <- assert (negb (_read_images self)) ;;
  let self := mk (_hdf5_file self) (_read_images self) (_length self) index in
  _ <- match _length self with
       | Some n => assert (Nat.ltb index n)
       | None => Raise TypeError
       end ;;
  let keys_to_ignore := keys_to_ignore ++ ["videos"] in
  timestep <- load_hdf5_to_dict (root (_hdf5_file self)) (_index self)
                keys_to_ignore ;;
  let self := mk (_hdf5_file self) (_read_images self) (_length self)
                 (_index self + 1) in
  Ok (timestep, self).

Definition get_target_label (self : t) : result string :=
  dict_item (attrs (_hdf5_file self)) "current_task".

Definition close (self : t) : t :=
  mk (mkFile (root (_hdf5_file self)) (attrs (_hdf5_file self)) false)
     (_read_images self) (_length self) (_index self).

End TrajectoryReader.

(** ** NumPy's random generator

    [np.random.choice(a, size=k, replace=False)] returns [k] distinct
    members of [range(a)] in the order it drew them.  What it draws is
    the generator's business: [RandomState] is a generator, [fair] is the
    contract of every real one. *)

Class RandomState (G : Type) := {
  draw : G -> nat -> nat -> list nat * G
}.

Definition fair {G} `{RandomState G} : Prop :=
  forall (g : G) (a k : nat), k <= a ->
    let l := fst (draw g a k) in
    List.length l = k /\ NoDup l /\ Forall (fun i => i < a) l.

Definition np_random_choice {G} `{RandomState G} (g : G) (a : nat) (size : Z)
  : result (list nat * G) :=
  if (size <? 0)%Z then Raise ValueError
  else if (Z.of_nat a <? size)%Z then Raise ValueError
  else Ok (draw g a (Z.to_nat size)).

(** [np.sort] on indices. *)
Fixpoint insert_sorted (x : nat) (l : list nat) : list nat :=
  match l with
  | [] => [x]
  | y :: l' => if Nat.leb x y then x :: l else y :: insert_sorted x l'
  end.

Definition np_sort (l : list nat) : list nat :=
  fold_right insert_sorted [] l.

(** [np.arange(n)] *)
Definition np_arange (n : nat) : list nat := seq 0 n.

(** ** Camera ids *)

(** [str(n)] for an integer. *)
Definition str (n : Z) : string := NilZero.string_of_int (Z.to_int n).

(** ** load_trajectory *)

(** [float(n)] for an [int]: the nearest double, ties to even. *)
Definition float_of_int (n : Z) : result float :=
  let x := SF2Prim (binary_normalize 53 1024 n 0 false) in
  if PrimFloat.is_infinity x then Raise OverflowError else Ok x.

(** [int(x)] for a [float]: truncation towards zero. *)
Definition int_of_float (x : float) : result Z :=
  match Prim2SF x with
  | S754_nan => Raise ValueError
  | S754_infinity _ => Raise OverflowError
  | S754_zero _ => Ok 0%Z
  | S754_finite s m e =>
      let a := match e with
               | Zneg p => Z.shiftr (Zpos m) (Zpos p)
               | _ => Z.shiftl (Zpos m) e
               end in
      Ok (if s then (- a)%Z else a)
  end.

Inductive outcome : Type :=
| CameraFailed                 (* [break] *)
| Skipped                      (* [del timestep] *)
| Saved (timestep : pyval).    (* [timestep_list.append(timestep)] *)

Inductive loop_exit := Exhausted | Broke.

(** [timestep["observation"].update(camera_obs)] *)
Definition update_observation (timestep : pyval)
           (camera_obs : dict (dict Image)) : result pyval :=
  td <- subscript timestep ;;
  observation <- dict_item td "observation" ;;
  od <- as_dict observation ;;
  let od := dict_update od (map (fun kv => (fst kv, images_value (snd kv)))
                               camera_obs) in
  Ok (VDict (dict_set td "observation" (VDict od))).

Section LoadTrajectory.

Context {G : Type} `{RandomState G}.

Variables wrist_cam_id static_cam_id : Z.
Variable remove_skipped_steps : bool.

(** The dict written over [timestep["observation"]["camera_type"]]. *)
Definition camera_type_override : dict pyval :=
  dict_set
    (dict_set
       (dict_set
          (dict_set [] (str wrist_cam_id) (VInt 0))
          (str wrist_cam_id ++ "_depth")%string (VInt 0))
       (str static_cam_id) (VInt 1))
    (str static_cam_id ++ "_depth")%string (VInt 1).

(** [{k: CAMERA_TYPE_TO_STRING_DICT[v] for k, v in d.items()}] *)
Fixpoint role_names (d : dict pyval) : result (dict string) :=
  match d with
  | [] => Ok []
  | (k, v) :: d' =>
      name <- match v with
              | VInt z => CAMERA_TYPE_TO_STRING_DICT z
              | _ => Raise KeyError
              end ;;
      rest <- role_names d' ;;
      Ok ((k, name) :: rest)
  end.

(** One pass of the loop body at index [i].  [camera_reader] is [Some]
    exactly when [read_recording_folderpath] holds. *)
Definition visit (i : nat) (traj_reader : TrajectoryReader.t)
           (camera_reader : option RecordedMultiCameraWrapper.t)
  : result (outcome * TrajectoryReader.t
            * option RecordedMultiCameraWrapper.t) :=
  '(timestep, traj_reader) <- TrajectoryReader.read_timestep traj_reader i [] ;;
  r <- match camera_reader with
       | Some cr =>
           observation <- item timestep "observation" ;;
           timestamp <- item observation "timestamp" ;;
           timestamp_dict <- item timestamp "cameras" ;;
           timestep <- set_item2 timestep "observation" "camera_type"
                                 (VDict camera_type_override) ;;
           camera_type_dict <- role_names camera_type_override ;;
           '(camera_obs, cr) <-
              RecordedMultiCameraWrapper.read_cameras
                cr (Some (Z.of_nat i)) camera_type_dict timestamp_dict ;;
           match camera_obs with
           | None => Ok (None, Some cr)
           | Some camera_obs =>
               timestep <- update_observation timestep camera_obs ;;
               Ok (Some timestep, Some cr)
           end
       | None => Ok (Some timestep, None)
       end ;;
  match r with
  | (None, camera_reader) => Ok (CameraFailed, traj_reader, camera_reader)
  | (Some timestep, camera_reader) =>
      observation <- item timestep "observation" ;;
      controller_info <- item observation "controller_info" ;;
      movement_enabled <- py_get controller_info "movement_enabled" ;;
      movement_enabled <- match movement_enabled with
                          | Some v => truthy v
                          | None => Ok true
                          end ;;
      let step_skipped := negb movement_enabled in
      let delete_skipped_step := step_skipped && remove_skipped_steps in
      if delete_skipped_step
      then Ok (Skipped, traj_reader, camera_reader)
      else Ok (Saved timestep, traj_reader, camera_reader)
  end.

(** [for i in indices_to_save: ...] *)
Fixpoint iterate (indices_to_save : list nat)
         (traj_reader : TrajectoryReader.t)
         (camera_reader : option RecordedMultiCameraWrapper.t)
         (timestep_list : list pyval)
  : result (list pyval * loop_exit * TrajectoryReader.t
            * option RecordedMultiCameraWrapper.t) :=
  match indices_to_save with
  | [] => Ok (timestep_list, Exhausted, traj_reader, camera_reader)
  | i :: rest =>
      '(o, traj_reader, camera_reader) <- visit i traj_reader camera_reader ;;
      match o with
      | CameraFailed => Ok (timestep_list, Broke, traj_reader, camera_reader)
      | Skipped => iterate rest traj_reader camera_reader timestep_list
      | Saved timestep =>
          iterate rest traj_reader camera_reader (timestep_list ++ [timestep])
      end
  end.

(** [timestep_list[ind_to_keep]] *)
Fixpoint take_indices (timestep_list : list pyval) (ind_to_keep : list nat)
  : result (list pyval) :=
  match ind_to_keep with
  | [] => Ok []
  | j :: rest =>
      match nth_error timestep_list j with
      | None => Raise IndexError
      | Some t => r <- take_indices timestep_list rest ;; Ok (t :: r)
      end
  end.

Record Output := mkOutput {
  timestep_list : list pyval;
  target_label : string;
  (* the objects as the call leaves them *)
  loop_exit_of : loop_exit;
  traj_reader_of : TrajectoryReader.t;
  camera_reader_of : option RecordedMultiCameraWrapper.t;
  generator_of : G
}.

(** The indices the loop visits ("Choose Timesteps To Save"). *)
Definition choose_indices (g : G) (horizon : option nat)
           (num_samples_per_traj : option Z)
           (num_samples_per_traj_coeff : float)
  : result (list nat * G) :=
  match num_samples_per_traj with
  | Some n =>
      if negb (n =? 0)%Z then
        let num_to_save := n in
        num_to_save <-
          (if remove_skipped_steps
           then x <- float_of_int num_to_save ;;
                int_of_float (x * num_samples_per_traj_coeff)
           else Ok num_to_save) ;;
        match horizon with
        | None => Raise TypeError
        | Some horizon =>
            let max_size := Z.min num_to_save (Z.of_nat horizon) in
            '(drawn, g) <- np_random_choice g horizon max_size ;;
            Ok (np_sort drawn, g)
        end
      else
        match horizon with
        | None => Raise TypeError
        | Some horizon => Ok (np_arange horizon, g)
        end
  | None =>
      match horizon with
      | None => Raise TypeError
      | Some horizon => Ok (np_arange horizon, g)
      end
  end.

(** "Remove Extra Transitions" *)
Definition remove_extra (g : G) (timestep_list : list pyval)
           (num_samples_per_traj : option Z) : result (list pyval * G) :=
  match num_samples_per_traj with
  | Some n =>
      if (n <? Z.of_nat (List.length timestep_list))%Z then
        '(ind_to_keep, g) <-
           np_random_choice g (List.length timestep_list) n ;;
        kept <- take_indices timestep_list ind_to_keep ;;
        Ok (kept, g)
      else Ok (timestep_list, g)
  | None => Ok (timestep_list, g)
  end.

(** The two readers as the first lines of [load_trajectory] open
    them. *)
Definition open_stores
           (filepath : H5File)
           (read_cameras : bool)
           (recording_folderpath : option (string * Folder))
           (camera_kwargs : camera_kwargs_t)
  : result (TrajectoryReader.t * option RecordedMultiCameraWrapper.t) :=
  let read_hdf5_images :=
    read_cameras && match recording_folderpath with
                    | None => true
                    | Some _ => false
                    end in
  traj_reader <- TrajectoryReader.__init__ filepath read_hdf5_images ;;
  camera_reader <-
    match recording_folderpath with
    | Some (path, d) =>
        if read_cameras
        then cr <- RecordedMultiCameraWrapper.__init__ path d camera_kwargs ;;
             Ok (Some cr)
        else Ok None
    | None => Ok None
    end ;;
  Ok (traj_reader, camera_reader).

Definition load_trajectory
           (g : G)
           (filepath : H5File)
           (read_cameras : bool)
           (recording_folderpath : option (string * Folder))
           (camera_kwargs : camera_kwargs_t)
           (num_samples_per_traj : option Z)
           (num_samples_per_traj_coeff : float)
  : result Output :=
  '(traj_reader, camera_reader) <-
     open_stores filepath read_cameras recording_folderpath camera_kwargs ;;
  let horizon := TrajectoryReader.length traj_reader in
  '(indices_to_save, g) <-
     choose_indices g horizon num_samples_per_traj
                    num_samples_per_traj_coeff ;;
  '(timestep_list, ex, traj_reader, camera_reader) <-
     iterate indices_to_save traj_reader camera_reader [] ;;
  '(timestep_list, g) <- remove_extra g timestep_list num_samples_per_traj ;;
  target_label <- TrajectoryReader.get_target_label traj_reader ;;
  let traj_reader := TrajectoryReader.close traj_reader in
  Ok (mkOutput timestep_list target_label ex traj_reader camera_reader g).

End LoadTrajectory.

(** ** The episode encoder ([_parse_example]) *)

Inductive builder := PPGM | TDROID_KNOCK_OBJECT_OVER.

(** A [float32] array as the encoder emits it: its shape and its
    elements, each a double that is a single-precision value; or an
    image cast to [float32], under [axes] leading axes of length 1. *)
Inductive ndarray : Type :=
| Array (shape : list nat) (data : list float)
| OfImage (axes : nat) (im : Image).

Record Observation := mkObservation {
  wrist_image : pyval;
  wrist_depth_image : pyval;
  static_image : pyval;
  static_depth_image : pyval;
  cartesian_position : ndarray;
  joint_position : ndarray;
  gripper_position : ndarray
}.

Record Step := mkStep {
  observation : Observation;
  action_dict : dict ndarray;
  action : ndarray;
  discount : float;
  reward : float;
  is_first : bool;
  is_last : bool;
  is_terminal : bool;
  language_instruction : string
}.

Record Sample := mkSample {
  steps : list Step;
  file_path : string;
  recording_folderpath_of : string
}.

(** [Image.fromarray(image)] accepts an array of two axes, or of three
    with three channels (the modes the program can meet). *)
Definition fromarray_accepts (image : Image) : bool :=
  match channels image with
  | [] | [3] => true
  | _ => false
  end.

(** [_resize_and_encode(image, size)]: the size is flipped to PIL's
    (W, H); PIL refuses an array it has no mode for; a two-dimensional
    result gets a trailing axis. *)
Definition _resize_and_encode (image : Image) (size : nat * nat)
  : result Image :=
  let size := if Nat.ltb (fst size) (snd size)
              then (snd size, fst size) else size in
  if fromarray_accepts image then
    let image := Resize (fst size) (snd size) image in
    Ok (if Nat.eqb (ndim image) 2 then ExpandDims image else image)
  else Raise TypeError.

(** [_resize_and_encode(v, size=(270, 360))] on a value of a timestep:
    [Image.fromarray] needs an array of at least one axis. *)
Definition resize_value (v : pyval) : result pyval :=
  match v with
  | VImage im => im <- _resize_and_encode im (270, 360) ;; Ok (VImage im)
  | VElem (EArray xs) =>
      im <- _resize_and_encode (OfArray xs) (270, 360) ;; Ok (VImage im)
  | VElem _ => Raise IndexError
  | VInt _ | VDict _ => Raise AttributeError
  end.

(** [a.keys() == b.keys()] on dicts (keys are unique in a dict). *)
Definition keys_eqb (a b : list string) : bool :=
  Nat.eqb (List.length a) (List.length b)
  && forallb (fun k => mem_string k b) a.

(** [assert all(t.keys() == data[0].keys() for t in data)] *)
Definition check_same_keys (data : list pyval) : result unit :=
  match data with
  | [] => Ok tt
  | first :: _ =>
      (fix all (l : list pyval) : result unit :=
         match l with
         | [] => Ok tt
         | t :: l' =>
             td <- as_dict t ;;
             fd <- as_dict first ;;
             _ <- assert (keys_eqb (dict_keys td) (dict_keys fd)) ;;
             all l'
         end) data
  end.

(** One pass of the inner loop:
    [data[t]['observation']['image'][key] =
       _resize_and_encode(data[t]['observation']['image'][key], ...)] *)
Definition resize_key (t : pyval) (key : string) : result pyval :=
  observation <- item t "observation" ;;
  images <- item observation "image" ;;
  image <- item images key ;;
  image <- resize_value image ;;
  set_item3 t "observation" "image" key image.

(** The inner loop over [data[0]['observation']['image'].keys()] for one
    timestep [t]. *)
Fixpoint resize_keys (keys : list string) (t : pyval) : result pyval :=
  match keys with
  | [] => Ok t
  | key :: rest => t <- resize_key t key ;; resize_keys rest t
  end.

(** "Resize and encode all images".  The key list is read from
    [data[0]] at every [t]; the assignments replace values of keys that
    are already there, so that list is the same at every pass. *)
Fixpoint resize_all (first : pyval) (data : list pyval) : result (list pyval) :=
  match data with
  | [] => Ok []
  | t :: rest =>
      o0 <- item first "observation" ;;
      i0 <- item o0 "image" ;;
      d0 <- as_dict i0 ;;
      t <- resize_keys (dict_keys d0) t ;;
      r <- resize_all first rest ;;
      Ok (t :: r)
  end.

Definition resize_images (data : list pyval) : result (list pyval) :=
  match data with
  | [] => Ok []
  | first :: _ => resize_all first data
  end.

(** [v == 0] / [v != 0] in the comprehensions over [camera_type]. *)
Definition is_zero (v : pyval) : result bool :=
  match v with
  | VInt z => Ok (z =? 0)%Z
  | VElem (EBool b) => Ok (negb b)
  | VElem (EFloat x) => Ok (PrimFloat.eqb x 0%float)
  | VElem (EArray [x]) => Ok (PrimFloat.eqb x 0%float)
  | VElem (EArray _) => Raise ValueError
  | VDict _ => Ok false
  | VImage _ => Raise ValueError
  end.

Fixpoint ids_where (want_zero : bool) (d : dict pyval) : result (list string) :=
  match d with
  | [] => Ok []
  | (k, v) :: d' =>
      z <- is_zero v ;;
      rest <- ids_where want_zero d' ;;
      Ok (if Bool.eqb z want_zero then k :: rest else rest)
  end.

Definition list_item {A} (l : list A) (i : nat) : result A :=
  match nth_error l i with
  | Some a => Ok a
  | None => Raise IndexError
  end.

Definition float_of_bool (b : bool) : float :=
  if b then 1%float else 0%float.

(** [np.float32(x)] for a double: the nearest single-precision value,
    ties to even, held in a double. *)
Definition float32 (x : float) : float :=
  match Prim2SF x with
  | S754_finite s m e =>
      SF2Prim (binary_normalize 24 128 (cond_Zopp s (Zpos m)) e s)
  | _ => x
  end.

(** [np.array(v, dtype=np.float32)] *)
Definition np_array (v : pyval) : result ndarray :=
  match v with
  | VElem (EFloat x) => Ok (Array [] [float32 x])
  | VElem (EBool b) => Ok (Array [] [float_of_bool b])
  | VElem (EArray xs) => Ok (Array [List.length xs] (map float32 xs))
  | VInt z => x <- float_of_int z ;; Ok (Array [] [float32 x])
  | VImage im => Ok (OfImage 0 im)
  | VDict _ => Raise TypeError
  end.

(** [np.array([v], dtype=np.float32)] *)
Definition np_array_of_list (v : pyval) : result ndarray :=
  a <- np_array v ;;
  Ok (match a with
      | Array shape data => Array (1 :: shape) data
      | OfImage axes im => OfImage (S axes) im
      end).

(** [np.concatenate((a, [b]), dtype=np.float32)]: [a] must have one
    axis and [b] none. *)
Definition concatenate1 (a b : pyval) : result ndarray :=
  match a with
  | VElem (EArray xs) =>
      match b with
      | VElem (EFloat y) =>
          Ok (Array [S (List.length xs)] (map float32 (xs ++ [y])))
      | VElem (EBool y) =>
          Ok (Array [S (List.length xs)]
                    (map float32 xs ++ [float_of_bool y]))
      | VInt z =>
          y <- float_of_int z ;;
          Ok (Array [S (List.length xs)] (map float32 (xs ++ [y])))
      | VDict _ => Raise TypeError
      | VElem (EArray _) | VImage _ => Raise ValueError
      end
  | _ => Raise ValueError
  end.

Definition instruction (b : builder) (label : string) : string :=
  match b with
  | PPGM => ("pick " ++ label)%string
  | TDROID_KNOCK_OBJECT_OVER => label
  end.

(** The body of [for i, step in enumerate(data)], with [n = len(data)]. *)
Definition make_step (b : builder) (target_label : string) (n : nat)
           (i : nat) (step : pyval) : result Step :=
  obs <- item step "observation" ;;
  act <- item step "action" ;;
  let language_instruction := instruction b target_label in
  camera_type_dict <- item obs "camera_type" ;;
  camera_type_dict <- as_dict camera_type_dict ;;
  wrist_cam_ids <- ids_where true camera_type_dict ;;
  static_cam_ids <- ids_where false camera_type_dict ;;
  images <- item obs "image" ;;
  w0 <- list_item wrist_cam_ids 0 ;;
  wrist <- item images w0 ;;
  images <- item obs "image" ;;
  w1 <- list_item wrist_cam_ids 1 ;;
  wrist_depth <- item images w1 ;;
  images <- item obs "image" ;;
  s0 <- list_item static_cam_ids 0 ;;
  static <- item images s0 ;;
  images <- item obs "image" ;;
  s1 <- list_item static_cam_ids 1 ;;
  static_depth <- item images s1 ;;
  robot_state <- item obs "robot_state" ;;
  cartesian <- item robot_state "cartesian_position" ;;
  cartesian <- np_array cartesian ;;
  robot_state <- item obs "robot_state" ;;
  joints <- item robot_state "joint_positions" ;;
  joints <- np_array joints ;;
  robot_state <- item obs "robot_state" ;;
  gripper <- item robot_state "gripper_position" ;;
  gripper <- np_array_of_list gripper ;;
  a_cp <- item act "cartesian_position" ;;
  a_cp <- np_array a_cp ;;
  a_cv <- item act "cartesian_velocity" ;;
  a_cv <- np_array a_cv ;;
  a_gp <- item act "gripper_position" ;;
  a_gp <- np_array_of_list a_gp ;;
  a_gv <- item act "gripper_velocity" ;;
  a_gv <- np_array_of_list a_gv ;;
  a_jp <- item act "joint_position" ;;
  a_jp <- np_array a_jp ;;
  a_jv <- item act "joint_velocity" ;;
  a_jv <- np_array a_jv ;;
  a_cv' <- item act "cartesian_velocity" ;;
  a_gv' <- item act "gripper_velocity" ;;
  action <- concatenate1 a_cv' a_gv' ;;
  let last := (Z.of_nat i =? Z.of_nat n - 1)%Z in
  Ok (mkStep
        (mkObservation wrist wrist_depth static static_depth
                       cartesian joints gripper)
        [("cartesian_position", a_cp); ("cartesian_velocity", a_cv);
         ("gripper_position", a_gp); ("gripper_velocity", a_gv);
         ("joint_position", a_jp); ("joint_velocity", a_jv)]
        action
        1%float
        (float_of_bool last)
        (Nat.eqb i 0)
        last
        last
        language_instruction).

Fixpoint enumerate_steps (b : builder) (target_label : string) (n : nat)
         (i : nat) (data : list pyval) : result (list Step) :=
  match data with
  | [] => Ok []
  | step :: rest =>
      s <- make_step b target_label n i step ;;
      episode <- enumerate_steps b target_label n (S i) rest ;;
      Ok (s :: episode)
  end.

(** [_parse_example] from [data = traj[::FRAMESKIP]] on. *)
Definition encode_episode (b : builder) (traj : list pyval)
           (target_label : string) : result (list Step) :=
  let data := traj in
  _ <- check_same_keys data ;;
  data <- resize_images data ;;
  enumerate_steps b target_label (List.length data) 0 data.

Definition default_coeff : float := 1.5%float.

Definition _parse_example {G} `{RandomState G} (b : builder) (g : G)
           (wrist_cam_id static_cam_id : Z)
           (episode_path : string) (trajectory_h5 : H5File)
           (recordings_MP4 : Folder) : result (string * Sample) :=
  let h5_filepath := (episode_path ++ "/trajectory.h5")%string in
  let recording_folderpath := (episode_path ++ "/recordings/MP4")%string in
  out <- load_trajectory wrist_cam_id static_cam_id false g trajectory_h5 true
           (Some (recording_folderpath, recordings_MP4)) [] None default_coeff ;;
  episode <- encode_episode b (timestep_list out) (target_label out) ;;
  Ok (episode_path, mkSample episode h5_filepath recording_folderpath).

(** ** crawler and the episode list of [_generate_examples] *)

(** What the program asks of the disk: [os.path.isdir], [glob.glob]
    (whose order is the disk's own) and [os.path.exists]. *)
Record Disk := mkDisk {
  isdir : string -> bool;
  glob : string -> list string;
  exists_ : string -> bool
}.

(** [s.split(',')] *)
Fixpoint split_comma (s : string) : list string :=
  match s with
  | EmptyString => [""]
  | String c s' =>
      if Ascii.eqb c "," then "" :: split_comma s'
      else match split_comma s' with
           | [] => [String c ""]
           | w :: ws => String c w :: ws
           end
  end.

(** [os.path.join(a, *p)] of [posixpath]: one component is added by
    [join1]. *)
Definition join1 (path b : string) : string :=
  if String.prefix "/" b then b
  else if String.eqb path "" || endswith path "/"
       then (path ++ b)%string
       else (path ++ "/" ++ b)%string.

Definition os_path_join (a : string) (p : list string) : string :=
  fold_left join1 p a.

(** [list.sort()] on strings: ascending by code points. *)
Fixpoint insert_string (x : string) (l : list string) : list string :=
  match l with
  | [] => [x]
  | y :: l' => if String.leb x y then x :: l else y :: insert_string x l'
  end.

Definition sort_strings (l : list string) : list string :=
  fold_right insert_string [] l.

(** [for d in dirs: ...] of [crawler]. *)
Fixpoint crawl (disk : Disk) (dirs : list string)
         (all_folderpaths : list string) : result (list string) :=
  match dirs with
  | [] => Ok all_folderpaths
  | d :: rest =>
      if String.eqb d "" then crawl disk rest all_folderpaths
      else
        _ <- assert (isdir disk d) ;;
        let folderpaths := os_path_join d ["success"; "**"; "**"] in
        crawl disk rest (all_folderpaths ++ glob disk folderpaths)
  end.

Definition crawler (disk : Disk) (data_dirs : string) : result (list string) :=
  let dirs := split_comma data_dirs in
  all_folderpaths <- crawl disk dirs [] ;;
  Ok (sort_strings all_folderpaths).

(** "create list of all examples" in [_generate_examples]. *)
Definition episode_paths (disk : Disk) (data_dirs : string)
  : result (list string) :=
  episode_paths <- crawler disk data_dirs ;;
  Ok (filter (fun p => exists_ disk (p ++ "/trajectory.h5")%string
                       && exists_ disk (p ++ "/recordings/MP4")%string)
             episode_paths).

(** ** A generator to run the program on concrete inputs *)

(** A generator that always hands out the largest members first:
    [choice(5, 3)] gives [4, 3, 2]. *)
Inductive descending := Descending.

#[export] Instance descending_RandomState : RandomState descending := {
  draw _ a k := (firstn k (rev (seq 0 a)), Descending)
}.

(** ** Concrete inputs *)

Definition rows3 (a b c : float) : h5node :=
  Dataset [EFloat a; EFloat b; EFloat c].

(** A three-step log with the fields the loop reads. *)
Definition log3 : H5File :=
  mkFile
    [("action",
      Group [("cartesian_velocity",
              Dataset [EArray [0%float]; EArray [1%float]; EArray [2%float]]);
             ("cartesian_position", rows3 0 1 2);
             ("gripper_position", rows3 0 1 2);
             ("gripper_velocity", rows3 0 1 2);
             ("joint_position", rows3 0 1 2);
             ("joint_velocity", rows3 0 1 2)]);
     ("observation",
      Group [("controller_info",
              Group [("movement_enabled",
                      Dataset [EBool true; EBool true; EBool true])]);
             ("robot_state",
              Group [("cartesian_position", rows3 0 1 2);
                     ("gripper_position", rows3 0 1 2);
                     ("joint_positions", rows3 0 1 2)]);
             ("timestamp",
              Group [("cameras",
                      Group [("1_frame_received", rows3 0 1 2)])])])]
    [("current_task", "red cube")]
    true.

(** The recording of two cameras, [1] (wrist) and [2] (static), three
    frames each; frame [k] of every file is the one-pixel image [k]. *)
Definition three_frames : option (list (list Z)) :=
  Some [[0%Z]; [1%Z]; [2%Z]].

(** A recording that stops after two frames. *)
Definition recording2 : Folder :=
  mkFolder [mkEntry "1.mp4" (Some [[0%Z]; [1%Z]])] [].

(** A log whose last group holds no data series. *)
Definition log_with_empty_group : list (string * h5node) :=
  [("action", rows3 0 1 2); ("extras", Group [])].

Definition recording3 : Folder :=
  mkFolder
    [mkEntry "1.mp4" three_frames; mkEntry "1_depth.mp4" three_frames;
     mkEntry "2.mp4" three_frames; mkEntry "2_depth.mp4" three_frames]
    [].

(** The same recording with a note left in the folder. *)
Definition recording3_with_notes : Folder :=
  mkFolder (mkEntry "notes.txt" None :: here recording3) [].

(** The same recording with the video of a third camera, [999]. *)
Definition recording3_with_stranger : Folder :=
  mkFolder (here recording3 ++ [mkEntry "999.mp4" three_frames]) [].

(** The role map [load_trajectory] derives for cameras [1] and [2]. *)
Definition roles12 : dict string :=
  [("1", "wrist_camera"); ("1_depth", "wrist_camera");
   ("2", "static_camera"); ("2_depth", "static_camera")].


(** A log whose second step has movement disabled. *)
Definition log3_paused : H5File :=
  mkFile
    [("observation",
      Group [("controller_info",
              Group [("movement_enabled",
                      Dataset [EBool true; EBool false; EBool true])])])]
    [("current_task", "red cube")]
    true.

(** A disk with two data directories: [data] holds two episodes, listed
    by [glob] out of order, and [more/] holds one that has no log. *)
Definition two_days : Disk :=
  mkDisk
    (fun d => String.eqb d "data" || String.eqb d "more/")
    (fun pattern =>
       if String.eqb pattern "data/success/**/**"
       then ["data/success/day2/b"; "data/success/day1/a"]
       else if String.eqb pattern "more/success/**/**"
            then ["more/success/day1/c"]
            else [])
    (fun p => negb (String.prefix "more" p)).


(** ** Vocabulary of the properties *)

(** A reader with decoding enabled whose [_index] is the decoder's
    position: the state sequential reading keeps. *)
Definition in_sync (r : MP4Reader.t) : Prop :=
  MP4Reader.skip_reading r = Some false
  /\ cv2.opened (MP4Reader._mp4_reader r) = true
  /\ (0 <= MP4Reader._index r)%Z
  /\ cv2.pos (MP4Reader._mp4_reader r) = Z.to_nat (MP4Reader._index r).

(** [advanceTo(i)] followed by [readCurrent()]. *)
Definition seek_then_read (r : MP4Reader.t) (i : Z)
  : result (option MP4Reader.data_dict * MP4Reader.t) :=
  r' <- MP4Reader.set_frame_index r i ;;
  MP4Reader.read_camera r' false.

(** [n] reads whose frames are dropped, then one more: what the last of
    [n + 1] sequential reads returns. *)
Fixpoint read_times (n : nat) (r : MP4Reader.t)
  : result (option MP4Reader.data_dict * MP4Reader.t) :=
  match n with
  | O => MP4Reader.read_camera r false
  | S n' =>
      '(_, r') <- MP4Reader.read_camera r false ;;
      read_times n' r'
  end.

(** A reader opened on a video and set to decode. *)
Definition configured (content : option (list (list Z))) (serial : string)
           (gray : bool) : result MP4Reader.t :=
  r <- MP4Reader.__init__ content serial gray ;;
  Ok (MP4Reader.set_reading_parameters r true).

(** The answer of a successful read of pixels [px]. *)
Definition image_answer (r : MP4Reader.t) (px : list Z)
  : option MP4Reader.data_dict :=
  Some [("image", [(MP4Reader.serial_number r, MP4Reader.frame_of r px)])].

(** The lengths of the data series under a node, ignored keys left out. *)
Fixpoint leaf_lengths (keys_to_ignore : list string) (n : h5node) : list nat :=
  match n with
  | Group items =>
      (fix go (items : list (string * h5node)) : list nat :=
         match items with
         | [] => []
         | (key, child) :: rest =>
             if mem_string key keys_to_ignore then go rest
             else leaf_lengths keys_to_ignore child ++ go rest
         end) items
  | Dataset rows => [List.length rows]
  | Datatype => []
  end.

(** The loop of [get_hdf5_length] over the keys of one group, entered
    with a running [length]. *)
Fixpoint length_loop (keys_to_ignore : list string)
         (items : list (string * h5node)) (length : option nat)
  : result (option nat) :=
  match items with
  | [] => Ok length
  | (key, curr_data) :: rest =>
      if mem_string key keys_to_ignore
      then length_loop keys_to_ignore rest length
      else
        curr_length <- node_length keys_to_ignore curr_data ;;
        let length := match length with
                      | None => curr_length
                      | Some _ => length
                      end in
        _ <- assert (length_eqb curr_length length) ;;
        length_loop keys_to_ignore rest length
  end.

(** The data series under the items of one group. *)
Fixpoint leaves_of_items (keys_to_ignore : list string)
         (items : list (string * h5node)) : list nat :=
  match items with
  | [] => []
  | (key, child) :: rest =>
      if mem_string key keys_to_ignore
      then leaves_of_items keys_to_ignore rest
      else leaf_lengths keys_to_ignore child
           ++ leaves_of_items keys_to_ignore rest
  end.

(** A log made of groups and datasets in which no group is left without
    a data series. *)
Fixpoint populated (keys_to_ignore : list string) (n : h5node) : Prop :=
  match n with
  | Group items =>
      (fix go (items : list (string * h5node)) : Prop :=
         match items with
         | [] => True
         | (key, child) :: rest =>
             (if mem_string key keys_to_ignore then True
              else populated keys_to_ignore child
                   /\ leaf_lengths keys_to_ignore child <> [])
             /\ go rest
         end) items
  | Dataset _ => True
  | Datatype => False
  end.

(** A file name [glob] lets through. *)
Definition is_mp4_name (name : string) : bool :=
  endswith name ".mp4" && negb (is_hidden name).

(** Row [i] of the log, as [read_timestep] loads it. *)
Definition log_row (file : H5File) (i : nat) : result pyval :=
  load_hdf5_to_dict (root file) i ["videos"].

(** A row with what the loop writes into its observation when cameras
    are read: the roles of the two camera ids, then what the cameras
    gave. *)
Definition with_camera_obs (wrist_cam_id static_cam_id : Z) (row : pyval)
           (camera_obs : dict (dict Image)) : result pyval :=
  timestep <- set_item2 row "observation" "camera_type"
                (VDict (camera_type_override wrist_cam_id static_cam_id)) ;;
  update_observation timestep camera_obs.

(** The timestep the loop saves at index [i] of the log [file]: row [i]
    of that log, with the camera data of the visit when cameras are
    read. *)
Definition saved_at (file : H5File) (wrist_cam_id static_cam_id : Z)
           (cameras : bool) (i : nat) (timestep : pyval) : Prop :=
  exists row,
    log_row file i = Ok row
    /\ if cameras
       then exists camera_obs,
              with_camera_obs wrist_cam_id static_cam_id row camera_obs
              = Ok timestep
       else timestep = row.

(** The entries [glob] can return: those of the folder, or of the
    directories the folder path matches as a pattern. *)
Definition candidates (folder : string) (f : Folder) : Directory :=
  if has_magic folder then flat_map snd (matching f) else here f.

(** [x is not None] *)
Definition is_some {A} (x : option A) : bool :=
  match x with
  | Some _ => true
  | None => false
  end.

(** Every reader of the wrapper still holds its decoder. *)
Definition all_unreleased (w : RecordedMultiCameraWrapper.t) : Prop :=
  Forall (fun kv => cv2.opened (MP4Reader._mp4_reader (snd kv)) = true)
         (RecordedMultiCameraWrapper.camera_dict w).

(** ** Vocabulary of the further properties *)

(** ["/" in s] *)
Fixpoint has_slash (s : string) : bool :=
  match s with
  | EmptyString => false
  | String c s' => Ascii.eqb c "/" || has_slash s'
  end.

(** The reader the wrapper stores for a directory entry that is a video:
    named after the file without its last four characters, grayscale for
    a [_depth.mp4] file, at frame 0, not yet configured. *)
Definition fresh_reader (e : DirEntry) : MP4Reader.t :=
  MP4Reader.mk (drop_last4 (entry_name e))
               (endswith (entry_name e) "_depth.mp4")
               0 (cv2.open (entry_video e)) None.

(** The decoder is open and stands on frame [_index]. *)
Definition tracking (r : MP4Reader.t) : Prop :=
  cv2.opened (MP4Reader._mp4_reader r) = true
  /\ (0 <= MP4Reader._index r)%Z
  /\ cv2.pos (MP4Reader._mp4_reader r) = Z.to_nat (MP4Reader._index r).

(** Frame [i] of the reader's video, as the reader hands it out. *)
Definition frame_at (r : MP4Reader.t) (i : Z) : Image :=
  MP4Reader.frame_of r
    (nth (Z.to_nat i) (cv2.frames (MP4Reader._mp4_reader r)) []).

(** The reader after frame [i] was read with decoding enabled. *)
Definition after_read (r : MP4Reader.t) (i : Z) : MP4Reader.t :=
  MP4Reader.mk (MP4Reader.serial_number r) (MP4Reader.grayscale r) (i + 1)
    (cv2.mkCap (cv2.frames (MP4Reader._mp4_reader r)) (S (Z.to_nat i)) true)
    (Some false).

(** What [read_cameras] returns when every camera gave its frame [i]. *)
Definition frames_at (cd : dict MP4Reader.t) (i : Z) : dict (dict Image) :=
  match cd with
  | [] => []
  | _ => [("image",
           map (fun kv => (MP4Reader.serial_number (snd kv),
                           frame_at (snd kv) i)) cd)]
  end.

(** A camera of the wrapper that can give frame [i]: its reader is named
    after its key, stands at or before [i] in a video that has a frame
    [i], and the role map knows its id. *)
Definition can_give (i : Z) (ctd : dict string) (kv : string * MP4Reader.t)
  : Prop :=
  MP4Reader.serial_number (snd kv) = fst kv
  /\ tracking (snd kv)
  /\ (MP4Reader._index (snd kv) <= i)%Z
  /\ Z.to_nat i < List.length (cv2.frames (MP4Reader._mp4_reader (snd kv)))
  /\ dict_get ctd (fst kv) <> None.

(** A camera after its frame [i] was read. *)
Definition stepped (i : Z) (kv : string * MP4Reader.t)
  : string * MP4Reader.t :=
  (fst kv, after_read (snd kv) i).

(** The loop of [load_hdf5_to_dict] over the keys of one group, entered
    with the [data_dict] built so far. *)
Fixpoint load_loop (index : nat) (keys_to_ignore : list string)
         (items : list (string * h5node)) (data_dict : dict pyval)
  : result pyval :=
  match items with
  | [] => Ok (VDict data_dict)
  | (key, curr_data) :: rest =>
      if mem_string key keys_to_ignore
      then load_loop index keys_to_ignore rest data_dict
      else
        v <- load_node index keys_to_ignore curr_data ;;
        load_loop index keys_to_ignore rest (dict_set data_dict key v)
  end.

(** [k] is a key of the value or of a dict inside it. *)
Fixpoint mentions (k : string) (v : pyval) : bool :=
  match v with
  | VDict items =>
      (fix go (items : list (string * pyval)) : bool :=
         match items with
         | [] => false
         | (k', v') :: rest => String.eqb k' k || mentions k v' || go rest
         end) items
  | _ => false
  end.

Fixpoint mentions_items (k : string) (items : list (string * pyval)) : bool :=
  match items with
  | [] => false
  | (k', v') :: rest => String.eqb k' k || mentions k v' || mentions_items k rest
  end.

(** What the step filter reads off a timestep:
    [timestep["observation"]["controller_info"].get("movement_enabled", True)],
    as a truth value. *)
Definition movement_enabled_of (timestep : pyval) : result bool :=
  observation <- item timestep "observation" ;;
  controller_info <- item observation "controller_info" ;;
  movement_enabled <- py_get controller_info "movement_enabled" ;;
  match movement_enabled with
  | Some v => truthy v
  | None => Ok true
  end.

(** The non-empty components of [data_dirs]. *)
Definition named_dirs (data_dirs : string) : list string :=
  filter (fun d => negb (String.eqb d "")) (split_comma data_dirs).

(** The pattern [crawler] globs under a directory. *)
Definition pattern_of (d : string) : string :=
  ((if endswith d "/" then d else d ++ "/") ++ "success/**/**")%string.

(** What [glob] reports for the directories, in their order. *)
Definition found (disk : Disk) (dirs : list string) : list string :=
  flat_map (fun d => glob disk (pattern_of d)) dirs.

(** Ascending by code points. *)
Definition ascending (l : list string) : Prop :=
  StronglySorted (fun a b => String.leb a b = true) l.

(** The size PIL was asked for, read off the outermost resize. *)
Fixpoint pil_size (im : Image) : option (nat * nat) :=
  match im with
  | Resize w h _ => Some (w, h)
  | ExpandDims src => pil_size src
  | _ => None
  end.


(** * Properties *)

(** ** The frame reader *)

Lemma bind_Ok {A B} (r : result A) (k : A -> result B) (b : B) :
  bind r k = Ok b -> exists a, r = Ok a /\ k a = Ok b.
Proof.
  destruct r as [a|e]; simpl; intros E; [eauto | discriminate].
Qed.

Ltac inv_bind H :=
  let a := fresh "a" in
  let Ha := fresh "Ha" in
  apply bind_Ok in H; destruct H as (a & Ha & H).

Ltac skip_bind H := apply bind_Ok in H; destruct H as (? & _ & H).

Lemma read_camera_in_sync (r : MP4Reader.t) (px : list Z) (ignore : bool) :
  in_sync r ->
  nth_error (cv2.frames (MP4Reader._mp4_reader r))
            (Z.to_nat (MP4Reader._index r)) = Some px ->
  exists r',
    MP4Reader.read_camera r ignore
    = Ok (if ignore then None else image_answer r px, r')
    /\ in_sync r'
    /\ MP4Reader._index r' = (MP4Reader._index r + 1)%Z
    /\ cv2.frames (MP4Reader._mp4_reader r')
       = cv2.frames (MP4Reader._mp4_reader r)
    /\ MP4Reader.serial_number r' = MP4Reader.serial_number r
    /\ MP4Reader.grayscale r' = MP4Reader.grayscale r.
Proof.
  intros (Hs & Ho & H0 & Hp) Hn.
  unfold MP4Reader.read_camera, MP4Reader.get_skip_reading, cv2.read.
  rewrite Hs, Ho, Hp, Hn. simpl.
  eexists. split.
  - destruct ignore; reflexivity.
  - unfold in_sync; simpl. repeat split; auto; lia.
Qed.

Lemma advance_in_sync (n : nat) :
  forall (r : MP4Reader.t) (i : Z),
    in_sync r ->
    n = Z.to_nat (i - MP4Reader._index r) ->
    (i <= Z.of_nat (List.length (cv2.frames (MP4Reader._mp4_reader r))))%Z ->
    exists r',
      MP4Reader.advance n r i = Ok r'
      /\ in_sync r'
      /\ MP4Reader._index r' = Z.max i (MP4Reader._index r)
      /\ cv2.frames (MP4Reader._mp4_reader r')
         = cv2.frames (MP4Reader._mp4_reader r)
      /\ MP4Reader.serial_number r' = MP4Reader.serial_number r
      /\ MP4Reader.grayscale r' = MP4Reader.grayscale r.
Proof.
  induction n as [|n IH]; intros r i Hr Hn Hlen.
  - simpl. destruct (Z.ltb_spec (MP4Reader._index r) i) as [Hlt|Hge];
      [lia|]. exists r. split; [reflexivity|]. split; [exact Hr|].
    repeat split; lia.
  - simpl. destruct (Z.ltb_spec (MP4Reader._index r) i) as [Hlt|Hge]; [|lia].
    assert (Hin : Z.to_nat (MP4Reader._index r)
                  < List.length (cv2.frames (MP4Reader._mp4_reader r))).
    { destruct Hr as (_ & _ & H0 & _). lia. }
    apply nth_error_Some in Hin.
    destruct (nth_error (cv2.frames (MP4Reader._mp4_reader r))
                        (Z.to_nat (MP4Reader._index r))) as [px|] eqn:Hpx;
      [|congruence].
    destruct (read_camera_in_sync true Hr Hpx)
      as (r1 & Hread & Hr1 & Hi1 & Hf1 & Hs1 & Hg1).
    rewrite Hread. simpl.
    destruct (IH r1 i Hr1) as (r' & Ha & Hr' & Hi' & Hf' & Hs' & Hg').
    + lia.
    + rewrite Hf1. exact Hlen.
    + exists r'. repeat split; try congruence.
      * apply Hr'.
      * apply Hr'.
      * apply Hr'.
      * apply Hr'.
      * lia.
Qed.

(** The fuel [set_frame_index] gives the loop is enough: when the loop
    returns, its condition [_index < index] is false. *)
Lemma advance_exits (n : nat) :
  forall (r r' : MP4Reader.t) (i : Z),
    MP4Reader.skip_reading r = Some false ->
    Z.to_nat (i - MP4Reader._index r) <= n ->
    MP4Reader.advance n r i = Ok r' ->
    (i <= MP4Reader._index r')%Z.
Proof.
  induction n as [|n IH]; intros r r' i Hs Hn; simpl;
    destruct (Z.ltb_spec (MP4Reader._index r) i) as [Hlt|Hge];
    try (intros E; inversion E; subst; lia).
  intros E. apply bind_Ok in E. destruct E as ([o r1] & Hread & E).
  simpl in E. apply IH in E; [exact E| |].
  - unfold MP4Reader.read_camera, MP4Reader.get_skip_reading in Hread.
    rewrite Hs in Hread. simpl in Hread.
    destruct (cv2.read (MP4Reader._mp4_reader r)) as [[success frame] cap].
    apply bind_Ok in Hread. destruct Hread as (f & _ & Hread).
    destruct (negb success); inversion Hread; subst; simpl;
      first [exact Hs | reflexivity].
  - unfold MP4Reader.read_camera, MP4Reader.get_skip_reading in Hread.
    rewrite Hs in Hread. simpl in Hread.
    destruct (cv2.read (MP4Reader._mp4_reader r)) as [[success frame] cap].
    apply bind_Ok in Hread. destruct Hread as (f & _ & Hread).
    destruct (negb success); inversion Hread; subst; simpl; lia.
Qed.

(** Forward half of the seek-then-read equivalence: from a reader in
    sync, advancing to an index at or ahead of the cursor and reading
    returns frame [i] of the video. *)
Lemma forward_seek_then_read (r : MP4Reader.t) (i : Z) (px : list Z) :
  in_sync r ->
  (MP4Reader._index r <= i)%Z ->
  nth_error (cv2.frames (MP4Reader._mp4_reader r)) (Z.to_nat i) = Some px ->
  exists r',
    seek_then_read r i = Ok (image_answer r px, r')
    /\ in_sync r' /\ MP4Reader._index r' = (i + 1)%Z.
Proof.
  intros Hr Hle Hpx.
  assert (Hlen : Z.to_nat i
                 < List.length (cv2.frames (MP4Reader._mp4_reader r))).
  { apply nth_error_Some. congruence. }
  unfold seek_then_read, MP4Reader.set_frame_index, MP4Reader.get_skip_reading.
  destruct Hr as (Hs & Ho & H0 & Hp). rewrite Hs. simpl.
  destruct (Z.ltb_spec i (MP4Reader._index r)) as [Hlt|_]; [lia|].
  destruct (@advance_in_sync (Z.to_nat (i - MP4Reader._index r)) r i)
    as (r1 & Ha & Hr1 & Hi1 & Hf1 & Hs1 & Hg1).
  { repeat split; auto. }
  { reflexivity. }
  { lia. }
  rewrite Ha. simpl.
  assert (Hi : MP4Reader._index r1 = i) by lia.
  destruct (@read_camera_in_sync r1 px false Hr1) as (r2 & Hread & Hr2 & Hi2 & _).
  { rewrite Hf1, Hi. exact Hpx. }
  exists r2. split; [|split; [exact Hr2 | lia]].
  rewrite Hread. unfold image_answer, MP4Reader.frame_of.
  rewrite Hs1, Hg1. reflexivity.
Qed.

(** Sequential reading from frame 0: the last of [n + 1] reads of a
    fresh reader returns frame [n]. *)
Lemma read_times_in_sync (n : nat) :
  forall (r : MP4Reader.t) (px : list Z),
    in_sync r ->
    nth_error (cv2.frames (MP4Reader._mp4_reader r))
              (Z.to_nat (MP4Reader._index r) + n) = Some px ->
    exists r', read_times n r = Ok (image_answer r px, r') /\ in_sync r'.
Proof.
  induction n as [|n IH]; intros r px Hr Hpx.
  - simpl. rewrite Nat.add_0_r in Hpx.
    destruct (read_camera_in_sync false Hr Hpx) as (r' & Hread & Hr' & _).
    eauto.
  - simpl.
    assert (Hin : Z.to_nat (MP4Reader._index r)
                  < List.length (cv2.frames (MP4Reader._mp4_reader r))).
    { assert (Z.to_nat (MP4Reader._index r) + S n
              < List.length (cv2.frames (MP4Reader._mp4_reader r)))
        by (apply nth_error_Some; congruence). lia. }
    apply nth_error_Some in Hin.
    destruct (nth_error (cv2.frames (MP4Reader._mp4_reader r))
                        (Z.to_nat (MP4Reader._index r))) as [px0|] eqn:Hpx0;
      [|congruence].
    destruct (read_camera_in_sync false Hr Hpx0)
      as (r1 & Hread & Hr1 & Hi1 & Hf1 & Hs1 & Hg1).
    rewrite Hread. simpl.
    destruct (IH r1 px Hr1) as (r' & Hrt & Hr').
    + rewrite Hf1, Hi1.
      replace (Z.to_nat (MP4Reader._index r + 1) + n)
        with (Z.to_nat (MP4Reader._index r) + S n); [exact Hpx|].
      destruct Hr as (_ & _ & H0 & _). lia.
    + exists r'. split; [|exact Hr'].
      rewrite Hrt. unfold image_answer, MP4Reader.frame_of.
      rewrite Hs1, Hg1. reflexivity.
Qed.

(** With decoding enabled, [read_camera] on a decoder that has no frame
    left raises: the colour conversion runs on the empty frame before
    [success] is looked at. *)
Lemma read_camera_exhausted (r : MP4Reader.t) (ignore : bool) :
  MP4Reader.skip_reading r = Some false ->
  nth_error (cv2.frames (MP4Reader._mp4_reader r))
            (cv2.pos (MP4Reader._mp4_reader r)) = None ->
  MP4Reader.read_camera r ignore = Raise cv2_error.
Proof.
  intros Hs Hn.
  unfold MP4Reader.read_camera, MP4Reader.get_skip_reading, cv2.read.
  rewrite Hs, Hn. simpl.
  destruct (cv2.opened (MP4Reader._mp4_reader r)); reflexivity.
Qed.

(** A read that asks for the data never answers [None]. *)
Lemma read_camera_not_None (r r' : MP4Reader.t)
      (o : option MP4Reader.data_dict) :
  MP4Reader.read_camera r false = Ok (o, r') -> o <> None.
Proof.
  unfold MP4Reader.read_camera, MP4Reader.get_skip_reading, cv2.read.
  destruct (MP4Reader.skip_reading r) as [[|]|]; simpl; try discriminate.
  - intros E; inversion E; discriminate.
  - destruct (cv2.opened (MP4Reader._mp4_reader r));
      [destruct (nth_error _ _)|]; simpl; try discriminate.
    intros E; inversion E; discriminate.
Qed.

(** ** The multi-camera wrapper *)

Lemma endswith_cons (c : ascii) (s suffix : string) :
  endswith (String c s) suffix
  = if String.eqb (String c s) suffix then true else endswith s suffix.
Proof. reflexivity. Qed.

Lemma endswith_app (a b suffix : string) :
  endswith b suffix = true -> endswith (a ++ b)%string suffix = true.
Proof.
  intros Hb. induction a as [|c a IH]; [exact Hb|].
  change (String c a ++ b)%string with (String c (a ++ b)).
  rewrite endswith_cons.
  destruct (String.eqb (String c (a ++ b)) suffix); [reflexivity | exact IH].
Qed.

Lemma glob1_endswith (folder : string) (d : Directory) :
  Forall (fun p => endswith (fst p) ".mp4" = true) (glob1 folder d).
Proof.
  unfold glob1. apply Forall_forall. intros p Hp.
  apply in_map_iff in Hp. destruct Hp as (e & <- & He).
  apply filter_In in He. destruct He as (_ & He).
  apply andb_true_iff in He. destruct He as (He & _). simpl.
  apply endswith_app. apply (endswith_app "/"). exact He.
Qed.

Lemma glob1_filter (folder : string) (d : Directory) :
  glob1 folder (filter (fun e => is_mp4_name (entry_name e)) d)
  = glob1 folder d.
Proof.
  unfold glob1, is_mp4_name. f_equal.
  induction d as [|e d IH]; simpl; [reflexivity|].
  destruct (endswith (entry_name e) ".mp4" && negb (is_hidden (entry_name e)))
    eqn:E; simpl; rewrite ?E, IH; reflexivity.
Qed.

Lemma glob_mp4_endswith (folder : string) (f : Folder) :
  Forall (fun p => endswith (fst p) ".mp4" = true) (glob_mp4 folder f).
Proof.
  unfold glob_mp4. destruct (has_magic folder); [|apply glob1_endswith].
  induction (matching f) as [|md l IH]; simpl; [constructor|].
  apply Forall_app. split; [apply glob1_endswith | exact IH].
Qed.

Lemma glob_mp4_candidates (folder : string) (f : Folder) :
  forall p, In p (glob_mp4 folder f) ->
            exists e, In e (candidates folder f)
                      /\ is_mp4_name (entry_name e) = true
                      /\ snd p = entry_video e.
Proof.
  assert (H1 : forall dir d p, In p (glob1 dir d) ->
                 exists e, In e d /\ is_mp4_name (entry_name e) = true
                           /\ snd p = entry_video e).
  { intros dir d p Hp. unfold glob1 in Hp. apply in_map_iff in Hp.
    destruct Hp as (e & <- & He). apply filter_In in He.
    destruct He as (Hin & He). exists e. auto. }
  unfold glob_mp4, candidates. intros p Hp.
  destruct (has_magic folder); [|eapply H1; eauto].
  apply in_flat_map in Hp. destruct Hp as (md & Hmd & Hp).
  destruct (H1 _ _ _ Hp) as (e & He & Hm & Hv).
  exists e. split; [|auto]. apply in_flat_map. eauto.
Qed.

Lemma MP4Reader_init_raises (content : option (list (list Z)))
      (serial : string) (gray : bool) (e : exn) :
  MP4Reader.__init__ content serial gray = Raise e -> e = RuntimeError.
Proof.
  unfold MP4Reader.__init__. destruct content; simpl; congruence.
Qed.

Lemma open_readers_raises (fs : list (string * option (list (list Z)))) :
  Forall (fun p => endswith (fst p) ".mp4" = true) fs ->
  forall (cd : dict MP4Reader.t) (e : exn),
    RecordedMultiCameraWrapper.open_readers fs cd = Raise e ->
    e = RuntimeError.
Proof.
  induction 1 as [|[f content] fs Hf _ IH]; intros cd e; simpl;
    [discriminate|].
  simpl in Hf. rewrite Hf.
  destruct (endswith f "_depth.mp4");
    (destruct (MP4Reader.__init__ content _ _) as [r|e'] eqn:Hi; simpl;
     [apply IH | intros E; inversion E; subst; eapply MP4Reader_init_raises; eauto]).
Qed.

Lemma open_readers_returns (fs : list (string * option (list (list Z)))) :
  Forall (fun p => endswith (fst p) ".mp4" = true /\ snd p <> None) fs ->
  forall cd : dict MP4Reader.t,
    returns (RecordedMultiCameraWrapper.open_readers fs cd).
Proof.
  induction 1 as [|[f content] fs (Hf & Hc) _ IH]; intros cd; simpl;
    [eexists; reflexivity|].
  simpl in Hf, Hc. rewrite Hf.
  destruct content as [frames|]; [|congruence].
  destruct (endswith f "_depth.mp4"); simpl; apply IH.
Qed.

(** When every [*.mp4] entry of the directory is a video that opens, the
    wrapper is constructed, whatever else the directory holds. *)
Lemma init_returns (folder : string) (d : Folder) (kw : camera_kwargs_t) :
  (forall e, In e (candidates folder d) -> is_mp4_name (entry_name e) = true ->
             entry_video e <> None) ->
  returns (RecordedMultiCameraWrapper.__init__ folder d kw).
Proof.
  intros Hd. unfold RecordedMultiCameraWrapper.__init__. simpl.
  destruct (@open_readers_returns (glob_mp4 folder d)) with (cd := @nil (string * MP4Reader.t))
    as (cd & Hcd).
  - apply Forall_forall. intros p Hp. split.
    + pose proof (glob_mp4_endswith folder d) as Hall.
      rewrite Forall_forall in Hall. auto.
    + destruct (glob_mp4_candidates _ _ _ Hp) as (e & Hin & He & ->).
      apply Hd; assumption.
  - rewrite Hcd. simpl. eexists; reflexivity.
Qed.

Lemma read_each_app (pre post : list string) :
  forall (self : RecordedMultiCameraWrapper.t) (index : option Z)
         (ctd : dict string) (ts : pyval) (acc : dict (dict Image)),
    RecordedMultiCameraWrapper.read_each (pre ++ post) self index ctd ts acc
    = '(o, self1) <-
         RecordedMultiCameraWrapper.read_each pre self index ctd ts acc ;;
      match o with
      | None => Ok (None, self1)
      | Some obs =>
          RecordedMultiCameraWrapper.read_each post self1 index ctd ts obs
      end.
Proof.
  induction pre as [|a pre IH]; intros self index ctd ts acc; simpl;
    [reflexivity|].
  destruct (RecordedMultiCameraWrapper.read_one a self index ctd ts)
    as [[[d|] self1]|e]; simpl; auto.
Qed.

Lemma read_one_not_None (cam_id : string)
      (self self' : RecordedMultiCameraWrapper.t) (index : option Z)
      (ctd : dict string) (ts : pyval) (o : option MP4Reader.data_dict) :
  RecordedMultiCameraWrapper.read_one cam_id self index ctd ts
  = Ok (o, self') ->
  o <> None.
Proof.
  unfold RecordedMultiCameraWrapper.read_one. intros E.
  inv_bind E. inv_bind E. skip_bind E. inv_bind E. inv_bind E.
  destruct a2 as [data cam]. simpl in E. inversion E; subst.
  eapply read_camera_not_None; eauto.
Qed.

(** [read_cameras] never answers [None]: a reader that runs out of
    frames raises instead (see [read_camera_exhausted]). *)
Lemma read_each_not_None (ids : list string) :
  forall (self self' : RecordedMultiCameraWrapper.t) (index : option Z)
         (ctd : dict string) (ts : pyval) (acc : dict (dict Image))
         (o : option (dict (dict Image))),
    RecordedMultiCameraWrapper.read_each ids self index ctd ts acc
    = Ok (o, self') ->
    o <> None.
Proof.
  induction ids as [|a ids IH]; intros self self' index ctd ts acc o; simpl.
  - intros E; inversion E; discriminate.
  - intros E. inv_bind E. destruct a0 as [[d|] self1]; simpl in E.
    + eapply IH; eauto.
    + exfalso. eapply read_one_not_None; eauto.
Qed.

Lemma read_one_unknown_id (cam_id : string)
      (self : RecordedMultiCameraWrapper.t) (index : option Z)
      (ctd : dict string) (ts : pyval) :
  dict_get ctd cam_id = None ->
  RecordedMultiCameraWrapper.read_one cam_id self index ctd ts
  = Raise KeyError.
Proof.
  intros Hk. unfold RecordedMultiCameraWrapper.read_one, dict_item.
  rewrite Hk. reflexivity.
Qed.

Lemma read_each_known_ids (ids : list string) :
  forall (self self' : RecordedMultiCameraWrapper.t) (index : option Z)
         (ctd : dict string) (ts : pyval) (acc : dict (dict Image))
         (o : option (dict (dict Image))),
    RecordedMultiCameraWrapper.read_each ids self index ctd ts acc
    = Ok (o, self') ->
    forall cam_id, In cam_id ids -> dict_get ctd cam_id <> None.
Proof.
  induction ids as [|a ids IH];
    intros self self' index ctd ts acc o E cam_id Hin; [destruct Hin|].
  simpl in E. inv_bind E. destruct a0 as [[d|] self1]; simpl in E.
  - destruct Hin as [<-|Hin]; [|eapply IH; eauto].
    intros Hk.
    rewrite (@read_one_unknown_id a self index ctd ts Hk) in Ha.
    discriminate.
  - exfalso. eapply read_one_not_None; eauto.
Qed.

(** ** The HDF5 log *)

(** Induction on a node with the hypothesis for every child of a
    group. *)
Fixpoint h5node_children_ind (P : h5node -> Prop)
         (Hgroup : forall items,
             Forall (fun kv => P (snd kv)) items -> P (Group items))
         (Hdataset : forall rows, P (Dataset rows))
         (Hdatatype : P Datatype)
         (n : h5node) : P n :=
  match n with
  | Group items =>
      Hgroup items
        ((fix go (items : list (string * h5node))
            : Forall (fun kv => P (snd kv)) items :=
            match items with
            | [] => Forall_nil _
            | kv :: rest =>
                Forall_cons kv
                  (h5node_children_ind P Hgroup Hdataset Hdatatype (snd kv))
                  (go rest)
            end) items)
  | Dataset rows => Hdataset rows
  | Datatype => Hdatatype
  end.

Lemma node_length_Group (keys : list string) (items : list (string * h5node)) :
  node_length keys (Group items) = length_loop keys items None.
Proof.
  change (node_length keys (Group items))
    with ((fix loop (items : list (string * h5node)) (length : option nat)
             : result (option nat) :=
             match items with
             | [] => Ok length
             | (key, curr_data) :: rest =>
                 if mem_string key keys then loop rest length
                 else
                   curr_length <- node_length keys curr_data ;;
                   let length := match length with
                                 | None => curr_length
                                 | Some _ => length
                                 end in
                   _ <- assert (length_eqb curr_length length) ;;
                   loop rest length
             end) items None).
  generalize (@None nat).
  induction items as [|[key child] rest IH]; intros len; [reflexivity|].
  simpl. destruct (mem_string key keys); [apply IH|].
  destruct (node_length keys child) as [cl|e]; simpl; [|reflexivity].
  destruct (assert _); simpl; [apply IH | reflexivity].
Qed.

Lemma leaf_lengths_Group (keys : list string) (items : list (string * h5node)) :
  leaf_lengths keys (Group items) = leaves_of_items keys items.
Proof.
  induction items as [|[key child] rest IH]; [reflexivity|].
  simpl in *. destruct (mem_string key keys); [exact IH|].
  f_equal. exact IH.
Qed.

Lemma length_eqb_eq (a b : option nat) : length_eqb a b = true -> a = b.
Proof.
  destruct a, b; simpl; try discriminate; auto.
  intros E. apply Nat.eqb_eq in E. congruence.
Qed.

Lemma length_eqb_refl (a : option nat) : length_eqb a a = true.
Proof. destruct a; simpl; auto using Nat.eqb_refl. Qed.

Lemma assert_Ok (b : bool) (u : unit) : assert b = Ok u -> b = true.
Proof. destruct b; simpl; [auto | discriminate]. Qed.

(** What a returned length says about the data series: each of them has
    that length, and [None] is returned only when there is none. *)
Lemma node_length_sound (keys : list string) (n : h5node) :
  forall r, node_length keys n = Ok r ->
            Forall (fun l => r = Some l) (leaf_lengths keys n).
Proof.
  induction n as [items IH| rows |] using h5node_children_ind; intros r.
  - rewrite node_length_Group, leaf_lengths_Group.
    assert (Hloop : forall len r,
               length_loop keys items len = Ok r ->
               (forall L, len = Some L -> r = Some L)
               /\ Forall (fun l => r = Some l) (leaves_of_items keys items)).
    { clear r. induction IH as [|[key child] rest Hc _ IHrest];
        intros len r; simpl.
      - intros E; inversion E; subst. split; auto.
      - destruct (mem_string key keys); [apply IHrest|].
        intros E. inv_bind E. inv_bind E. apply assert_Ok in Ha0.
        apply length_eqb_eq in Ha0.
        destruct (IHrest _ _ E) as (Hkeep & Hrest).
        simpl in Hc. specialize (Hc _ Ha).
        assert (Hr : forall l, a = Some l -> r = Some l).
        { intros l ->. apply Hkeep. destruct len; congruence. }
        split.
        + intros L ->. apply Hkeep. reflexivity.
        + apply Forall_app. split; [|exact Hrest].
          eapply Forall_impl; [|exact Hc]. simpl. intros l Hl. auto. }
    intros E. apply (Hloop _ _ E).
  - simpl. intros E; inversion E; subst. constructor; auto.
  - simpl. discriminate.
Qed.

(** Two data series of different lengths: no length is returned. *)
Lemma node_length_mismatch (keys : list string) (n : h5node) (a b : nat) :
  In a (leaf_lengths keys n) -> In b (leaf_lengths keys n) -> a <> b ->
  exists e, node_length keys n = Raise e.
Proof.
  intros Ha Hb Hab.
  destruct (node_length keys n) as [r|e] eqn:E; [|eauto].
  pose proof (node_length_sound _ _ E) as Hall.
  rewrite Forall_forall in Hall.
  pose proof (Hall _ Ha). pose proof (Hall _ Hb). congruence.
Qed.

(** On a populated log whose data series all have length [L], the
    length is computed. *)
Lemma node_length_complete (keys : list string) (L : nat) (n : h5node) :
  populated keys n ->
  Forall (eq L) (leaf_lengths keys n) ->
  leaf_lengths keys n <> [] ->
  node_length keys n = Ok (Some L).
Proof.
  induction n as [items IH| rows |] using h5node_children_ind.
  - rewrite node_length_Group, leaf_lengths_Group.
    assert (Hloop : forall len,
               (fix go (items : list (string * h5node)) : Prop :=
                  match items with
                  | [] => True
                  | (key, child) :: rest =>
                      (if mem_string key keys then True
                       else populated keys child
                            /\ leaf_lengths keys child <> [])
                      /\ go rest
                  end) items ->
               Forall (eq L) (leaves_of_items keys items) ->
               (len = None \/ len = Some L) ->
               (len = None -> leaves_of_items keys items <> []) ->
               length_loop keys items len = Ok (Some L)).
    { induction IH as [|[key child] rest Hc _ IHrest];
        intros len Hpop Hall Hlen Hne; simpl.
      - destruct Hlen as [->| ->]; [exfalso; apply Hne; reflexivity|reflexivity].
      - simpl in Hall, Hne. destruct Hpop as (Hchild & Hpop).
        destruct (mem_string key keys); [apply IHrest; auto|].
        destruct Hchild as (Hpc & Hnc).
        apply Forall_app in Hall. destruct Hall as (Hl1 & Hl2).
        simpl in Hc. rewrite (Hc Hpc Hl1 Hnc).
        destruct Hlen as [->| ->]; simpl; rewrite Nat.eqb_refl; simpl;
          (apply IHrest; auto; discriminate). }
    intros Hpop Hall Hne. apply Hloop; auto.
  - simpl. intros _ Hall _. inversion Hall; subst. reflexivity.
  - simpl. intros [].
Qed.

(** ** Sorting and sampling *)

Lemma insert_sorted_perm (x : nat) (l : list nat) :
  Permutation (x :: l) (insert_sorted x l).
Proof.
  induction l as [|y l IH]; simpl; [auto|].
  destruct (Nat.leb x y); [auto|].
  eapply perm_trans; [apply perm_swap|]. auto.
Qed.

Lemma np_sort_perm (l : list nat) : Permutation l (np_sort l).
Proof.
  induction l as [|x l IH]; simpl; [auto|].
  eapply perm_trans; [|apply insert_sorted_perm]. auto.
Qed.

Lemma insert_sorted_lt (x : nat) (l : list nat) :
  StronglySorted lt l -> ~ In x l -> StronglySorted lt (insert_sorted x l).
Proof.
  induction 1 as [|y l Hs IH Hy]; intros Hx; simpl.
  - repeat constructor.
  - destruct (Nat.leb_spec x y) as [Hle|Hgt].
    + assert (x < y) by (simpl in Hx; lia).
      constructor; [constructor; assumption|].
      constructor; [assumption|].
      eapply Forall_impl; [|exact Hy]. simpl. intros; lia.
    + constructor.
      * apply IH. simpl in Hx. tauto.
      * eapply Permutation_Forall; [apply insert_sorted_perm|].
        constructor; [lia | exact Hy].
Qed.

Lemma np_sort_strictly_ascending (l : list nat) :
  NoDup l -> StronglySorted lt (np_sort l).
Proof.
  induction 1 as [|x l Hx _ IH]; simpl; [constructor|].
  apply insert_sorted_lt; [exact IH|].
  intros Hin. apply Hx.
  eapply Permutation_in; [apply Permutation_sym, np_sort_perm | exact Hin].
Qed.

Lemma np_arange_strictly_ascending (n : nat) :
  StronglySorted lt (np_arange n).
Proof.
  unfold np_arange. generalize 0.
  induction n as [|n IH]; intros s; simpl; constructor; [apply IH|].
  apply Forall_forall. intros i Hi. apply in_seq in Hi. lia.
Qed.

Lemma np_arange_in_range (n : nat) : Forall (fun i => i < n) (np_arange n).
Proof.
  apply Forall_forall. intros i Hi. apply in_seq in Hi. lia.
Qed.

Lemma strictly_ascending_prefix (pre post : list nat) (k : nat) :
  StronglySorted lt (pre ++ k :: post) -> Forall (fun i => i < k) pre.
Proof.
  induction pre as [|a pre IH]; simpl; intros Hs; [constructor|].
  inversion Hs as [|? ? Hs' Ha]; subst. constructor.
  - rewrite Forall_forall in Ha. apply Ha. apply in_or_app. simpl. auto.
  - apply IH. exact Hs'.
Qed.

Lemma In_firstn {A} (k : nat) (l : list A) (x : A) :
  In x (firstn k l) -> In x l.
Proof.
  revert k. induction l as [|y l IH]; intros [|k]; simpl; try tauto.
  intros [E|Hin]; [auto | right; eapply IH; eauto].
Qed.

(** The stand-in generator keeps the contract of [np.random.choice]. *)
Lemma descending_fair : fair (G := descending).
Proof.
  intros g a k Hk. simpl.
  assert (Hnd : NoDup (rev (seq 0 a))).
  { apply NoDup_rev, seq_NoDup. }
  repeat split.
  - rewrite length_firstn, length_rev, length_seq. lia.
  - revert Hnd. generalize (rev (seq 0 a)). clear. intros l. revert k.
    induction l as [|x l IH]; intros k Hnd; destruct k; simpl;
      try constructor.
    + inversion Hnd; subst. intros Hin. apply In_firstn in Hin. contradiction.
    + inversion Hnd; subst. apply IH. assumption.
  - apply Forall_forall. intros i Hi. apply In_firstn in Hi.
    apply in_rev in Hi. apply in_seq in Hi. lia.
Qed.

(** ** The assembly loop *)

Section LoadTrajectoryFacts.

Variables wrist static : Z.

Lemma iterate_acc (rss : bool) (l : list nat) :
  forall tr (cr : option RecordedMultiCameraWrapper.t) acc,
    iterate wrist static rss l tr cr acc
    = '(new, ex, tr', cr') <- iterate wrist static rss l tr cr [] ;;
      Ok (acc ++ new, ex, tr', cr').
Proof.
  induction l as [|i l IH]; intros tr cr acc; simpl.
  - rewrite app_nil_r. reflexivity.
  - destruct (visit wrist static rss i tr cr) as [[[o tr1] cr1]|e]; simpl;
      [|reflexivity].
    destruct o as [| |ts].
    + simpl. rewrite app_nil_r. reflexivity.
    + apply IH.
    + rewrite (IH tr1 cr1 (acc ++ [ts])), (IH tr1 cr1 [ts]).
      destruct (iterate wrist static rss l tr1 cr1 [])
        as [[[[new ex] tr2] cr2]|e]; simpl; [|reflexivity].
      rewrite <- app_assoc. reflexivity.
Qed.

(** The trajectory reader is only read from: a read leaves its file as
    it found it, open or not, and hands out the row of the index. *)
Lemma read_timestep_file tr (i : nat) keys ts tr' :
  TrajectoryReader.read_timestep tr i keys = Ok (ts, tr') ->
  TrajectoryReader._hdf5_file tr' = TrajectoryReader._hdf5_file tr.
Proof.
  unfold TrajectoryReader.read_timestep. intros E.
  inv_bind E. inv_bind E. inv_bind E. inversion E; subst. reflexivity.
Qed.

Lemma read_timestep_row tr (i : nat) ts tr' :
  TrajectoryReader.read_timestep tr i [] = Ok (ts, tr') ->
  log_row (TrajectoryReader._hdf5_file tr) i = Ok ts.
Proof.
  unfold TrajectoryReader.read_timestep, log_row. intros E.
  skip_bind E. skip_bind E.
  apply bind_Ok in E. destruct E as (row & Hrow & E).
  inversion E; subst. exact Hrow.
Qed.

(** What one pass of the loop body does, stage by stage. *)
Lemma visit_inv (rss : bool) (i : nat) tr
      (cr : option RecordedMultiCameraWrapper.t) o tr' cr' :
  visit wrist static rss i tr cr = Ok (o, tr', cr') ->
  exists (row : pyval) (r : option pyval),
    TrajectoryReader.read_timestep tr i [] = Ok (row, tr')
    /\ match cr with
       | None => r = Some row /\ cr' = None
       | Some c =>
           exists ctd tsd co c',
             role_names (camera_type_override wrist static) = Ok ctd
             /\ RecordedMultiCameraWrapper.read_cameras
                  c (Some (Z.of_nat i)) ctd tsd = Ok (co, c')
             /\ cr' = Some c'
             /\ match co with
                | None => r = None
                | Some obs =>
                    exists ts, with_camera_obs wrist static row obs = Ok ts
                               /\ r = Some ts
                end
       end
    /\ match r with
       | None => o = CameraFailed
       | Some ts =>
           exists me, movement_enabled_of ts = Ok me
                      /\ o = if negb me && rss then Skipped else Saved ts
       end.
Proof.
  unfold visit. intros E.
  apply bind_Ok in E. destruct E as ([row tr1] & Hrow & E).
  cbn beta iota in E.
  apply bind_Ok in E. destruct E as ([r cr1] & Hr & E).
  cbn beta iota in E.
  assert (Hlast : tr1 = tr' /\ cr1 = cr'
                  /\ match r with
                     | None => o = CameraFailed
                     | Some ts =>
                         exists me, movement_enabled_of ts = Ok me
                                    /\ o = if negb me && rss
                                           then Skipped else Saved ts
                     end).
  { destruct r as [ts|]; [|inversion E; subst; auto].
    apply bind_Ok in E. destruct E as (obs & Hobs & E).
    apply bind_Ok in E. destruct E as (ci & Hci & E).
    apply bind_Ok in E. destruct E as (m & Hm & E).
    apply bind_Ok in E. destruct E as (me & Hme & E).
    assert (Hen : movement_enabled_of ts = Ok me).
    { unfold movement_enabled_of. rewrite Hobs. cbn [bind]. rewrite Hci.
      cbn [bind]. rewrite Hm. cbn [bind]. exact Hme. }
    destruct (negb me && rss) eqn:Hb; inversion E; subst;
      (split; [reflexivity|]; split; [reflexivity|]);
      exists me; rewrite Hb; auto. }
  destruct Hlast as (-> & -> & Hlast).
  exists row, r. split; [exact Hrow|]. split; [|exact Hlast].
  destruct cr as [c|]; [|inversion Hr; subst; auto].
  apply bind_Ok in Hr. destruct Hr as (obs & _ & Hr).
  apply bind_Ok in Hr. destruct Hr as (tsp & _ & Hr).
  apply bind_Ok in Hr. destruct Hr as (tsd & _ & Hr).
  apply bind_Ok in Hr. destruct Hr as (ts1 & Hts1 & Hr).
  apply bind_Ok in Hr. destruct Hr as (ctd & Hctd & Hr).
  apply bind_Ok in Hr. destruct Hr as ([co c'] & Hread & Hr).
  cbn beta iota in Hr.
  exists ctd, tsd, co, c'. split; [exact Hctd|]. split; [exact Hread|].
  destruct co as [camera_obs|].
  - apply bind_Ok in Hr. destruct Hr as (ts2 & Hts2 & Hr).
    inversion Hr; subst. split; [reflexivity|].
    exists ts2. split; [|reflexivity].
    unfold with_camera_obs. rewrite Hts1. cbn [bind]. exact Hts2.
  - inversion Hr; subst. auto.
Qed.

(** With step filtering off, no visit drops its timestep. *)
Lemma visit_never_skips (i : nat) tr
      (cr : option RecordedMultiCameraWrapper.t) o tr' cr' :
  visit wrist static false i tr cr = Ok (o, tr', cr') -> o <> Skipped.
Proof.
  intros E. apply visit_inv in E.
  destruct E as (row & [ts|] & _ & _ & Hlast).
  - destruct Hlast as (me & _ & ->). rewrite andb_false_r. discriminate.
  - subst. discriminate.
Qed.

(** The [break] of the loop is never taken: [read_cameras] does not
    answer [None] (see [read_each_not_None]). *)
Lemma visit_never_fails (rss : bool) (i : nat) tr
      (cr : option RecordedMultiCameraWrapper.t) o tr' cr' :
  visit wrist static rss i tr cr = Ok (o, tr', cr') -> o <> CameraFailed.
Proof.
  intros E. apply visit_inv in E.
  destruct E as (row & r & _ & Hcam & Hlast).
  assert (Hr : r <> None).
  { destruct cr as [c|].
    - destruct Hcam as (ctd & tsd & co & c' & _ & Hread & _ & Hco).
      unfold RecordedMultiCameraWrapper.read_cameras in Hread.
      apply read_each_not_None in Hread.
      destruct co as [obs|]; [|congruence].
      destruct Hco as (ts & _ & ->). discriminate.
    - destruct Hcam as (-> & _). discriminate. }
  destruct r as [ts|]; [|congruence].
  destruct Hlast as (me & _ & ->). destruct (negb me && rss); discriminate.
Qed.

Lemma iterate_never_breaks (rss : bool) (l : list nat) :
  forall tr (cr : option RecordedMultiCameraWrapper.t) acc acc' ex tr' cr',
    iterate wrist static rss l tr cr acc = Ok (acc', ex, tr', cr') ->
    ex = Exhausted.
Proof.
  induction l as [|i l IH]; intros tr cr acc acc' ex tr' cr'; simpl.
  - intros E; inversion E; reflexivity.
  - destruct (visit wrist static rss i tr cr) as [[[o tr1] cr1]|e] eqn:Hv;
      simpl; [|discriminate].
    apply visit_never_fails in Hv.
    destruct o as [| |ts]; [congruence| |]; apply IH.
Qed.

(** A saved timestep is the row of the visited index, with the camera
    data of the visit when there is a camera reader. *)
Lemma visit_saved_at (rss : bool) (i : nat) tr
      (cr : option RecordedMultiCameraWrapper.t) ts tr' cr' :
  visit wrist static rss i tr cr = Ok (Saved ts, tr', cr') ->
  saved_at (TrajectoryReader._hdf5_file tr) wrist static (is_some cr) i ts.
Proof.
  intros E. apply visit_inv in E.
  destruct E as (row & r & Hrow & Hcam & Hlast).
  apply read_timestep_row in Hrow. exists row. split; [exact Hrow|].
  destruct r as [ts'|]; [|discriminate].
  destruct Hlast as (me & _ & Ho).
  assert (ts' = ts) by (destruct (negb me && rss); congruence). subst ts'.
  destruct cr as [c|]; simpl.
  - destruct Hcam as (ctd & tsd & co & c' & _ & _ & _ & Hco).
    destruct co as [obs|]; [|discriminate].
    destruct Hco as (ts' & Hts' & E). inversion E; subst. eauto.
  - destruct Hcam as (E & _). congruence.
Qed.

Lemma visit_states (rss : bool) (P : RecordedMultiCameraWrapper.t -> Prop) :
  (forall c index ctd tsd o c',
      P c ->
      RecordedMultiCameraWrapper.read_cameras c index ctd tsd = Ok (o, c') ->
      P c') ->
  forall i tr (cr : option RecordedMultiCameraWrapper.t) o tr' cr',
    visit wrist static rss i tr cr = Ok (o, tr', cr') ->
    TrajectoryReader._hdf5_file tr' = TrajectoryReader._hdf5_file tr
    /\ ((forall c, cr = Some c -> P c) -> forall c, cr' = Some c -> P c)
    /\ is_some cr' = is_some cr.
Proof.
  intros Hread i tr cr o tr' cr' E. apply visit_inv in E.
  destruct E as (row & r & Hrow & Hcam & _).
  apply read_timestep_file in Hrow. split; [exact Hrow|].
  destruct cr as [c|].
  - destruct Hcam as (ctd & tsd & co & c' & _ & Hrc & -> & _). split.
    + intros HP c0 E. inversion E; subst. eapply Hread; eauto.
    + reflexivity.
  - destruct Hcam as (_ & ->). split; [discriminate | reflexivity].
Qed.

Lemma iterate_states (rss : bool) (P : RecordedMultiCameraWrapper.t -> Prop) :
  (forall c index ctd tsd o c',
      P c ->
      RecordedMultiCameraWrapper.read_cameras c index ctd tsd = Ok (o, c') ->
      P c') ->
  forall l tr (cr : option RecordedMultiCameraWrapper.t) acc acc' ex tr' cr',
    iterate wrist static rss l tr cr acc = Ok (acc', ex, tr', cr') ->
    TrajectoryReader._hdf5_file tr' = TrajectoryReader._hdf5_file tr
    /\ ((forall c, cr = Some c -> P c) -> forall c, cr' = Some c -> P c)
    /\ is_some cr' = is_some cr.
Proof.
  intros Hread.
  induction l as [|i l IH]; intros tr cr acc acc' ex tr' cr'; simpl.
  - intros E; inversion E; subst. tauto.
  - destruct (visit wrist static rss i tr cr) as [[[o tr1] cr1]|e] eqn:Hv;
      simpl; [|discriminate].
    destruct (visit_states rss P Hread _ _ _ Hv) as (Hf & HP & Hn).
    destruct o as [| |ts].
    + intros E; inversion E; subst. auto.
    + intros E. apply IH in E. destruct E as (Hf' & HP' & Hn').
      split; [congruence|]. split; [auto | congruence].
    + intros E. apply IH in E. destruct E as (Hf' & HP' & Hn').
      split; [congruence|]. split; [auto | congruence].
Qed.

Lemma visit_keeps (rss : bool) (i : nat) tr
      (cr : option RecordedMultiCameraWrapper.t) o tr' cr' :
  visit wrist static rss i tr cr = Ok (o, tr', cr') ->
  TrajectoryReader._hdf5_file tr' = TrajectoryReader._hdf5_file tr
  /\ is_some cr' = is_some cr.
Proof.
  intros E.
  destruct (visit_states rss (fun _ => True)
              (fun _ _ _ _ _ _ _ _ => I) _ _ _ E) as (Hf & _ & Hn).
  auto.
Qed.

(** Every collected timestep was saved by the visit of one of the
    indices. *)
Lemma iterate_saved (rss : bool) (l : list nat) :
  forall tr (cr : option RecordedMultiCameraWrapper.t) new ex tr' cr',
    iterate wrist static rss l tr cr [] = Ok (new, ex, tr', cr') ->
    Forall (fun ts =>
              exists i, In i l
                        /\ saved_at (TrajectoryReader._hdf5_file tr)
                                    wrist static (is_some cr) i ts
                        /\ (rss = true -> movement_enabled_of ts = Ok true))
           new.
Proof.
  induction l as [|i l IH]; intros tr cr new ex tr' cr'; simpl.
  - intros E; inversion E; subst. constructor.
  - destruct (visit wrist static rss i tr cr) as [[[o tr1] cr1]|e] eqn:Hv;
      simpl; [|discriminate].
    destruct (visit_keeps _ _ _ _ Hv) as (Hf & Hn).
    destruct o as [| |ts].
    + intros E; inversion E; subst. constructor.
    + intros E. apply IH in E. rewrite Hf, Hn in E.
      eapply Forall_impl; [|exact E].
      simpl. intros ts (j & Hj & Hs). eauto.
    + rewrite iterate_acc. intros E. inv_bind E.
      destruct a as [[[new1 ex1] tr2] cr2]. simpl in E.
      inversion E; subst. constructor.
      * exists i. split; [auto|]. split; [eapply visit_saved_at; eauto|].
        intros ->. apply visit_inv in Hv.
        destruct Hv as (row & [ts'|] & _ & _ & Hlast); [|discriminate].
        destruct Hlast as (me & Hme & Ho).
        destruct me; simpl in Ho; [|discriminate].
        inversion Ho; subst. exact Hme.
      * apply IH in Ha. rewrite Hf, Hn in Ha.
        eapply Forall_impl; [|exact Ha].
        simpl. intros ts' (j & Hj & Hs). eauto.
Qed.

(** With step filtering off, the loop saves one timestep at every
    index, in the order of the indices. *)
Lemma iterate_all_saved (l : list nat) :
  forall tr (cr : option RecordedMultiCameraWrapper.t) new ex tr' cr',
    iterate wrist static false l tr cr [] = Ok (new, ex, tr', cr') ->
    Forall2 (saved_at (TrajectoryReader._hdf5_file tr) wrist static
                      (is_some cr)) l new.
Proof.
  induction l as [|i l IH]; intros tr cr new ex tr' cr'; simpl.
  - intros E; inversion E; subst. constructor.
  - destruct (visit wrist static false i tr cr) as [[[o tr1] cr1]|e] eqn:Hv;
      simpl; [|discriminate].
    destruct (visit_keeps _ _ _ _ Hv) as (Hf & Hn).
    destruct o as [| |ts].
    + exfalso. eapply visit_never_fails; eauto.
    + exfalso. eapply visit_never_skips; eauto.
    + rewrite iterate_acc. intros E. inv_bind E.
      destruct a as [[[new1 ex1] tr2] cr2]. simpl in E.
      inversion E; subst. constructor.
      * eapply visit_saved_at; eauto.
      * apply IH in Ha. rewrite Hf, Hn in Ha. exact Ha.
Qed.

End LoadTrajectoryFacts.

(** ** Choosing the indices, and the post-pass *)

Lemma take_indices_returns (l : list pyval) (idxs : list nat) :
  Forall (fun j => j < List.length l) idxs ->
  exists r, take_indices l idxs = Ok r
            /\ incl r l /\ List.length r = List.length idxs.
Proof.
  induction 1 as [|j idxs Hj _ (r & Hr & Hincl & Hlen)]; simpl.
  - exists []. repeat split. intros x [].
  - apply nth_error_Some in Hj.
    destruct (nth_error l j) as [t|] eqn:Ht; [|congruence].
    rewrite Hr. simpl. exists (t :: r). repeat split.
    + intros x [<-|Hx]; [eapply nth_error_In; eauto | auto].
    + simpl. congruence.
Qed.

Section SamplingFacts.

Context {G : Type} `{RandomState G}.
Hypothesis Hfair : fair.

Lemma np_random_choice_fair (g : G) (a : nat) (size : Z) drawn g' :
  np_random_choice g a size = Ok (drawn, g') ->
  (0 <= size <= Z.of_nat a)%Z
  /\ drawn = fst (draw g a (Z.to_nat size))
  /\ List.length drawn = Z.to_nat size
  /\ NoDup drawn
  /\ Forall (fun i => i < a) drawn.
Proof.
  unfold np_random_choice.
  destruct (Z.ltb_spec size 0); [discriminate|].
  destruct (Z.ltb_spec (Z.of_nat a) size); [discriminate|].
  intros E. inversion E as [Hd].
  pose proof Hfair as Hfair'. unfold fair in Hfair'.
  destruct (Hfair' g a (Z.to_nat size)) as (Hl & Hn & Hf); [lia|].
  rewrite Hd in *. simpl in *.
  repeat split; auto; lia.
Qed.

(** The loop visits strictly ascending indices below the horizon,
    with or without subsampling. *)
Lemma choose_indices_ascending (rss : bool) (g g' : G) (L : nat)
      (num : option Z) (coeff : float) (idxs : list nat) :
  choose_indices rss g (Some L) num coeff = Ok (idxs, g') ->
  StronglySorted lt idxs /\ Forall (fun i => i < L) idxs.
Proof.
  unfold choose_indices.
  assert (Harange : forall r : list nat * G,
             Ok (np_arange L, g) = Ok r ->
             StronglySorted lt (fst r) /\ Forall (fun i => i < L) (fst r)).
  { intros r E. inversion E; subst. simpl.
    split; [apply np_arange_strictly_ascending | apply np_arange_in_range]. }
  destruct num as [n|]; [|intros E; apply (Harange _ E)].
  destruct (n =? 0)%Z; simpl; [intros E; apply (Harange _ E)|].
  intros E. apply bind_Ok in E. destruct E as (k & _ & E).
  apply bind_Ok in E. destruct E as ([drawn g1] & Ha & E). simpl in E.
  inversion E; subst.
  apply np_random_choice_fair in Ha.
  destruct Ha as (_ & _ & _ & Hnd & Hall). split.
  - apply np_sort_strictly_ascending. exact Hnd.
  - eapply Permutation_Forall; [apply np_sort_perm | exact Hall].
Qed.

(** Without step filtering, a count [N] below the horizon draws
    exactly [N] indices. *)
Lemma choose_indices_count (g : G) (L : nat) (N : Z) (coeff : float) :
  (0 < N <= Z.of_nat L)%Z ->
  exists idxs g',
    choose_indices false g (Some L) (Some N) coeff = Ok (idxs, g')
    /\ idxs = np_sort (fst (draw g L (Z.to_nat N)))
    /\ List.length idxs = Z.to_nat N.
Proof.
  intros HN. unfold choose_indices.
  destruct (Z.eqb_spec N 0); [lia|]. simpl.
  rewrite Z.min_l by lia.
  unfold np_random_choice.
  destruct (Z.ltb_spec N 0); [lia|].
  destruct (Z.ltb_spec (Z.of_nat L) N); [lia|]. simpl.
  destruct (draw g L (Z.to_nat N)) as [drawn g1] eqn:Hd. simpl.
  exists (np_sort drawn), g1. repeat split.
  rewrite <- (Permutation_length (np_sort_perm drawn)).
  pose proof Hfair as Hfair'. unfold fair in Hfair'.
  destruct (Hfair' g L (Z.to_nat N)) as (Hl & _); [lia|].
  rewrite Hd in Hl. exact Hl.
Qed.

(** The post-pass keeps members of the collected list, and all of
    them when no more than the requested count were collected. *)
Lemma remove_extra_returns (g : G) (l : list pyval) (num : option Z) :
  (forall n, num = Some n -> (0 <= n)%Z) ->
  exists kept g',
    remove_extra g l num = Ok (kept, g')
    /\ incl kept l
    /\ match num with
       | None => kept = l
       | Some n => (Z.of_nat (List.length l) <= n)%Z -> kept = l
       end.
Proof.
  intros Hnum. unfold remove_extra.
  destruct num as [n|]; [|exists l, g; repeat split; apply incl_refl].
  specialize (Hnum n eq_refl).
  destruct (Z.ltb_spec n (Z.of_nat (List.length l))) as [Hlt|Hge].
  - unfold np_random_choice.
    destruct (Z.ltb_spec n 0); [lia|].
    destruct (Z.ltb_spec (Z.of_nat (List.length l)) n); [lia|]. simpl.
    pose proof Hfair as Hfair'. unfold fair in Hfair'.
    destruct (Hfair' g (List.length l) (Z.to_nat n)) as (_ & _ & Hall); [lia|].
    destruct (draw g (List.length l) (Z.to_nat n)) as [ind g1]. simpl in *.
    destruct (take_indices_returns l Hall) as (r & Hr & Hincl & _).
    rewrite Hr. simpl. exists r, g1. repeat split; auto. lia.
  - exists l, g. repeat split; auto. apply incl_refl.
Qed.

End SamplingFacts.

(** ** load_trajectory as a whole *)

Section RunFacts.

Context {G : Type} `{RandomState G}.

Variables wrist static : Z.
Variable rss : bool.

Lemma open_stores_file (file : H5File) (rc : bool)
      (folder : option (string * Folder)) (kw : camera_kwargs_t)
      tr (cr : option RecordedMultiCameraWrapper.t) :
  open_stores file rc folder kw = Ok (tr, cr) ->
  TrajectoryReader._hdf5_file tr = file
  /\ TrajectoryReader.length tr = match get_hdf5_length (root file) [] with
                                  | Ok r => r
                                  | Raise _ => None
                                  end.
Proof.
  unfold open_stores, TrajectoryReader.__init__. intros E.
  inv_bind E. inv_bind Ha. inversion Ha; subst.
  skip_bind E. inversion E; subst. simpl. rewrite Ha0. auto.
Qed.

(** There is a camera reader exactly when cameras are to be read from a
    recording folder. *)
Lemma open_stores_cameras (file : H5File) (rc : bool)
      (folder : option (string * Folder)) (kw : camera_kwargs_t)
      tr (cr : option RecordedMultiCameraWrapper.t) :
  open_stores file rc folder kw = Ok (tr, cr) ->
  is_some cr = rc && is_some folder.
Proof.
  unfold open_stores. intros E. skip_bind E.
  apply bind_Ok in E. destruct E as (c & Hc & E). inversion E; subst.
  destruct folder as [[path d]|]; [|inversion Hc; subst; destruct rc; auto].
  destruct rc; [|inversion Hc; reflexivity].
  apply bind_Ok in Hc. destruct Hc as (c' & _ & Hc).
  inversion Hc; reflexivity.
Qed.

(** The call, from the results of its five stages. *)
Lemma load_trajectory_run (g g1 g2 : G) (file : H5File) (rc : bool)
      (folder : option (string * Folder)) (kw : camera_kwargs_t)
      (num : option Z) (coeff : float)
      tr0 (cr0 : option RecordedMultiCameraWrapper.t)
      idxs acc ex tr1 cr1 kept label :
  open_stores file rc folder kw = Ok (tr0, cr0) ->
  choose_indices rss g (TrajectoryReader.length tr0) num coeff
  = Ok (idxs, g1) ->
  iterate wrist static rss idxs tr0 cr0 [] = Ok (acc, ex, tr1, cr1) ->
  remove_extra g1 acc num = Ok (kept, g2) ->
  dict_get (attrs file) "current_task" = Some label ->
  load_trajectory wrist static rss g file rc folder kw num coeff
  = Ok (mkOutput kept label ex (TrajectoryReader.close tr1) cr1 g2).
Proof.
  intros Ho Hc Hi Hr Hl. unfold load_trajectory.
  rewrite Ho. simpl. rewrite Hc. simpl. rewrite Hi. simpl.
  rewrite Hr. simpl.
  destruct (iterate_states wrist static rss (fun _ => True)
              (fun _ _ _ _ _ _ _ _ => I) _ _ _ _ Hi) as (Hf & _).
  apply open_stores_file in Ho. destruct Ho as (Hfile & _).
  unfold TrajectoryReader.get_target_label, dict_item.
  rewrite Hf, Hfile, Hl. reflexivity.
Qed.

(** The stages of a call that returns. *)
Lemma load_trajectory_inv (g : G) (file : H5File) (rc : bool)
      (folder : option (string * Folder)) (kw : camera_kwargs_t)
      (num : option Z) (coeff : float) (out : Output) :
  load_trajectory wrist static rss g file rc folder kw num coeff = Ok out ->
  exists tr0 cr0 idxs g1 acc tr1,
    open_stores file rc folder kw = Ok (tr0, cr0)
    /\ choose_indices rss g (TrajectoryReader.length tr0) num coeff
       = Ok (idxs, g1)
    /\ iterate wrist static rss idxs tr0 cr0 []
       = Ok (acc, loop_exit_of out, tr1, camera_reader_of out)
    /\ remove_extra g1 acc num = Ok (timestep_list out, generator_of out)
    /\ traj_reader_of out = TrajectoryReader.close tr1.
Proof.
  intros E. unfold load_trajectory in E.
  apply bind_Ok in E. destruct E as ([tr0 cr0] & Ho & E). simpl in E.
  apply bind_Ok in E. destruct E as ([idxs g1] & Hc & E). simpl in E.
  apply bind_Ok in E.
  destruct E as ([[[acc ex] tr1] cr1] & Hi & E). simpl in E.
  apply bind_Ok in E. destruct E as ([kept g2] & Hr & E). simpl in E.
  apply bind_Ok in E. destruct E as (label & Hl & E).
  inversion E; subst. simpl.
  exists tr0, cr0, idxs, g1, acc, tr1. auto.
Qed.

(** The label of a call that returns is the [current_task] attribute
    of the log. *)
Lemma load_trajectory_label (g : G) (file : H5File) (rc : bool)
      (folder : option (string * Folder)) (kw : camera_kwargs_t)
      (num : option Z) (coeff : float) (out : Output) :
  load_trajectory wrist static rss g file rc folder kw num coeff = Ok out ->
  dict_get (attrs file) "current_task" = Some (target_label out).
Proof.
  intros E. unfold load_trajectory in E.
  apply bind_Ok in E. destruct E as ([tr0 cr0] & Ho & E). simpl in E.
  apply bind_Ok in E. destruct E as ([idxs g1] & Hc & E). simpl in E.
  apply bind_Ok in E.
  destruct E as ([[[acc ex] tr1] cr1] & Hi & E). simpl in E.
  apply bind_Ok in E. destruct E as ([kept g2] & Hr & E). simpl in E.
  apply bind_Ok in E. destruct E as (label & Hl & E).
  inversion E; subst. simpl.
  destruct (iterate_states wrist static rss (fun _ => True)
              (fun _ _ _ _ _ _ _ _ => I) _ _ _ _ Hi) as (Hf & _).
  apply open_stores_file in Ho. destruct Ho as (Hfile & _).
  unfold TrajectoryReader.get_target_label, dict_item in Hl.
  rewrite Hf, Hfile in Hl.
  destruct (dict_get (attrs file) "current_task"); [|discriminate].
  inversion Hl; reflexivity.
Qed.

(** Whatever the call returns, it has closed the log; and the camera
    reader it returns is the one it opened, moved only by
    [read_cameras]. *)
Lemma load_trajectory_stores (P : RecordedMultiCameraWrapper.t -> Prop)
      (g : G) (file : H5File)
      (rc : bool) (folder : option (string * Folder))
      (kw : camera_kwargs_t) (num : option Z) (coeff : float)
      (out : Output) :
  (forall path d c,
      RecordedMultiCameraWrapper.__init__ path d kw = Ok c -> P c) ->
  (forall c index ctd tsd o c',
      P c ->
      RecordedMultiCameraWrapper.read_cameras c index ctd tsd = Ok (o, c') ->
      P c') ->
  load_trajectory wrist static rss g file rc folder kw num coeff = Ok out ->
  is_open (TrajectoryReader._hdf5_file (traj_reader_of out)) = false
  /\ (forall c, camera_reader_of out = Some c -> P c)
  /\ (rc = true -> folder <> None -> camera_reader_of out <> None).
Proof.
  intros Hopen Hread E. apply load_trajectory_inv in E.
  destruct E as (tr0 & cr0 & idxs & g1 & acc & tr1 & Ho & _ & Hi & _ & Htr).
  destruct (iterate_states wrist static rss P Hread _ _ _ _ Hi)
    as (_ & HP & Hn).
  rewrite Htr. split; [reflexivity|].
  pose proof (open_stores_cameras _ _ _ _ Ho) as Hcam.
  unfold open_stores in Ho. skip_bind Ho.
  apply bind_Ok in Ho. destruct Ho as (cr & Hcr & Ho).
  inversion Ho; subst. split.
  - apply HP. intros c ->.
    destruct folder as [[path d]|]; [|discriminate].
    destruct rc; [|discriminate].
    apply bind_Ok in Hcr. destruct Hcr as (c' & Hc' & Hcr).
    inversion Hcr; subst. eapply Hopen; eauto.
  - intros -> Hfolder Hnone. rewrite Hnone in Hn. simpl in Hn.
    rewrite Hcam in Hn. destruct folder; [discriminate | congruence].
Qed.

End RunFacts.

(** ** Who releases the decoders *)

Lemma dict_set_Forall {V} (Q : V -> Prop) (d : dict V) (k : string) (v : V) :
  Forall (fun kv => Q (snd kv)) d -> Q v ->
  Forall (fun kv => Q (snd kv)) (dict_set d k v).
Proof.
  induction 1 as [|[k' v'] d Hv Hd IH]; intros Hq; simpl.
  - constructor; auto.
  - destruct (String.eqb k' k); constructor; auto.
Qed.

Lemma dict_item_Forall {V} (Q : V -> Prop) (d : dict V) (k : string) (v : V) :
  Forall (fun kv => Q (snd kv)) d -> dict_item d k = Ok v -> Q v.
Proof.
  unfold dict_item. induction 1 as [|[k' v'] d Hv _ IH]; simpl;
    [discriminate|].
  destruct (String.eqb k' k); [|exact IH].
  intros E; inversion E; subst. exact Hv.
Qed.

Lemma read_camera_opened (r r' : MP4Reader.t) (ignore : bool)
      (o : option MP4Reader.data_dict) :
  MP4Reader.read_camera r ignore = Ok (o, r') ->
  cv2.opened (MP4Reader._mp4_reader r') = cv2.opened (MP4Reader._mp4_reader r).
Proof.
  unfold MP4Reader.read_camera, MP4Reader.get_skip_reading, cv2.read.
  destruct (MP4Reader.skip_reading r) as [[|]|]; simpl; try discriminate.
  - intros E; inversion E; subst. reflexivity.
  - destruct (cv2.opened (MP4Reader._mp4_reader r)) eqn:Ho;
      [destruct (nth_error _ _)|]; simpl; try discriminate.
    destruct ignore; intros E; inversion E; subst; simpl; reflexivity.
Qed.

Lemma advance_opened (n : nat) :
  forall (r r' : MP4Reader.t) (i : Z),
    MP4Reader.advance n r i = Ok r' ->
    cv2.opened (MP4Reader._mp4_reader r')
    = cv2.opened (MP4Reader._mp4_reader r).
Proof.
  induction n as [|n IH]; intros r r' i; simpl;
    destruct (MP4Reader._index r <? i)%Z;
    try (intros E; inversion E; subst; reflexivity).
  intros E. apply bind_Ok in E. destruct E as ([o r1] & Hr & E). simpl in E.
  apply IH in E. apply read_camera_opened in Hr. congruence.
Qed.

Lemma set_frame_index_opened (r r' : MP4Reader.t) (i : Z) :
  MP4Reader.set_frame_index r i = Ok r' ->
  cv2.opened (MP4Reader._mp4_reader r') = cv2.opened (MP4Reader._mp4_reader r).
Proof.
  unfold MP4Reader.set_frame_index. intros E. inv_bind E.
  destruct a; [inversion E; subst; reflexivity|].
  apply advance_opened in E. rewrite E.
  destruct (i <? MP4Reader._index r)%Z; reflexivity.
Qed.

Lemma last_component_no_slash (b : string) :
  forall cur, has_slash b = false -> last_component cur b = (cur ++ b)%string.
Proof.
  induction b as [|c b IH]; intros cur; simpl.
  - intros _. induction cur as [|c cur IHc]; simpl; congruence.
  - destruct (Ascii.eqb c "/"); simpl; [discriminate|].
    intros Hb. rewrite (IH (cur ++ String c EmptyString)%string Hb). clear.
    induction cur as [|c' cur IHc]; simpl; congruence.
Qed.

Lemma last_component_path (a b : string) :
  forall cur,
    has_slash b = false ->
    last_component cur (a ++ String "/" b)%string = b.
Proof.
  induction a as [|c a IH]; intros cur Hb; simpl.
  - apply (@last_component_no_slash b EmptyString Hb).
  - destruct (Ascii.eqb c "/"); apply IH; exact Hb.
Qed.

Lemma has_slash_neq (s suffix : string) :
  has_slash s = true -> has_slash suffix = false ->
  String.eqb s suffix = false.
Proof.
  intros Hs Hsuf. apply String.eqb_neq. intros ->. congruence.
Qed.

Lemma endswith_path (a b suffix : string) :
  has_slash suffix = false ->
  endswith (a ++ String "/" b)%string suffix = endswith b suffix.
Proof.
  intros Hsuf. induction a as [|c a IH].
  - change (EmptyString ++ String "/" b)%string with (String "/" b).
    rewrite endswith_cons, has_slash_neq; auto.
  - change (String c a ++ String "/" b)%string
      with (String c (a ++ String "/" b)).
    rewrite endswith_cons, has_slash_neq; auto.
    simpl. apply orb_true_iff. right.
    clear. induction a as [|c a IH]; simpl; [reflexivity|].
    rewrite IH. apply orb_true_r.
Qed.

Lemma open_readers_cameras (folder : string) (d : Directory) :
  Forall (fun e => has_slash (entry_name e) = false) d ->
  (forall e, In e d -> is_mp4_name (entry_name e) = true ->
             entry_video e <> None) ->
  forall cd : dict MP4Reader.t,
    RecordedMultiCameraWrapper.open_readers (glob1 folder d) cd
    = Ok (fold_left
            (fun cd e => dict_set cd (drop_last4 (entry_name e))
                                  (fresh_reader e))
            (filter (fun e => is_mp4_name (entry_name e)) d) cd).
Proof.
  induction 1 as [|e d He _ IH]; intros Hopen cd; [reflexivity|].
  unfold glob1 in *. simpl.
  fold (is_mp4_name (entry_name e)).
  destruct (is_mp4_name (entry_name e)) eqn:Hm.
  - simpl.
    rewrite (@last_component_path folder (entry_name e) EmptyString He).
    rewrite (@endswith_path folder (entry_name e) "_depth.mp4" eq_refl).
    rewrite (@endswith_path folder (entry_name e) ".mp4" eq_refl).
    assert (Hv : entry_video e <> None) by (apply Hopen; simpl; auto).
    assert (Hmp4 : endswith (entry_name e) ".mp4" = true).
    { unfold is_mp4_name in Hm. apply andb_true_iff in Hm. tauto. }
    rewrite Hmp4. unfold fresh_reader, MP4Reader.__init__.
    destruct (entry_video e) as [fs|]; [|congruence].
    destruct (endswith (entry_name e) "_depth.mp4"); simpl;
      apply IH; intros e' He'; apply Hopen; simpl; auto.
  - apply IH. intros e' He'; apply Hopen; simpl; auto.
Qed.

Lemma endswith_length (s suffix : string) :
  endswith s suffix = true -> String.length suffix <= String.length s.
Proof.
  induction s as [|c s IH].
  - simpl. destruct suffix; simpl; [lia | discriminate].
  - rewrite endswith_cons.
    destruct (String.eqb_spec (String c s) suffix) as [<-|_]; [lia|].
    intros H. apply IH in H. simpl. lia.
Qed.

(** A name that ends in [.mp4] is its first part followed by [.mp4]. *)
Lemma drop_last4_mp4 (s : string) :
  endswith s ".mp4" = true -> s = (drop_last4 s ++ ".mp4")%string.
Proof.
  induction s as [|c s IH]; [simpl; discriminate|].
  rewrite endswith_cons.
  destruct (String.eqb_spec (String c s) ".mp4") as [E|_].
  - intros _. rewrite E. reflexivity.
  - intros H. pose proof (@endswith_length s ".mp4" H) as Hlen.
    simpl in Hlen.
    unfold drop_last4 in *. simpl String.length.
    replace (S (String.length s) - 4) with (S (String.length s - 4)) by lia.
    simpl. f_equal. apply IH. exact H.
Qed.

Lemma dict_set_fresh {V} (d : dict V) (k : string) (v : V) :
  ~ In k (dict_keys d) -> dict_set d k v = d ++ [(k, v)].
Proof.
  induction d as [|[k' v'] d IH]; simpl; intros Hk; [reflexivity|].
  destruct (String.eqb_spec k' k) as [->|_]; [tauto|].
  f_equal. apply IH. tauto.
Qed.

Lemma fold_dict_set_fresh {A V} (key : A -> string) (val : A -> V)
      (l : list A) :
  forall acc : dict V,
    NoDup (dict_keys acc ++ map key l) ->
    fold_left (fun cd a => dict_set cd (key a) (val a)) l acc
    = acc ++ map (fun a => (key a, val a)) l.
Proof.
  induction l as [|a l IH]; intros acc Hnd; simpl.
  - rewrite app_nil_r. reflexivity.
  - assert (Ha : ~ In (key a) (dict_keys acc)).
    { intros Hin. apply NoDup_remove_2 in Hnd. apply Hnd.
      apply in_or_app. auto. }
    rewrite (@dict_set_fresh V acc (key a) (val a) Ha), IH.
    + rewrite <- app_assoc. reflexivity.
    + unfold dict_keys in *. rewrite map_app. simpl.
      rewrite <- app_assoc. exact Hnd.
Qed.

Lemma serials_NoDup (d : Directory) :
  NoDup (map entry_name d) ->
  NoDup (map (fun e => drop_last4 (entry_name e))
             (filter (fun e => is_mp4_name (entry_name e)) d)).
Proof.
  induction d as [|e d IH]; simpl; intros Hnd; [constructor|].
  inversion Hnd as [|? ? Hnotin Hnd']; subst.
  destruct (is_mp4_name (entry_name e)) eqn:Hm; [|auto].
  simpl. constructor; [|auto].
  intros Hin. apply in_map_iff in Hin. destruct Hin as (e' & Heq & He').
  apply filter_In in He'. destruct He' as (He' & Hm').
  apply Hnotin. apply in_map_iff. exists e'. split; [|exact He'].
  unfold is_mp4_name in Hm, Hm'.
  apply andb_true_iff in Hm. apply andb_true_iff in Hm'.
  rewrite (@drop_last4_mp4 (entry_name e')) by tauto.
  rewrite (@drop_last4_mp4 (entry_name e)) by tauto.
  congruence.
Qed.

Lemma open_readers_unreleased (fs : list (string * option (list (list Z)))) :
  forall cd cd' : dict MP4Reader.t,
    Forall (fun kv => cv2.opened (MP4Reader._mp4_reader (snd kv)) = true) cd ->
    RecordedMultiCameraWrapper.open_readers fs cd = Ok cd' ->
    Forall (fun kv => cv2.opened (MP4Reader._mp4_reader (snd kv)) = true) cd'.
Proof.
  assert (Hinit : forall content serial gray r,
             MP4Reader.__init__ content serial gray = Ok r ->
             cv2.opened (MP4Reader._mp4_reader r) = true).
  { intros [frames|] serial gray r; unfold MP4Reader.__init__; simpl;
      [|discriminate].
    intros E; inversion E; subst. reflexivity. }
  induction fs as [|[f content] fs IH]; intros cd cd' Hcd; simpl.
  - intros E; inversion E; subst. exact Hcd.
  - destruct (endswith f "_depth.mp4"); [|destruct (endswith f ".mp4")];
      try discriminate;
      (intros E; inv_bind E; apply IH in E; [exact E|];
       apply (dict_set_Forall
                (fun r => cv2.opened (MP4Reader._mp4_reader r) = true));
       [exact Hcd | eapply Hinit; eauto]).
Qed.

Lemma init_all_unreleased (folder : string) (d : Folder)
      (kw : camera_kwargs_t) (w : RecordedMultiCameraWrapper.t) :
  RecordedMultiCameraWrapper.__init__ folder d kw = Ok w -> all_unreleased w.
Proof.
  unfold RecordedMultiCameraWrapper.__init__, all_unreleased. simpl.
  intros E. inv_bind E. inversion E; subst. simpl.
  eapply open_readers_unreleased; [|exact Ha]. constructor.
Qed.

Lemma read_one_all_unreleased (cam_id : string)
      (self self' : RecordedMultiCameraWrapper.t) (index : option Z)
      (ctd : dict string) (ts : pyval) (o : option MP4Reader.data_dict) :
  all_unreleased self ->
  RecordedMultiCameraWrapper.read_one cam_id self index ctd ts
  = Ok (o, self') ->
  all_unreleased self'.
Proof.
  unfold RecordedMultiCameraWrapper.read_one, all_unreleased.
  intros Hall E. skip_bind E.
  apply bind_Ok in E. destruct E as (cam & Hcam & E).
  skip_bind E.
  apply bind_Ok in E. destruct E as (cam1 & Hcam1 & E).
  apply bind_Ok in E. destruct E as ([data cam2] & Hcam2 & E).
  simpl in E. inversion E; subst. simpl.
  apply (dict_set_Forall
           (fun r => cv2.opened (MP4Reader._mp4_reader r) = true));
    [exact Hall|].
  apply read_camera_opened in Hcam2. rewrite Hcam2.
  assert (Hc : cv2.opened (MP4Reader._mp4_reader cam) = true).
  { eapply (dict_item_Forall
              (fun r => cv2.opened (MP4Reader._mp4_reader r) = true));
      eauto. }
  destruct index as [i|].
  - apply set_frame_index_opened in Hcam1. rewrite Hcam1. exact Hc.
  - inversion Hcam1; subst. exact Hc.
Qed.

Lemma read_cameras_all_unreleased
      (self self' : RecordedMultiCameraWrapper.t) (index : option Z)
      (ctd : dict string) (ts : pyval) (o : option (dict (dict Image))) :
  all_unreleased self ->
  RecordedMultiCameraWrapper.read_cameras self index ctd ts = Ok (o, self') ->
  all_unreleased self'.
Proof.
  unfold RecordedMultiCameraWrapper.read_cameras.
  generalize (dict_keys (RecordedMultiCameraWrapper.camera_dict self)).
  generalize (@nil (string * dict Image)).
  intros acc ids. revert self acc.
  induction ids as [|a ids IH]; intros self acc Hall; simpl.
  - intros E; inversion E; subst. exact Hall.
  - intros E. apply bind_Ok in E. destruct E as ([data self1] & Hone & E).
    simpl in E. apply read_one_all_unreleased in Hone; [|exact Hall].
    destruct data as [data|].
    + eapply IH; eauto.
    + inversion E; subst. exact Hone.
Qed.

(** ** The encoder *)

Lemma make_step_flags (b : builder) (label : string) (n i : nat)
      (step : pyval) (s : Step) :
  make_step b label n i step = Ok s ->
  discount s = 1%float
  /\ reward s = float_of_bool (Z.of_nat i =? Z.of_nat n - 1)%Z
  /\ is_first s = Nat.eqb i 0
  /\ is_last s = (Z.of_nat i =? Z.of_nat n - 1)%Z
  /\ is_terminal s = (Z.of_nat i =? Z.of_nat n - 1)%Z.
Proof.
  unfold make_step. intros E.
  repeat (cbv zeta in E; skip_bind E).
  cbv zeta in E. inversion E; subst. simpl. auto.
Qed.

Lemma enumerate_steps_flags (b : builder) (label : string) (n : nat)
      (data : list pyval) :
  forall (i : nat) (episode : list Step),
    enumerate_steps b label n i data = Ok episode ->
    List.length episode = List.length data
    /\ forall j s, nth_error episode j = Some s ->
         discount s = 1%float
         /\ reward s = float_of_bool (Z.of_nat (i + j) =? Z.of_nat n - 1)%Z
         /\ is_first s = Nat.eqb (i + j) 0
         /\ is_last s = (Z.of_nat (i + j) =? Z.of_nat n - 1)%Z
         /\ is_terminal s = (Z.of_nat (i + j) =? Z.of_nat n - 1)%Z.
Proof.
  induction data as [|step data IH]; intros i episode; simpl.
  - intros E; inversion E; subst. split; [reflexivity|].
    intros [|j] s; discriminate.
  - intros E. apply bind_Ok in E. destruct E as (s0 & Hs0 & E).
    apply bind_Ok in E. destruct E as (rest & Hrest & E).
    inversion E; subst. apply IH in Hrest. destruct Hrest as (Hlen & Hflags).
    split; [simpl; congruence|].
    intros [|j] s; simpl.
    + intros Es; inversion Es; subst. rewrite Nat.add_0_r.
      apply make_step_flags in Hs0. exact Hs0.
    + intros Es. apply Hflags in Es.
      replace (i + S j) with (S i + j) by lia. exact Es.
Qed.

Lemma resize_all_length (first : pyval) (data : list pyval) :
  forall r, resize_all first data = Ok r -> List.length r = List.length data.
Proof.
  induction data as [|t data IH]; intros r; simpl.
  - intros E; inversion E; reflexivity.
  - intros E. do 4 skip_bind E.
    apply bind_Ok in E. destruct E as (rest & Hrest & E).
    inversion E; subst. simpl. f_equal. apply IH. exact Hrest.
Qed.

Lemma resize_images_length (data r : list pyval) :
  resize_images data = Ok r -> List.length r = List.length data.
Proof.
  unfold resize_images. destruct data as [|first data].
  - intros E; inversion E; reflexivity.
  - apply resize_all_length.
Qed.

(** A backward seek positions the decoder on frame [i - 1] and sets
    [_index] to [i]: the read that follows returns frame [i - 1]. *)
Lemma backward_seek_then_read (r : MP4Reader.t) (i : Z) (px : list Z) :
  in_sync r ->
  (1 <= i < MP4Reader._index r)%Z ->
  nth_error (cv2.frames (MP4Reader._mp4_reader r)) (Z.to_nat (i - 1)) = Some px ->
  exists r', seek_then_read r i = Ok (image_answer r px, r').
Proof.
  intros (Hs & Ho & H0 & Hp) Hi Hpx.
  assert (Hlen : Z.to_nat (i - 1)
                 < List.length (cv2.frames (MP4Reader._mp4_reader r))).
  { apply nth_error_Some. congruence. }
  unfold seek_then_read, MP4Reader.set_frame_index, MP4Reader.get_skip_reading.
  rewrite Hs. simpl.
  destruct (Z.ltb_spec i (MP4Reader._index r)) as [_|Hge]; [|lia].
  simpl. rewrite Z.sub_diag. simpl. rewrite Z.ltb_irrefl. simpl.
  unfold MP4Reader.read_camera, MP4Reader.get_skip_reading, cv2.read. simpl.
  rewrite ?Hs, ?Ho. simpl.
  replace (Z.to_nat (Z.min (Z.max 0 (i - 1))
             (Z.of_nat (List.length (cv2.frames (MP4Reader._mp4_reader r))))))
    with (Z.to_nat (i - 1)) by lia.
  rewrite Hpx. simpl. eexists. reflexivity.
Qed.

(** * The claims *)

(** C1 (code defect).  The claim: when the post-pass subsampling
    triggers, the kept timesteps are still in ascending order of their
    original indices.  The code: [timestep_list[ind_to_keep]] keeps them
    in the order [np.random.choice] drew [ind_to_keep], which is not
    sorted (the first draw is, by [np.sort]).  On the three-step log, with
    [num_samples_per_traj = 2], step filtering on and the second draw
    [2, 1], the call returns the timestep of index 2, then that of
    index 1. *)
Theorem C1_post_pass_keeps_the_order_drawn :
  exists out t1 t2,
    load_trajectory 1 2 true Descending log3 false None [] (Some 2%Z) default_coeff = Ok out
    /\ load_hdf5_to_dict (root log3) 1 ["videos"] = Ok t1
    /\ load_hdf5_to_dict (root log3) 2 ["videos"] = Ok t2
    /\ timestep_list out = [t2; t1]
    /\ t1 <> t2.
Proof.
  do 3 eexists.
  split; [vm_compute; reflexivity|].
  split; [vm_compute; reflexivity|].
  split; [vm_compute; reflexivity|].
  split; [reflexivity | discriminate].
Qed.

(** C2 (code defect).  The claim: [set_frame_index(i)] followed by
    [read_camera()] returns frame [i], as sequential reading from frame 0
    does, after a backward seek too.  The code: the backward seek sets the
    decoder to frame [i - 1] and [_index] to [i], so the next read returns
    frame [i - 1].  On a three-frame video read to its end, seeking back
    to 1 and reading returns frame 0; the second of two sequential reads
    returns frame 1. *)
Theorem C2_backward_seek_returns_the_frame_before :
  exists r0 r3 o r' r1,
    configured three_frames "1" false = Ok r0
    /\ read_times 2 r0 = Ok (o, r3)
    /\ seek_then_read r3 1 = Ok (image_answer r0 [0%Z], r')
    /\ read_times 1 r0 = Ok (image_answer r0 [1%Z], r1).
Proof.
  do 5 eexists.
  split; [vm_compute; reflexivity|].
  split; [vm_compute; reflexivity|].
  split; vm_compute; reflexivity.
Qed.

(** C4 (code defect).  The claim: [read_camera] with decoding enabled, on
    an exhausted stream, returns [None] and does not raise.  The code:
    [cv2.cvtColor] is applied to the frame before [success] is tested, and
    it raises [cv2.error] on the empty frame of a failed read.  On a
    one-frame video the second read raises. *)
Theorem C4_read_at_end_of_stream_raises :
  exists r0 o r1,
    configured (Some [[0%Z]]) "1" false = Ok r0
    /\ MP4Reader.read_camera r0 false = Ok (o, r1)
    /\ MP4Reader.read_camera r1 false = Raise cv2_error.
Proof.
  do 3 eexists.
  split; [vm_compute; reflexivity|].
  split; vm_compute; reflexivity.
Qed.

(** C7 (code defect).  The claim: when all data series of the log have
    the same length [L], construction computes [L].  The code: a group
    with no data series yields [None], which the running length absorbs
    only while it is still [None]; the same group after a data series
    fails the assertion.  The log with one series of three rows followed
    by an empty group is refused, and accepted with the two in the other
    order. *)
Theorem C7_empty_group_after_a_series_is_refused :
  leaf_lengths [] (Group log_with_empty_group) = [3]
  /\ get_hdf5_length log_with_empty_group [] = Raise AssertionError
  /\ TrajectoryReader.__init__ (mkFile log_with_empty_group [] true) false
     = Raise AssertionError
  /\ get_hdf5_length (rev log_with_empty_group) [] = Ok (Some 3).
Proof. repeat split; vm_compute; reflexivity. Qed.

(** C3.  The assembly loop never sees a camera failure.  When a video
    of the recording ends before the log does, [read_cameras] raises
    [cv2.error] where it was to answer [None] (C4), and the error leaves
    [load_trajectory]: on a three-step log with a two-frame video the
    visits of indices 0 and 1 save their timesteps, the visit of index 2
    raises, and the call returns nothing, where the claim has it return
    the two timesteps collected. *)
Theorem C3_camera_failure_loses_the_episode :
  exists tr0 cr0 collected tr1 cr1,
    open_stores log3 true (Some ("rec", recording2)) [] = Ok (tr0, cr0)
    /\ iterate 1 2 false [0; 1] tr0 cr0 []
       = Ok (collected, Exhausted, tr1, cr1)
    /\ List.length collected = 2
    /\ visit 1 2 false 2 tr1 cr1 = Raise cv2_error
    /\ load_trajectory 1 2 false Descending log3 true
         (Some ("rec", recording2)) [] None default_coeff
       = Raise cv2_error.
Proof.
  do 5 eexists.
  split; [vm_compute; reflexivity|].
  split; [vm_compute; reflexivity|].
  split; [reflexivity|].
  split; vm_compute; reflexivity.
Qed.

(** The [break] of the loop is dead code: a call that returns ran its
    loop to the end. *)
Lemma load_trajectory_never_breaks {G : Type} `{RandomState G}
      (wrist static : Z) (rss : bool) (g : G) (file : H5File) (rc : bool)
      (folder : option (string * Folder)) (kw : camera_kwargs_t)
      (num : option Z) (coeff : float) (out : Output) :
  load_trajectory wrist static rss g file rc folder kw num coeff = Ok out ->
  loop_exit_of out = Exhausted.
Proof.
  intros E. apply load_trajectory_inv in E.
  destruct E as (tr0 & cr0 & idxs & g1 & acc & tr1 & _ & _ & Hi & _).
  eapply iterate_never_breaks; eauto.
Qed.

(** C5.  For a trajectory of length [L], a count [0 < N < L], step
    filtering off, and a loop over the drawn indices in which every read
    succeeds, [load_trajectory] returns exactly [N] timesteps: those of
    the [N] indices drawn, which are distinct, below [L] and taken in
    strictly ascending order; the timestep at each position is the row
    of the log at the index of that position (with the camera data of
    the visit, when cameras are read). *)
Theorem C5_subsample_is_N_ascending_indices
        {G : Type} `{RandomState G}
        (wrist static : Z) (g : G) (file : H5File)
        (rc : bool) (folder : option (string * Folder))
        (kw : camera_kwargs_t) (N : Z) (coeff : float) (L : nat)
        (tr0 tr1 : TrajectoryReader.t)
        (cr0 cr1 : option RecordedMultiCameraWrapper.t)
        (acc : list pyval) (ex : loop_exit) (label : string) :
  fair ->
  (0 < N < Z.of_nat L)%Z ->
  open_stores file rc folder kw = Ok (tr0, cr0) ->
  TrajectoryReader.length tr0 = Some L ->
  iterate wrist static false (np_sort (fst (draw g L (Z.to_nat N)))) tr0 cr0 []
  = Ok (acc, ex, tr1, cr1) ->
  dict_get (attrs file) "current_task" = Some label ->
  exists out idxs,
    load_trajectory wrist static false g file rc folder kw (Some N) coeff
    = Ok out
    /\ idxs = np_sort (fst (draw g L (Z.to_nat N)))
    /\ List.length (timestep_list out) = Z.to_nat N
    /\ List.length idxs = Z.to_nat N
    /\ StronglySorted lt idxs
    /\ NoDup idxs
    /\ Forall (fun i => i < L) idxs
    /\ Forall2 (saved_at file wrist static (rc && is_some folder))
               idxs (timestep_list out).
Proof.
  intros Hfair HN Hopen HL Hloop Hlabel.
  destruct (choose_indices_count Hfair g L coeff (N := N))
    as (idxs & g1 & Hchoose & Hidxs & Hlen); [lia|].
  subst idxs.
  pose proof (iterate_all_saved wrist static _ _ _ Hloop) as Hsaved.
  pose proof (Forall2_length Hsaved) as Hlen2.
  destruct (remove_extra_returns Hfair g1 acc (num := Some N))
    as (kept & g2 & Hkept & _ & Hall).
  { intros n E; inversion E; subst; lia. }
  assert (kept = acc) by (apply Hall; lia). subst kept.
  destruct (choose_indices_ascending Hfair _ _ _ _ _ Hchoose) as (Hs & Hr).
  exists (mkOutput acc label ex (TrajectoryReader.close tr1) cr1 g2),
    (np_sort (fst (draw g L (Z.to_nat N)))).
  split.
  { eapply load_trajectory_run; eauto. rewrite HL. exact Hchoose. }
  rewrite <- (open_stores_cameras _ _ _ _ Hopen).
  destruct (open_stores_file _ _ _ _ Hopen) as (Hfile & _).
  rewrite Hfile in Hsaved.
  simpl. repeat split; auto; try congruence.
  clear - Hs. induction Hs as [|a l _ IH Ha]; constructor; auto.
  intros Hin. rewrite Forall_forall in Ha. apply Ha in Hin. lia.
Qed.

Lemma C5_witness :
  exists out row1 row2,
    load_trajectory 1 2 false Descending log3 true (Some ("rec", recording3))
      [] (Some 2%Z) default_coeff = Ok out
    /\ List.length (timestep_list out) = 2
    /\ log_row log3 1 = Ok row1
    /\ log_row log3 2 = Ok row2
    /\ row1 <> row2
    /\ Forall2 (saved_at log3 1 2 true) [1; 2] (timestep_list out).
Proof.
  pose (cr0 := match RecordedMultiCameraWrapper.__init__ "rec" recording3 []
               with
               | Ok w => Some w
               | Raise _ => None
               end).
  pose (run := iterate 1 2 false [1; 2]
                 (TrajectoryReader.mk log3 false (Some 3) 0) cr0 []).
  destruct (@C5_subsample_is_N_ascending_indices
              descending _ 1 2 Descending
              log3 true (Some ("rec", recording3)) [] 2%Z default_coeff 3
              (TrajectoryReader.mk log3 false (Some 3) 0)
              (TrajectoryReader.mk log3 false (Some 3) 3)
              cr0
              (match run with
               | Ok (_, _, _, c) => c
               | Raise _ => None
               end)
              (match run with
               | Ok (a, _, _, _) => a
               | Raise _ => []
               end)
              Exhausted "red cube")
    as (out & idxs & Hout & Hidxs & Hlen & _ & _ & _ & _ & Hsaved).
  - exact descending_fair.
  - lia.
  - vm_compute; reflexivity.
  - reflexivity.
  - vm_compute; reflexivity.
  - vm_compute; reflexivity.
  - vm_compute in Hidxs. subst idxs.
    exists out. do 2 eexists.
    split; [exact Hout|]. split; [exact Hlen|].
    split; [vm_compute; reflexivity|].
    split; [vm_compute; reflexivity|].
    split; [|exact Hsaved].
    intros E.
    apply (f_equal
             (fun v =>
                match item v "action" with
                | Ok a =>
                    match item a "gripper_position" with
                    | Ok (VElem (EFloat x)) => PrimFloat.eqb x 1
                    | _ => false
                    end
                | Raise _ => false
                end)) in E.
    vm_compute in E. discriminate.
Defined.

(** C6.  For a non-empty episode of [n] timesteps that the encoder
    accepts, the emitted episode has [n] steps; [reward] is 1.0 and
    [is_last], [is_terminal] are true on step [n - 1] and only there
    (0.0 and false elsewhere); [is_first] is true on step 0 and only
    there; [discount] is 1.0 on every step. *)
Theorem C6_step_flags (b : builder) (traj : list pyval) (label : string)
        (episode : list Step) :
  traj <> [] ->
  encode_episode b traj label = Ok episode ->
  List.length episode = List.length traj
  /\ forall (i : nat) (s : Step),
       nth_error episode i = Some s ->
       reward s = (if Nat.eqb i (List.length traj - 1)
                   then 1%float else 0%float)
       /\ is_last s = Nat.eqb i (List.length traj - 1)
       /\ is_terminal s = Nat.eqb i (List.length traj - 1)
       /\ is_first s = Nat.eqb i 0
       /\ discount s = 1%float.
Proof.
  intros Hne E. unfold encode_episode in E. skip_bind E.
  apply bind_Ok in E. destruct E as (data & Hdata & E).
  apply resize_images_length in Hdata.
  apply enumerate_steps_flags in E. destruct E as (Hlen & Hflags).
  split; [congruence|].
  intros i s Hs. destruct (Hflags i s Hs) as (Hd & Hr & Hf & Hl & Ht).
  simpl in *. rewrite Hdata in *.
  assert (Hpos : List.length traj <> 0) by (destruct traj; simpl; congruence).
  assert (Hb : (Z.of_nat i =? Z.of_nat (List.length traj) - 1)%Z
               = Nat.eqb i (List.length traj - 1)).
  { destruct (Z.eqb_spec (Z.of_nat i) (Z.of_nat (List.length traj) - 1));
      destruct (Nat.eqb_spec i (List.length traj - 1)); auto; lia. }
  rewrite Hb in *. unfold float_of_bool in Hr. auto.
Qed.

Lemma C6_witness :
  exists out episode s0 s1 s2,
    load_trajectory 1 2 false Descending log3 true (Some ("ep/recordings/MP4", recording3))
      [] None default_coeff = Ok out
    /\ encode_episode PPGM (timestep_list out) (target_label out) = Ok episode
    /\ episode = [s0; s1; s2]
    /\ (reward s0, reward s1, reward s2) = (0%float, 0%float, 1%float)
    /\ (is_last s0, is_last s1, is_last s2) = (false, false, true)
    /\ (is_first s0, is_first s1, is_first s2) = (true, false, false)
    /\ language_instruction s2 = "pick red cube"
    /\ _parse_example PPGM Descending 1 2 "ep" log3 recording3
       = Ok ("ep", mkSample episode "ep/trajectory.h5" "ep/recordings/MP4").
Proof.
  do 5 eexists.
  split; [vm_compute; reflexivity|].
  split; [vm_compute; reflexivity|].
  split; [reflexivity|].
  match goal with
  | |- (reward ?a, reward ?b, reward ?c) = _ /\ _ =>
      destruct (@C6_step_flags PPGM
                  (match load_trajectory 1 2 false Descending log3 true
                           (Some ("ep/recordings/MP4", recording3))
                           [] None default_coeff with
                   | Ok o => timestep_list o
                   | Raise _ => []
                   end)
                  "red cube" [a; b; c]) as (_ & Hflags)
  end.
  - vm_compute. discriminate.
  - vm_compute; reflexivity.
  - destruct (Hflags 0 _ eq_refl) as (Hr0 & Hl0 & _ & Hf0 & _).
    destruct (Hflags 1 _ eq_refl) as (Hr1 & Hl1 & _ & Hf1 & _).
    destruct (Hflags 2 _ eq_refl) as (Hr2 & Hl2 & _ & Hf2 & _).
    rewrite Hr0, Hr1, Hr2, Hl0, Hl1, Hl2, Hf0, Hf1, Hf2.
    repeat split; vm_compute; reflexivity.
Defined.

(** Every call of [load_trajectory] that returns has closed the log (the
    [TrajectoryReader]), also when the loop was left on a camera failure.
    The camera wrapper is not closed: when a recording folder was read,
    every MP4 reader of the wrapper still holds its decoder at return. *)
Lemma load_trajectory_closes_only_the_log
      {G : Type} `{RandomState G}
      (wrist static : Z) (rss : bool) (g : G) (file : H5File)
      (rc : bool) (folder : option (string * Folder))
      (kw : camera_kwargs_t) (num : option Z) (coeff : float)
      (out : Output (G := G)) :
  load_trajectory wrist static rss g file rc folder kw num coeff = Ok out ->
  is_open (TrajectoryReader._hdf5_file (traj_reader_of out)) = false
  /\ (forall w, camera_reader_of out = Some w -> all_unreleased w)
  /\ (rc = true -> folder <> None -> camera_reader_of out <> None).
Proof.
  intros E.
  apply (load_trajectory_stores wrist static rss all_unreleased
           g file rc folder kw num coeff); [| |exact E].
  - intros path d c Hc. eapply init_all_unreleased. exact Hc.
  - intros c index ctd o c' Hc Hread.
    eapply read_cameras_all_unreleased; eauto.
Qed.

(** C8 (code defect).  The claim: every call of [load_trajectory] closes
    both stores before it returns.  The code: under its comment
    "Close Readers" it calls [traj_reader.close()] only; nothing calls
    [MP4Reader.disable_camera].  After a call that read the recording
    folder of two cameras, the log is closed and the wrapper is handed
    back with the decoder of camera [1] still open. *)
Theorem C8_camera_readers_are_left_open :
  exists out w r,
    load_trajectory 1 2 false Descending log3 true (Some ("rec", recording3))
      [] None default_coeff = Ok out
    /\ is_open (TrajectoryReader._hdf5_file (traj_reader_of out)) = false
    /\ camera_reader_of out = Some w
    /\ dict_get (RecordedMultiCameraWrapper.camera_dict w) "1" = Some r
    /\ cv2.isOpened (MP4Reader._mp4_reader r) = true.
Proof.
  do 3 eexists.
  split; [vm_compute; reflexivity|].
  split; [reflexivity|].
  split; [reflexivity|].
  split; vm_compute; reflexivity.
Qed.

Lemma open_readers_opened (fs : list (string * option (list (list Z)))) :
  forall cd cd' : dict MP4Reader.t,
    RecordedMultiCameraWrapper.open_readers fs cd = Ok cd' ->
    Forall (fun p => snd p <> None) fs.
Proof.
  induction fs as [|[f content] fs IH]; intros cd cd'; simpl;
    [constructor|].
  assert (Hinit : forall serial gray r,
             MP4Reader.__init__ content serial gray = Ok r ->
             content <> None).
  { intros serial gray r. unfold MP4Reader.__init__.
    destruct content; simpl; [discriminate | discriminate]. }
  destruct (endswith f "_depth.mp4"); [|destruct (endswith f ".mp4")];
    try discriminate;
    (intros E; apply bind_Ok in E; destruct E as (r & Hr & E);
     constructor; [simpl; eapply Hinit; eauto | eapply IH; eauto]).
Qed.

(** C9 (corrected).  For a folder path without wildcard characters,
    over a directory of distinct plain file names: entries whose name
    [glob] does not let through (no [.mp4] ending, or hidden) are
    ignored, construction giving what it gives on the directory without
    them.  When every remaining [*.mp4] entry opens as a video,
    construction returns the wrapper with one camera per such entry, in
    the order of the listing, keyed by the file name without [.mp4],
    grayscale exactly for [_depth.mp4] files; when one of them does not
    open, it raises [RuntimeError].  It never raises [ValueError]. *)
Theorem C9_unrecognized_files_are_ignored
        (folder : string) (d : Directory) (m : list (string * Directory))
        (kw : camera_kwargs_t) :
  has_magic folder = false ->
  Forall (fun e => has_slash (entry_name e) = false) d ->
  NoDup (map entry_name d) ->
  RecordedMultiCameraWrapper.__init__ folder (mkFolder d m) kw
  = RecordedMultiCameraWrapper.__init__ folder
      (mkFolder (filter (fun e => is_mp4_name (entry_name e)) d) m) kw
  /\ ((forall e, In e d -> is_mp4_name (entry_name e) = true ->
                 entry_video e <> None) ->
      RecordedMultiCameraWrapper.__init__ folder (mkFolder d m) kw
      = Ok (RecordedMultiCameraWrapper.mk kw
              (map (fun e => (drop_last4 (entry_name e), fresh_reader e))
                   (filter (fun e => is_mp4_name (entry_name e)) d))))
  /\ ((exists e, In e d /\ is_mp4_name (entry_name e) = true
                 /\ entry_video e = None) ->
      RecordedMultiCameraWrapper.__init__ folder (mkFolder d m) kw
      = Raise RuntimeError)
  /\ (forall e,
         RecordedMultiCameraWrapper.__init__ folder (mkFolder d m) kw
         = Raise e ->
         e = RuntimeError).
Proof.
  intros Hmagic Hslash Hnd.
  assert (Hraise : forall e,
             RecordedMultiCameraWrapper.__init__ folder (mkFolder d m) kw
             = Raise e -> e = RuntimeError).
  { unfold RecordedMultiCameraWrapper.__init__. simpl. intros e E.
    destruct (RecordedMultiCameraWrapper.open_readers
                (glob_mp4 folder (mkFolder d m)) [])
      as [cd|e'] eqn:Ho; simpl in E; [discriminate|].
    inversion E; subst.
    eapply open_readers_raises; [apply glob_mp4_endswith | exact Ho]. }
  split; [|split; [|split]].
  - unfold RecordedMultiCameraWrapper.__init__, glob_mp4.
    rewrite Hmagic. simpl. rewrite glob1_filter. reflexivity.
  - intros Hopen. unfold RecordedMultiCameraWrapper.__init__, glob_mp4.
    rewrite Hmagic. simpl.
    rewrite (@open_readers_cameras folder d Hslash Hopen). simpl.
    rewrite (@fold_dict_set_fresh DirEntry MP4Reader.t
               (fun e => drop_last4 (entry_name e)) fresh_reader);
      [reflexivity|].
    simpl. apply serials_NoDup. exact Hnd.
  - intros (e & Hin & Hm & Hv).
    destruct (RecordedMultiCameraWrapper.__init__ folder (mkFolder d m) kw)
      as [w|e'] eqn:E; [|rewrite (Hraise e' eq_refl); reflexivity].
    exfalso. unfold RecordedMultiCameraWrapper.__init__, glob_mp4 in E.
    rewrite Hmagic in E. simpl in E.
    apply bind_Ok in E. destruct E as (cd & Hcd & _).
    apply open_readers_opened in Hcd. rewrite Forall_forall in Hcd.
    apply (Hcd ((folder ++ "/" ++ entry_name e)%string, entry_video e));
      [|exact Hv].
    unfold glob1. apply in_map_iff. exists e. split; [reflexivity|].
    apply filter_In. split; [exact Hin | exact Hm].
  - exact Hraise.
Qed.

Lemma C9_witness :
  exists w,
    RecordedMultiCameraWrapper.__init__ "rec" recording3_with_notes [] = Ok w
    /\ RecordedMultiCameraWrapper.__init__ "rec" recording3 [] = Ok w
    /\ dict_keys (RecordedMultiCameraWrapper.camera_dict w)
       = ["1"; "1_depth"; "2"; "2_depth"]
    /\ map (fun kv => MP4Reader.grayscale (snd kv))
           (RecordedMultiCameraWrapper.camera_dict w)
       = [false; true; false; true].
Proof.
  destruct (@C9_unrecognized_files_are_ignored
              "rec" (here recording3_with_notes) [] [])
    as (Hsame & Hok & _ & _).
  - reflexivity.
  - repeat constructor.
  - repeat constructor; simpl; intuition discriminate.
  - eexists. split; [|split; [|split]].
    + apply Hok. intros e He Hm. simpl in He.
      repeat (destruct He as [<-|He]; [simpl in *; discriminate|]).
      destruct He.
    + vm_compute; reflexivity.
    + vm_compute; reflexivity.
    + vm_compute; reflexivity.
Defined.

(** C9, the claim as stated fails: a folder holding [notes.txt] next to
    the four videos is accepted, with the four cameras. *)
Lemma C9_a_stray_file_is_accepted :
  is_mp4_name "notes.txt" = false
  /\ exists w,
       RecordedMultiCameraWrapper.__init__ "rec" recording3_with_notes [] = Ok w
       /\ dict_keys (RecordedMultiCameraWrapper.camera_dict w)
          = ["1"; "1_depth"; "2"; "2_depth"].
Proof.
  split; [reflexivity|].
  eexists. split; vm_compute; reflexivity.
Qed.

(** C10.  [read_cameras] looks every discovered camera id up in the role
    map before reading it.  When an id of the wrapper is not a key of the
    map, the call does not return (neither a dict nor [None]); it raises
    [KeyError] as soon as the cameras listed before that id have been
    read.  So a call that returns had every discovered id in the map. *)
Theorem C10_unknown_camera_id_raises
        (self : RecordedMultiCameraWrapper.t) (index : option Z)
        (camera_type_dict : dict string) (timestamp_dict : pyval)
        (before after : list string) (cam_id : string) :
  dict_keys (RecordedMultiCameraWrapper.camera_dict self)
  = before ++ cam_id :: after ->
  dict_get camera_type_dict cam_id = None ->
  (exists e, RecordedMultiCameraWrapper.read_cameras
               self index camera_type_dict timestamp_dict
             = Raise e)
  /\ (forall obs self1,
         RecordedMultiCameraWrapper.read_each before self index
           camera_type_dict timestamp_dict [] = Ok (Some obs, self1) ->
         RecordedMultiCameraWrapper.read_cameras
           self index camera_type_dict timestamp_dict
         = Raise KeyError).
Proof.
  intros Hkeys Hunknown. unfold RecordedMultiCameraWrapper.read_cameras.
  rewrite Hkeys. split.
  - destruct (RecordedMultiCameraWrapper.read_each (before ++ cam_id :: after)
                self index camera_type_dict timestamp_dict [])
      as [[o self']|e] eqn:E; [|eauto].
    exfalso. eapply read_each_known_ids; [exact E| |exact Hunknown].
    apply in_or_app. simpl. auto.
  - intros obs self1 Hbefore. rewrite read_each_app, Hbefore. simpl.
    rewrite (@read_one_unknown_id cam_id self1 index camera_type_dict
               timestamp_dict Hunknown).
    reflexivity.
Qed.

Lemma C10_witness :
  exists self,
    RecordedMultiCameraWrapper.__init__ "rec" recording3_with_stranger [] = Ok self
    /\ dict_keys (RecordedMultiCameraWrapper.camera_dict self)
       = ["1"; "1_depth"; "2"; "2_depth"] ++ "999" :: []
    /\ role_names (camera_type_override 1 2) = Ok roles12
    /\ RecordedMultiCameraWrapper.read_cameras self (Some 0%Z) roles12
         (VDict [])
       = Raise KeyError.
Proof.
  eexists. split; [vm_compute; reflexivity|].
  split; [vm_compute; reflexivity|].
  split; [vm_compute; reflexivity|].
  match goal with
  | |- RecordedMultiCameraWrapper.read_cameras ?w _ _ _ = _ =>
      destruct (@C10_unknown_camera_id_raises w (Some 0%Z) roles12 (VDict [])
                  ["1"; "1_depth"; "2"; "2_depth"] [] "999")
        as (_ & Hraise)
  end.
  - vm_compute; reflexivity.
  - reflexivity.
  - eapply Hraise. vm_compute; reflexivity.
Defined.

(** * Further properties of the code *)

(** ** The frame reader, continued *)

Lemma read_camera_ignore (r : MP4Reader.t) :
  MP4Reader.skip_reading r = Some false ->
  MP4Reader.read_camera r true
  = '(_, r') <- MP4Reader.read_camera r false ;; Ok (None, r').
Proof.
  intros Hs. unfold MP4Reader.read_camera, MP4Reader.get_skip_reading.
  rewrite Hs. simpl.
  destruct (cv2.read (MP4Reader._mp4_reader r)) as [[success [frame|]] cap];
    simpl; [|reflexivity].
  destruct success; reflexivity.
Qed.

Lemma read_camera_steps (r r' : MP4Reader.t) (ignore : bool)
      (o : option MP4Reader.data_dict) :
  MP4Reader.skip_reading r = Some false ->
  MP4Reader.read_camera r ignore = Ok (o, r') ->
  MP4Reader.skip_reading r' = Some false
  /\ MP4Reader._index r' = (MP4Reader._index r + 1)%Z.
Proof.
  intros Hs. unfold MP4Reader.read_camera, MP4Reader.get_skip_reading.
  rewrite Hs. simpl.
  destruct (cv2.read (MP4Reader._mp4_reader r)) as [[success [frame|]] cap];
    simpl; [|discriminate].
  destruct success, ignore; simpl; intros E; inversion E; subst; simpl; auto.
Qed.

Lemma advance_then_read (n : nat) :
  forall (r : MP4Reader.t) (i : Z),
    MP4Reader.skip_reading r = Some false ->
    (MP4Reader._index r <= i)%Z ->
    n = Z.to_nat (i - MP4Reader._index r) ->
    (r' <- MP4Reader.advance n r i ;; MP4Reader.read_camera r' false)
    = read_times n r.
Proof.
  induction n as [|n IH]; intros r i Hs Hle Hn; simpl.
  - destruct (Z.ltb_spec (MP4Reader._index r) i); [lia|]. reflexivity.
  - destruct (Z.ltb_spec (MP4Reader._index r) i); [|lia].
    rewrite (@read_camera_ignore r Hs).
    destruct (MP4Reader.read_camera r false) as [[o r1]|e] eqn:Hread; simpl;
      [|reflexivity].
    destruct (@read_camera_steps r r1 false o Hs Hread) as (Hs1 & Hi1).
    apply IH; [exact Hs1 | lia | lia].
Qed.

(** X1.  A seek at or ahead of the cursor followed by a read is the same
    computation as [index - _index] sequential reads whose frames are
    dropped, followed by a read: the same frame (or the same exception,
    when the stream ends on the way) and the same reader afterwards. *)
Theorem forward_seek_is_sequential_reads (r : MP4Reader.t) (i : Z) :
  MP4Reader.skip_reading r = Some false ->
  (MP4Reader._index r <= i)%Z ->
  seek_then_read r i = read_times (Z.to_nat (i - MP4Reader._index r)) r.
Proof.
  intros Hs Hle.
  unfold seek_then_read, MP4Reader.set_frame_index, MP4Reader.get_skip_reading.
  rewrite Hs. simpl.
  destruct (Z.ltb_spec i (MP4Reader._index r)); [lia|].
  apply advance_then_read; auto.
Qed.

Lemma forward_seek_is_sequential_reads_witness :
  exists r0 r',
    configured three_frames "1" true = Ok r0
    /\ seek_then_read r0 2 = read_times 2 r0
    /\ read_times 2 r0 = Ok (image_answer r0 [2%Z], r')
    /\ seek_then_read r0 5 = Raise cv2_error.
Proof.
  do 2 eexists.
  split; [vm_compute; reflexivity|].
  split; [|split; vm_compute; reflexivity].
  apply (@forward_seek_is_sequential_reads
           (MP4Reader.mk "1" true 0 (cv2.mkCap [[0%Z]; [1%Z]; [2%Z]] 0 true)
                         (Some false)) 2%Z).
  - reflexivity.
  - simpl. lia.
Defined.

(** X2.  A seek behind the cursor puts the decoder on frame [index - 1]
    (frame 0 for [index = 0]) and sets [_index] to [index]; the read
    that follows returns that frame, and leaves the decoder one frame
    behind [_index] when [index >= 1]. *)
Theorem backward_seek_reads_the_frame_before (r : MP4Reader.t) (i : Z)
        (px : list Z) :
  MP4Reader.skip_reading r = Some false ->
  cv2.opened (MP4Reader._mp4_reader r) = true ->
  (0 <= i < MP4Reader._index r)%Z ->
  nth_error (cv2.frames (MP4Reader._mp4_reader r))
            (Z.to_nat (Z.max 0 (i - 1))) = Some px ->
  exists r',
    seek_then_read r i = Ok (image_answer r px, r')
    /\ MP4Reader._index r' = (i + 1)%Z
    /\ cv2.pos (MP4Reader._mp4_reader r') = S (Z.to_nat (Z.max 0 (i - 1))).
Proof.
  intros Hs Ho Hi Hpx.
  assert (Hlen : Z.to_nat (Z.max 0 (i - 1))
                 < List.length (cv2.frames (MP4Reader._mp4_reader r))).
  { apply nth_error_Some. congruence. }
  unfold seek_then_read, MP4Reader.set_frame_index, MP4Reader.get_skip_reading.
  rewrite Hs. simpl.
  destruct (Z.ltb_spec i (MP4Reader._index r)) as [_|Hge]; [|lia].
  simpl. rewrite Z.sub_diag. simpl. rewrite Z.ltb_irrefl. simpl.
  unfold MP4Reader.read_camera, MP4Reader.get_skip_reading, cv2.read. simpl.
  rewrite ?Hs, ?Ho. simpl.
  replace (Z.to_nat (Z.min (Z.max 0 (i - 1))
             (Z.of_nat (List.length (cv2.frames (MP4Reader._mp4_reader r))))))
    with (Z.to_nat (Z.max 0 (i - 1))) by lia.
  rewrite Hpx. simpl. eexists. split; [reflexivity|]. simpl. split; reflexivity.
Qed.

Lemma backward_seek_reads_the_frame_before_witness :
  exists r3 r' r'',
    seek_then_read r3 2 = Ok (image_answer r3 [1%Z], r')
    /\ MP4Reader._index r' = 3%Z
    /\ seek_then_read r3 0 = Ok (image_answer r3 [0%Z], r'').
Proof.
  exists (MP4Reader.mk "1" false 3 (cv2.mkCap [[0%Z]; [1%Z]; [2%Z]] 3 true)
                       (Some false)).
  destruct (@backward_seek_reads_the_frame_before
              (MP4Reader.mk "1" false 3
                            (cv2.mkCap [[0%Z]; [1%Z]; [2%Z]] 3 true)
                            (Some false)) 2%Z [1%Z])
    as (r' & Hread & Hidx & _); try reflexivity; [simpl; lia|].
  exists r'. eexists.
  split; [exact Hread|]. split; [exact Hidx|].
  vm_compute; reflexivity.
Defined.

(** X3.  Once [disable_camera] has released the decoder, a reader with
    decoding enabled cannot be read any more: [read_camera] raises
    [cv2.error], and so does a seek ahead of the cursor. *)
Theorem read_after_disable_camera_raises (r : MP4Reader.t) (ignore : bool)
        (i : Z) :
  MP4Reader.skip_reading r = Some false ->
  (MP4Reader._index r < i)%Z ->
  MP4Reader.read_camera (MP4Reader.disable_camera r) ignore = Raise cv2_error
  /\ MP4Reader.set_frame_index (MP4Reader.disable_camera r) i
     = Raise cv2_error.
Proof.
  intros Hs Hi.
  assert (Hread : forall ig,
             MP4Reader.read_camera (MP4Reader.disable_camera r) ig
             = Raise cv2_error).
  { intros ig.
    unfold MP4Reader.read_camera, MP4Reader.get_skip_reading, cv2.read,
      MP4Reader.disable_camera. simpl. rewrite Hs. reflexivity. }
  split; [apply Hread|].
  assert (Hsd : MP4Reader.skip_reading (MP4Reader.disable_camera r)
                = Some false) by exact Hs.
  assert (Hid : MP4Reader._index (MP4Reader.disable_camera r)
                = MP4Reader._index r) by reflexivity.
  revert Hread Hsd Hid. generalize (MP4Reader.disable_camera r).
  intros rd Hread Hsd Hid.
  unfold MP4Reader.set_frame_index, MP4Reader.get_skip_reading.
  rewrite Hsd, Hid. simpl.
  destruct (Z.ltb_spec i (MP4Reader._index r)); [lia|].
  rewrite Hid.
  destruct (Z.to_nat (i - MP4Reader._index r)) as [|n] eqn:Hn; [lia|].
  simpl. rewrite Hid.
  destruct (Z.ltb_spec (MP4Reader._index r) i); [|lia].
  rewrite Hread. reflexivity.
Qed.

Lemma read_after_disable_camera_raises_witness :
  exists r0 o r1,
    configured three_frames "1" false = Ok r0
    /\ MP4Reader.read_camera r0 false = Ok (o, r1)
    /\ MP4Reader.read_camera (MP4Reader.disable_camera r1) false
       = Raise cv2_error
    /\ MP4Reader.set_frame_index (MP4Reader.disable_camera r1) 2
       = Raise cv2_error.
Proof.
  do 3 eexists.
  split; [vm_compute; reflexivity|].
  split; [vm_compute; reflexivity|].
  apply read_after_disable_camera_raises; [reflexivity | simpl; lia].
Defined.

(** X4.  A reader as [MP4Reader(...)] constructs it has no
    [skip_reading] attribute yet: until [set_reading_parameters] is
    called, [read_camera] and [set_frame_index] raise
    [AttributeError]. *)
Theorem unconfigured_reader_raises (content : option (list (list Z)))
        (serial : string) (gray ignore : bool) (i : Z) (r : MP4Reader.t) :
  MP4Reader.__init__ content serial gray = Ok r ->
  MP4Reader.read_camera r ignore = Raise AttributeError
  /\ MP4Reader.set_frame_index r i = Raise AttributeError.
Proof.
  unfold MP4Reader.__init__. destruct content as [frames|]; simpl;
    [|discriminate].
  intros E; inversion E; subst. split; reflexivity.
Qed.

Lemma unconfigured_reader_raises_witness :
  exists r,
    MP4Reader.__init__ three_frames "1" false = Ok r
    /\ MP4Reader.read_camera r false = Raise AttributeError
    /\ MP4Reader.set_frame_index r 1 = Raise AttributeError.
Proof.
  eexists. split; [vm_compute; reflexivity|].
  apply (@unconfigured_reader_raises three_frames "1" false false 1%Z).
  vm_compute; reflexivity.
Defined.

(** ** The multi-camera wrapper, continued *)

Lemma read_camera_tracked (r : MP4Reader.t) :
  MP4Reader.skip_reading r = Some false ->
  tracking r ->
  Z.to_nat (MP4Reader._index r)
  < List.length (cv2.frames (MP4Reader._mp4_reader r)) ->
  MP4Reader.read_camera r false
  = Ok (Some [("image", [(MP4Reader.serial_number r,
                          frame_at r (MP4Reader._index r))])],
        after_read r (MP4Reader._index r)).
Proof.
  intros Hs (Ho & H0 & Hp) Hlen.
  unfold MP4Reader.read_camera, MP4Reader.get_skip_reading, cv2.read.
  rewrite Hs, Ho, Hp. simpl.
  rewrite (nth_error_nth' _ (@nil Z) Hlen). simpl.
  unfold after_read, frame_at, MP4Reader.frame_of. simpl.
  rewrite ?Hs, ?Hp. reflexivity.
Qed.

Lemma read_times_tracked (n : nat) :
  forall (r : MP4Reader.t) (i : Z),
    MP4Reader.skip_reading r = Some false ->
    tracking r ->
    i = (MP4Reader._index r + Z.of_nat n)%Z ->
    Z.to_nat i < List.length (cv2.frames (MP4Reader._mp4_reader r)) ->
    read_times n r
    = Ok (Some [("image", [(MP4Reader.serial_number r, frame_at r i)])],
          after_read r i).
Proof.
  induction n as [|n IH]; intros r i Hs Ht Hi Hlen; simpl.
  - replace i with (MP4Reader._index r) by lia.
    apply read_camera_tracked; auto. destruct Ht as (_ & H0 & _). lia.
  - assert (H0 : (0 <= MP4Reader._index r)%Z) by apply Ht.
    rewrite (@read_camera_tracked r Hs Ht) by lia. simpl.
    rewrite (IH (after_read r (MP4Reader._index r)) i).
    + reflexivity.
    + reflexivity.
    + unfold tracking, after_read. simpl. repeat split; lia.
    + unfold after_read. simpl. lia.
    + unfold after_read. simpl. exact Hlen.
Qed.

Lemma dict_get_app_fresh {V} (a b : dict V) (k : string) :
  ~ In k (dict_keys a) -> dict_get (a ++ b) k = dict_get b k.
Proof.
  induction a as [|[k' v'] a IH]; simpl; intros Hk; [reflexivity|].
  destruct (String.eqb_spec k' k) as [->|_]; [tauto|]. apply IH. tauto.
Qed.

Lemma dict_set_app_fresh {V} (a b : dict V) (k : string) (v v' : V) :
  ~ In k (dict_keys a) ->
  dict_set (a ++ (k, v) :: b) k v' = a ++ (k, v') :: b.
Proof.
  induction a as [|[k0 v0] a IH]; simpl; intros Hk.
  - rewrite String.eqb_refl. reflexivity.
  - destruct (String.eqb_spec k0 k) as [->|_]; [tauto|].
    f_equal. apply IH. tauto.
Qed.

Lemma seek_then_read_tracked (r : MP4Reader.t) (i : Z) :
  MP4Reader.skip_reading r = Some false ->
  tracking r ->
  (MP4Reader._index r <= i)%Z ->
  Z.to_nat i < List.length (cv2.frames (MP4Reader._mp4_reader r)) ->
  seek_then_read r i
  = Ok (Some [("image", [(MP4Reader.serial_number r, frame_at r i)])],
        after_read r i).
Proof.
  intros Hs Ht Hle Hlen.
  unfold seek_then_read, MP4Reader.set_frame_index, MP4Reader.get_skip_reading.
  rewrite Hs. simpl.
  destruct (Z.ltb_spec i (MP4Reader._index r)); [lia|].
  rewrite (@advance_then_read (Z.to_nat (i - MP4Reader._index r)) r i
             Hs Hle eq_refl).
  apply read_times_tracked; auto. lia.
Qed.

(** One pass of the loop of [read_cameras] on a camera that can give
    frame [i]. *)
Lemma read_one_tracked (kw : camera_kwargs_t) (a b : dict MP4Reader.t)
      (k : string) (r : MP4Reader.t) (i : Z) (ctd : dict string)
      (tsd : dict pyval) :
  ~ In k (dict_keys a) ->
  tracking r ->
  (MP4Reader._index r <= i)%Z ->
  Z.to_nat i < List.length (cv2.frames (MP4Reader._mp4_reader r)) ->
  dict_get ctd k <> None ->
  (forall role, dict_get kw role <> Some (Some false)) ->
  RecordedMultiCameraWrapper.read_one k
    (RecordedMultiCameraWrapper.mk kw (a ++ (k, r) :: b)) (Some i) ctd
    (VDict tsd)
  = Ok (Some [("image", [(MP4Reader.serial_number r, frame_at r i)])],
        RecordedMultiCameraWrapper.mk kw (a ++ (k, after_read r i) :: b)).
Proof.
  intros Hk Ht Hle Hlen Hrole Hkw.
  unfold RecordedMultiCameraWrapper.read_one.
  assert (Hrole' : exists role, dict_item ctd k = Ok role).
  { unfold dict_item. destruct (dict_get ctd k) as [role|]; [eauto|congruence]. }
  destruct Hrole' as (role & ->). cbn [bind].
  cbn [RecordedMultiCameraWrapper.camera_kwargs
       RecordedMultiCameraWrapper.camera_dict].
  assert (Himage : match dict_get kw role with
                   | Some (Some b0) => b0
                   | _ => true
                   end = true).
  { specialize (Hkw role).
    destruct (dict_get kw role) as [[[|]|]|]; congruence. }
  rewrite Himage.
  assert (Hcam : dict_item (a ++ (k, r) :: b) k = Ok r).
  { unfold dict_item.
    rewrite (@dict_get_app_fresh MP4Reader.t a ((k, r) :: b) k Hk). simpl.
    rewrite String.eqb_refl. reflexivity. }
  rewrite Hcam. cbn [bind py_get as_dict].
  set (r0 := MP4Reader.set_reading_parameters r true).
  pose proof (@seek_then_read_tracked r0 i eq_refl Ht Hle Hlen) as Hseek.
  unfold seek_then_read in Hseek.
  destruct (MP4Reader.set_frame_index r0 i) as [r1|e];
    cbn [bind] in Hseek; [|discriminate].
  cbn [bind]. rewrite Hseek. cbn [bind].
  rewrite (@dict_set_app_fresh MP4Reader.t a b k r (after_read r0 i) Hk).
  reflexivity.
Qed.

Lemma frames_at_snoc (done : dict MP4Reader.t) (k : string)
      (r : MP4Reader.t) (i : Z) :
  Forall (fun kv => MP4Reader.serial_number (snd kv) = fst kv) done ->
  ~ In (MP4Reader.serial_number r) (dict_keys done) ->
  RecordedMultiCameraWrapper.merge_obs (frames_at done i)
    [("image", [(MP4Reader.serial_number r, frame_at r i)])]
  = frames_at (done ++ [(k, r)]) i.
Proof.
  intros Hser Hfresh. destruct done as [|kv done]; [reflexivity|].
  unfold frames_at at 1. unfold RecordedMultiCameraWrapper.merge_obs.
  cbn [fold_left fst snd dict_get]. rewrite String.eqb_refl.
  cbn [dict_set]. rewrite String.eqb_refl.
  unfold dict_update. cbn [fold_left fst snd].
  rewrite dict_set_fresh.
  - change ((kv :: done) ++ [(k, r)]) with (kv :: (done ++ [(k, r)])).
    unfold frames_at. rewrite (app_comm_cons done [(k, r)] kv), map_app.
    reflexivity.
  - unfold dict_keys in *. rewrite map_map. cbn [fst].
    intros Hin. apply Hfresh.
    rewrite (map_ext_in _ fst) in Hin; [exact Hin|].
    intros kv' Hkv'. rewrite Forall_forall in Hser.
    apply (Hser kv' Hkv').
Qed.

Lemma read_each_tracked (kw : camera_kwargs_t) (i : Z) (ctd : dict string)
      (tsd : dict pyval) (todo : dict MP4Reader.t) :
  (forall role, dict_get kw role <> Some (Some false)) ->
  forall done : dict MP4Reader.t,
    NoDup (dict_keys (done ++ todo)) ->
    Forall (fun kv => MP4Reader.serial_number (snd kv) = fst kv) done ->
    Forall (can_give i ctd) todo ->
    RecordedMultiCameraWrapper.read_each (dict_keys todo)
      (RecordedMultiCameraWrapper.mk kw (map (stepped i) done ++ todo))
      (Some i) ctd (VDict tsd) (frames_at done i)
    = Ok (Some (frames_at (done ++ todo) i),
          RecordedMultiCameraWrapper.mk kw (map (stepped i) (done ++ todo))).
Proof.
  intros Hkw. induction todo as [|[k r] todo IH]; intros done Hnd Hser Hcan.
  - simpl. rewrite !app_nil_r. reflexivity.
  - inversion Hcan as [|? ? (Hs & Ht & Hle & Hlen & Hrole) Hcan']; subst.
    simpl in Hs, Ht, Hle, Hlen, Hrole.
    assert (Hfresh : ~ In k (dict_keys done)).
    { unfold dict_keys in Hnd. rewrite map_app in Hnd. simpl in Hnd.
      apply NoDup_remove_2 in Hnd. intros Hin. apply Hnd.
      apply in_or_app. auto. }
    assert (Hfresh' : ~ In k (dict_keys (map (stepped i) done))).
    { unfold dict_keys. rewrite map_map. exact Hfresh. }
    cbn [dict_keys map fst RecordedMultiCameraWrapper.read_each].
    rewrite (@read_one_tracked kw (map (stepped i) done) todo k r i ctd tsd
               Hfresh' Ht Hle Hlen Hrole Hkw).
    cbn [bind].
    rewrite (@frames_at_snoc done k r i Hser) by (rewrite Hs; exact Hfresh).
    replace (map (stepped i) done ++ (k, after_read r i) :: todo)
      with (map (stepped i) (done ++ [(k, r)]) ++ todo)
      by (rewrite map_app, <- app_assoc; reflexivity).
    replace (done ++ (k, r) :: todo) with ((done ++ [(k, r)]) ++ todo)
      by (rewrite <- app_assoc; reflexivity).
    apply IH.
    + rewrite <- app_assoc. exact Hnd.
    + apply Forall_app. split; [exact Hser|]. constructor; auto.
    + exact Hcan'.
Qed.

(** X6.  When the cameras of the wrapper have distinct ids, every reader
    stands at or before frame [i] of a video that has a frame [i], every
    id has a role, no role has its images switched off, and the
    timestamps are a dict, then [read_cameras(index=i)] returns, under
    ["image"], frame [i] of every camera, keyed by camera id in the order
    of the wrapper, and leaves every reader standing on frame [i + 1]. *)
Theorem read_cameras_gives_frame_i_of_every_camera
        (w : RecordedMultiCameraWrapper.t) (i : Z) (ctd : dict string)
        (tsd : dict pyval) :
  NoDup (dict_keys (RecordedMultiCameraWrapper.camera_dict w)) ->
  Forall (can_give i ctd) (RecordedMultiCameraWrapper.camera_dict w) ->
  (forall role,
      dict_get (RecordedMultiCameraWrapper.camera_kwargs w) role
      <> Some (Some false)) ->
  RecordedMultiCameraWrapper.read_cameras w (Some i) ctd (VDict tsd)
  = Ok (Some (frames_at (RecordedMultiCameraWrapper.camera_dict w) i),
        RecordedMultiCameraWrapper.mk
          (RecordedMultiCameraWrapper.camera_kwargs w)
          (map (stepped i) (RecordedMultiCameraWrapper.camera_dict w))).
Proof.
  destruct w as [kw cd]. simpl. intros Hnd Hcan Hkw.
  unfold RecordedMultiCameraWrapper.read_cameras. simpl.
  apply (@read_each_tracked kw i ctd tsd cd Hkw []); auto.
Qed.

Lemma read_cameras_gives_frame_i_of_every_camera_witness :
  exists w w',
    RecordedMultiCameraWrapper.__init__ "rec" recording3 [] = Ok w
    /\ RecordedMultiCameraWrapper.read_cameras w (Some 2%Z) roles12
         (VDict [])
       = Ok (Some [("image",
                    [("1", CvtColor COLOR_BGR2RGB (Decoded [2%Z]));
                     ("1_depth", CvtColor COLOR_BGR2GRAY (Decoded [2%Z]));
                     ("2", CvtColor COLOR_BGR2RGB (Decoded [2%Z]));
                     ("2_depth", CvtColor COLOR_BGR2GRAY (Decoded [2%Z]))])],
             w')
    /\ map (fun kv => MP4Reader._index (snd kv))
           (RecordedMultiCameraWrapper.camera_dict w') = [3; 3; 3; 3]%Z.
Proof.
  do 2 eexists. split; [vm_compute; reflexivity|]. split.
  - match goal with
    | |- RecordedMultiCameraWrapper.read_cameras ?w _ _ _ = _ =>
        rewrite (@read_cameras_gives_frame_i_of_every_camera
                   w 2%Z roles12 [])
    end.
    + vm_compute. reflexivity.
    + simpl. repeat constructor; simpl; intuition discriminate.
    + repeat constructor; simpl; try lia; discriminate.
    + simpl. discriminate.
  - vm_compute. reflexivity.
Defined.

(** ** The HDF5 log, continued *)

(** X7.  When [get_hdf5_length] returns, every data series outside the
    ignored keys has the length it returns; it returns [None] only for a
    log without any data series. *)
Theorem get_hdf5_length_is_every_series_length
        (hdf5_file : list (string * h5node)) (keys_to_ignore : list string)
        (r : option nat) :
  get_hdf5_length hdf5_file keys_to_ignore = Ok r ->
  Forall (fun l => r = Some l) (leaves_of_items keys_to_ignore hdf5_file)
  /\ (r = None -> leaves_of_items keys_to_ignore hdf5_file = []).
Proof.
  intros E. unfold get_hdf5_length in E.
  apply node_length_sound in E. rewrite leaf_lengths_Group in E.
  split; [exact E|].
  intros ->. destruct (leaves_of_items keys_to_ignore hdf5_file) as [|l ls];
    [reflexivity|].
  inversion E; discriminate.
Qed.

Lemma get_hdf5_length_is_every_series_length_witness :
  get_hdf5_length (root log3) [] = Ok (Some 3)
  /\ Forall (fun l => Some 3 = Some l) (leaves_of_items [] (root log3)).
Proof.
  split; [vm_compute; reflexivity|].
  apply (@get_hdf5_length_is_every_series_length (root log3) [] (Some 3)).
  vm_compute; reflexivity.
Defined.

(** X8.  Two data series of different lengths anywhere in the log
    (outside the ignored keys) make [get_hdf5_length] raise: no length is
    returned for such a log, wherever the two series are. *)
Theorem get_hdf5_length_refuses_a_mismatch
        (hdf5_file : list (string * h5node)) (keys_to_ignore : list string)
        (a b : nat) :
  In a (leaves_of_items keys_to_ignore hdf5_file) ->
  In b (leaves_of_items keys_to_ignore hdf5_file) ->
  a <> b ->
  exists e, get_hdf5_length hdf5_file keys_to_ignore = Raise e.
Proof.
  intros Ha Hb Hab. unfold get_hdf5_length.
  apply (@node_length_mismatch keys_to_ignore (Group hdf5_file) a b);
    [rewrite leaf_lengths_Group; exact Ha
    |rewrite leaf_lengths_Group; exact Hb
    |exact Hab].
Qed.

Lemma get_hdf5_length_refuses_a_mismatch_witness :
  get_hdf5_length
    [("action", rows3 0 1 2);
     ("observation", Group [("robot_state", Group [("q", Dataset [EBool true])])])]
    [] = Raise AssertionError.
Proof.
  destruct (@get_hdf5_length_refuses_a_mismatch
              [("action", rows3 0 1 2);
               ("observation",
                Group [("robot_state", Group [("q", Dataset [EBool true])])])]
              [] 3 1) as (e & He).
  - simpl. auto.
  - simpl. auto.
  - discriminate.
  - rewrite He. vm_compute in He. injection He as <-. reflexivity.
Defined.

(** X9.  On a log made of groups and datasets in which every group
    (outside the ignored keys) holds a data series, and all series have
    length [L], [get_hdf5_length] returns [L]. *)
Theorem get_hdf5_length_of_a_populated_log
        (hdf5_file : list (string * h5node)) (keys_to_ignore : list string)
        (L : nat) :
  populated keys_to_ignore (Group hdf5_file) ->
  Forall (eq L) (leaves_of_items keys_to_ignore hdf5_file) ->
  leaves_of_items keys_to_ignore hdf5_file <> [] ->
  get_hdf5_length hdf5_file keys_to_ignore = Ok (Some L).
Proof.
  intros Hpop Hall Hne. unfold get_hdf5_length.
  apply node_length_complete; [exact Hpop | |];
    rewrite leaf_lengths_Group; assumption.
Qed.

Lemma get_hdf5_length_of_a_populated_log_witness :
  get_hdf5_length (root log3) ["observation"] = Ok (Some 3).
Proof.
  apply get_hdf5_length_of_a_populated_log.
  - simpl. repeat split; discriminate.
  - simpl. repeat constructor.
  - simpl. discriminate.
Defined.

Lemma load_node_Group (index : nat) (keys : list string)
      (items : list (string * h5node)) :
  load_node index keys (Group items) = load_loop index keys items [].
Proof.
  change (load_node index keys (Group items))
    with ((fix loop (items : list (string * h5node)) (data_dict : dict pyval)
             : result pyval :=
             match items with
             | [] => Ok (VDict data_dict)
             | (key, curr_data) :: rest =>
                 if mem_string key keys then loop rest data_dict
                 else
                   v <- load_node index keys curr_data ;;
                   loop rest (dict_set data_dict key v)
             end) items []).
  generalize (@nil (string * pyval)).
  induction items as [|[key child] rest IH]; intros acc; [reflexivity|].
  simpl. destruct (mem_string key keys); [apply IH|].
  destruct (load_node index keys child) as [v|e]; simpl;
    [apply IH | reflexivity].
Qed.

(** A node whose length was computed loads at every index below the
    length of each of its data series, whatever keys are ignored. *)
Lemma load_node_returns (index : nat) (keys : list string) (n : h5node) :
  forall r,
    node_length [] n = Ok r ->
    Forall (fun l => index < l) (leaf_lengths [] n) ->
    exists v, load_node index keys n = Ok v.
Proof.
  induction n as [items IH| rows |] using h5node_children_ind; intros r.
  - rewrite node_length_Group, leaf_lengths_Group, load_node_Group.
    assert (Hloop : forall len r acc,
               length_loop [] items len = Ok r ->
               Forall (fun l => index < l) (leaves_of_items [] items) ->
               exists v, load_loop index keys items acc = Ok v).
    { clear r. induction IH as [|[key child] rest Hc _ IHrest];
        intros len r acc; simpl.
      - intros _ _. eexists; reflexivity.
      - intros E Hall. inv_bind E. inv_bind E.
        apply Forall_app in Hall. destruct Hall as (Hl1 & Hl2).
        destruct (mem_string key keys); [eapply IHrest; eauto|].
        simpl in Hc. destruct (Hc _ Ha Hl1) as (v & Hv).
        rewrite Hv. simpl. eapply IHrest; eauto. }
    intros E Hall. eapply Hloop; eauto.
  - simpl. intros _ Hall. inversion Hall as [|? ? Hlt _]; subst.
    apply nth_error_Some in Hlt.
    destruct (nth_error rows index) as [e|]; [eauto | congruence].
  - simpl. discriminate.
Qed.

(** X10.  A reader constructed on a log of length [L] (and not set to
    read embedded images) reads every index below [L]: [read_timestep]
    returns the timestep [load_hdf5_to_dict] builds with ["videos"]
    ignored, and moves its own index to [i + 1].  At an index of [L] or
    more it raises [AssertionError]. *)
Theorem read_timestep_within_the_length
        (file : H5File) (read_images : bool) (tr : TrajectoryReader.t)
        (L i : nat) (keys : list string) :
  TrajectoryReader.__init__ file read_images = Ok tr ->
  TrajectoryReader._read_images tr = false ->
  TrajectoryReader.length tr = Some L ->
  if Nat.ltb i L
  then exists ts,
      load_hdf5_to_dict (root file) i (keys ++ ["videos"]) = Ok ts
      /\ TrajectoryReader.read_timestep tr i keys
         = Ok (ts, TrajectoryReader.mk file false (Some L) (i + 1))
  else TrajectoryReader.read_timestep tr i keys = Raise AssertionError.
Proof.
  unfold TrajectoryReader.__init__. intros E Himg HL.
  apply bind_Ok in E. destruct E as (len & Hlen & E).
  inversion E; subst. simpl in Himg, HL. subst len.
  unfold TrajectoryReader.read_timestep. simpl. rewrite Himg. simpl.
  destruct (Nat.ltb_spec i L) as [Hlt|Hge]; simpl; [|reflexivity].
  pose proof Hlen as Hsound. unfold get_hdf5_length in Hsound.
  apply node_length_sound in Hsound.
  destruct (@load_node_returns i (keys ++ ["videos"]) (Group (root file))
              (Some L) Hlen) as (ts & Hts).
  { eapply Forall_impl; [|exact Hsound]. simpl.
    intros l El. inversion El; subst. exact Hlt. }
  exists ts. unfold load_hdf5_to_dict. rewrite Hts. simpl. auto.
Qed.

Lemma read_timestep_within_the_length_witness :
  exists tr ts,
    TrajectoryReader.__init__ log3 false = Ok tr
    /\ TrajectoryReader.read_timestep tr 2 []
       = Ok (ts, TrajectoryReader.mk log3 false (Some 3) 3)
    /\ TrajectoryReader.read_timestep tr 3 [] = Raise AssertionError.
Proof.
  exists (TrajectoryReader.mk log3 false (Some 3) 0).
  pose proof (@read_timestep_within_the_length log3 false
                (TrajectoryReader.mk log3 false (Some 3) 0) 3 2 []
                eq_refl eq_refl eq_refl) as Hin.
  pose proof (@read_timestep_within_the_length log3 false
                (TrajectoryReader.mk log3 false (Some 3) 0) 3 3 []
                eq_refl eq_refl eq_refl) as Hout.
  simpl Nat.ltb in Hin, Hout. destruct Hin as (ts & _ & Hread).
  exists ts. split; [reflexivity|]. split; assumption.
Defined.

Lemma mentions_VDict (k : string) (items : list (string * pyval)) :
  mentions k (VDict items) = mentions_items k items.
Proof.
  induction items as [|[k' v'] rest IH]; [reflexivity|].
  simpl in *. rewrite IH. reflexivity.
Qed.

Lemma mentions_dict_set (k key : string) (v : pyval) (d : dict pyval) :
  String.eqb key k = false ->
  mentions k v = false ->
  mentions_items k d = false ->
  mentions_items k (dict_set d key v) = false.
Proof.
  intros Hkey Hv. induction d as [|[k' v'] d IH]; simpl.
  - intros _. rewrite Hkey, Hv. reflexivity.
  - intros Hd. apply orb_false_iff in Hd. destruct Hd as (Hd1 & Hd2).
    apply orb_false_iff in Hd1. destruct Hd1 as (Hk' & Hv').
    destruct (String.eqb k' key); simpl.
    + rewrite Hk', Hv, Hd2. reflexivity.
    + rewrite Hk', Hv', (IH Hd2). reflexivity.
Qed.

Lemma mem_string_neq (k key : string) (keys : list string) :
  mem_string k keys = true -> mem_string key keys = false ->
  String.eqb key k = false.
Proof.
  unfold mem_string. intros Hk Hkey.
  destruct (String.eqb_spec key k) as [->|]; [congruence | reflexivity].
Qed.

Lemma load_node_leaves_out (index : nat) (keys : list string) (k : string)
      (n : h5node) :
  mem_string k keys = true ->
  forall v, load_node index keys n = Ok v -> mentions k v = false.
Proof.
  intros Hk.
  induction n as [items IH| rows |] using h5node_children_ind; intros v.
  - rewrite load_node_Group.
    assert (Hloop : forall acc v,
               mentions_items k acc = false ->
               load_loop index keys items acc = Ok v ->
               mentions k v = false).
    { clear v. induction IH as [|[key child] rest Hc _ IHrest];
        intros acc v Hacc; simpl.
      - intros E; inversion E; subst. rewrite mentions_VDict. exact Hacc.
      - destruct (mem_string key keys) eqn:Hkey; [apply IHrest; exact Hacc|].
        intros E. inv_bind E. eapply IHrest; [|exact E].
        apply mentions_dict_set; auto.
        eapply mem_string_neq; eauto. }
    apply Hloop. reflexivity.
  - simpl. destruct (nth_error rows index); [|discriminate].
    intros E; inversion E; reflexivity.
  - simpl. discriminate.
Qed.

(** X11.  A timestep [read_timestep] returns has no ["videos"] key, at
    any depth, and none of the keys it was told to ignore: the embedded
    video sub-tree never reaches a timestep. *)
Theorem read_timestep_leaves_videos_out
        (tr tr' : TrajectoryReader.t) (i : nat) (keys : list string)
        (ts : pyval) (k : string) :
  TrajectoryReader.read_timestep tr i keys = Ok (ts, tr') ->
  k = "videos" \/ In k keys ->
  mentions k ts = false.
Proof.
  unfold TrajectoryReader.read_timestep. intros E Hk.
  skip_bind E. skip_bind E. simpl in E.
  apply bind_Ok in E. destruct E as (v & Hv & E). inversion E; subst.
  unfold load_hdf5_to_dict in Hv.
  eapply load_node_leaves_out; [|exact Hv].
  unfold mem_string. apply existsb_exists. exists k. split.
  - apply in_or_app. destruct Hk as [->|Hk]; simpl; auto.
  - apply String.eqb_refl.
Qed.

Lemma read_timestep_leaves_videos_out_witness :
  exists ts tr',
    TrajectoryReader.read_timestep
      (TrajectoryReader.mk
         (mkFile
            [("observations",
              Group [("videos", Group [("1", rows3 0 1 2)]);
                     ("state", rows3 0 1 2)])] [] true)
         false (Some 3) 0) 1 []
    = Ok (ts, tr')
    /\ mentions "videos" ts = false
    /\ mentions "state" ts = true.
Proof.
  do 2 eexists. split; [vm_compute; reflexivity|]. split.
  - eapply (@read_timestep_leaves_videos_out
              (TrajectoryReader.mk
                 (mkFile
                    [("observations",
                      Group [("videos", Group [("1", rows3 0 1 2)]);
                             ("state", rows3 0 1 2)])] [] true)
                 false (Some 3) 0) _ 1 [] _ "videos").
    + vm_compute; reflexivity.
    + left; reflexivity.
  - vm_compute; reflexivity.
Defined.

(** ** load_trajectory, continued *)

Lemma strictly_ascending_length (l : list nat) :
  forall a b : nat,
    StronglySorted lt l ->
    Forall (fun i => a <= i < b) l ->
    List.length l <= b - a.
Proof.
  induction l as [|x l IH]; intros a b Hs Hall; simpl; [lia|].
  inversion Hs as [|? ? Hs' Hx]; subst.
  inversion Hall as [|? ? Hxa Hall']; subst.
  assert (Hl : List.length l <= b - S x).
  { apply IH; [exact Hs'|].
    rewrite Forall_forall in *. intros i Hi.
    specialize (Hx i Hi). specialize (Hall' i Hi). lia. }
  lia.
Qed.

(** X12.  The indices the loop visits, whenever they are chosen without
    an exception: strictly ascending, all below the horizon, hence at
    most as many as the horizon; every index in order when no count is
    asked for; and, for a positive count without step filtering,
    [min(count, horizon)] of them. *)
Theorem indices_to_save_are_ascending
        {G : Type} `{RandomState G}
        (rss : bool) (g g' : G) (L : nat) (num : option Z) (coeff : float)
        (idxs : list nat) :
  fair ->
  choose_indices rss g (Some L) num coeff = Ok (idxs, g') ->
  StronglySorted lt idxs
  /\ Forall (fun i => i < L) idxs
  /\ List.length idxs <= L
  /\ (num = None -> idxs = seq 0 L)
  /\ (forall n, num = Some n -> (0 < n)%Z -> rss = false ->
                List.length idxs = Z.to_nat (Z.min n (Z.of_nat L))).
Proof.
  intros Hfair E.
  destruct (choose_indices_ascending Hfair _ _ _ _ _ E) as (Hs & Hr).
  split; [exact Hs|]. split; [exact Hr|]. split; [|split].
  - replace L with (L - 0) by lia.
    apply strictly_ascending_length; [exact Hs|].
    eapply Forall_impl; [|exact Hr]. simpl. intros; lia.
  - intros ->. simpl in E. inversion E; reflexivity.
  - intros n -> Hn ->. unfold choose_indices in E.
    destruct (Z.eqb_spec n 0); [lia|]. simpl in E.
    apply bind_Ok in E. destruct E as ([drawn g1] & Hd & E).
    simpl in E. inversion E; subst.
    apply (np_random_choice_fair Hfair) in Hd.
    destruct Hd as (_ & _ & Hlen & _).
    rewrite <- (Permutation_length (np_sort_perm drawn)). exact Hlen.
Qed.

Lemma indices_to_save_are_ascending_witness :
  exists g',
    choose_indices true Descending (Some 10) (Some 4%Z) default_coeff
    = Ok ([4; 5; 6; 7; 8; 9], g')
    /\ StronglySorted lt [4; 5; 6; 7; 8; 9].
Proof.
  exists Descending. split; [vm_compute; reflexivity|].
  apply (@indices_to_save_are_ascending descending _ true Descending
           Descending 10 (Some 4%Z) default_coeff [4; 5; 6; 7; 8; 9]).
  - exact descending_fair.
  - vm_compute; reflexivity.
Defined.

Section WholeTrajectory.

Context {G : Type} `{RandomState G}.

Variables wrist static : Z.

(** X13.  With no count asked for and step filtering off (what
    [_parse_example] asks for), a call that returns has visited every
    index of the log: the log has a length [L], the result has [L]
    timesteps, and they are the timestep saved at row 0 of the log, then
    the one saved at row 1, and so on to row [L - 1]; the loop ran to the
    end of the indices. *)
Theorem whole_trajectory_in_order
        (g : G) (file : H5File) (rc : bool)
        (folder : option (string * Folder)) (kw : camera_kwargs_t)
        (coeff : float) (out : Output) :
  load_trajectory wrist static false g file rc folder kw None coeff = Ok out ->
  exists L,
    get_hdf5_length (root file) [] = Ok (Some L)
    /\ List.length (timestep_list out) = L
    /\ Forall2 (saved_at file wrist static (rc && is_some folder))
               (seq 0 L) (timestep_list out)
    /\ loop_exit_of out = Exhausted
    /\ dict_get (attrs file) "current_task" = Some (target_label out).
Proof.
  intros E.
  pose proof E as Hlabel. apply load_trajectory_label in Hlabel.
  apply load_trajectory_inv in E.
  destruct E as (tr0 & cr0 & idxs & g1 & acc & tr1 & Ho & Hc & Hi & Hr & _).
  pose proof Ho as Hcam. apply open_stores_cameras in Hcam.
  apply open_stores_file in Ho. destruct Ho as (Hfile & HL).
  rewrite HL in Hc. simpl in Hr. inversion Hr; subst acc.
  destruct (get_hdf5_length (root file) []) as [[L|]|e]; try discriminate.
  simpl in Hc. inversion Hc; subst idxs g1.
  pose proof (@iterate_all_saved wrist static _ _ _ _ _ _ _ Hi) as Hsaved.
  rewrite Hfile, Hcam in Hsaved.
  exists L. split; [reflexivity|]. split; [|split; [exact Hsaved|split]].
  - apply Forall2_length in Hsaved. unfold np_arange in Hsaved.
    rewrite length_seq in Hsaved. congruence.
  - eapply (@iterate_never_breaks wrist static false); eauto.
  - exact Hlabel.
Qed.

(** X14.  A count of zero is not "no count": every index is visited,
    and the post-pass then keeps nothing.  A call that returns, returns
    an empty list. *)
Theorem zero_samples_returns_nothing
        (rss : bool) (g : G) (file : H5File) (rc : bool)
        (folder : option (string * Folder)) (kw : camera_kwargs_t)
        (coeff : float) (out : Output) :
  fair ->
  load_trajectory wrist static rss g file rc folder kw (Some 0%Z) coeff
  = Ok out ->
  timestep_list out = []
  /\ exists L tr0 cr0 acc tr1,
       get_hdf5_length (root file) [] = Ok (Some L)
       /\ open_stores file rc folder kw = Ok (tr0, cr0)
       /\ iterate wrist static rss (seq 0 L) tr0 cr0 []
          = Ok (acc, loop_exit_of out, tr1, camera_reader_of out).
Proof.
  intros Hfair E. apply load_trajectory_inv in E.
  destruct E as (tr0 & cr0 & idxs & g1 & acc & tr1 & Ho & Hc & Hi & Hr & _).
  split.
  - unfold remove_extra in Hr.
    destruct (Z.ltb_spec 0 (Z.of_nat (List.length acc))) as [Hlt|Hge].
    + apply bind_Ok in Hr. destruct Hr as ([ind g2] & Hd & Hr).
      simpl in Hr. apply bind_Ok in Hr. destruct Hr as (kept & Hk & Hr).
      inversion Hr; subst.
      apply (np_random_choice_fair Hfair) in Hd.
      destruct Hd as (_ & _ & Hlen & _).
      destruct ind; [|simpl in Hlen; lia].
      simpl in Hk. inversion Hk; reflexivity.
    + inversion Hr as [[Hacc Hg]]. rewrite Hacc in Hge.
      destruct (timestep_list out); [reflexivity | simpl in Hge; lia].
  - pose proof Ho as HL. apply open_stores_file in HL.
    destruct HL as (_ & HL). rewrite HL in Hc.
    destruct (get_hdf5_length (root file) []) as [[L|]|e]; try discriminate.
    simpl in Hc. inversion Hc; subst idxs g1.
    exists L, tr0, cr0, acc, tr1. auto.
Qed.

(** X15.  A negative count, without step filtering, makes the call
    raise [ValueError] as soon as the two readers are open: the sample
    size handed to [np.random.choice] is negative. *)
Theorem negative_samples_raise
        (g : G) (file : H5File) (rc : bool)
        (folder : option (string * Folder)) (kw : camera_kwargs_t)
        (coeff : float) (L : nat) (n : Z) (tr0 : TrajectoryReader.t)
        (cr0 : option RecordedMultiCameraWrapper.t) :
  open_stores file rc folder kw = Ok (tr0, cr0) ->
  get_hdf5_length (root file) [] = Ok (Some L) ->
  (n < 0)%Z ->
  load_trajectory wrist static false g file rc folder kw (Some n) coeff
  = Raise ValueError.
Proof.
  intros Hopen HL Hn. unfold load_trajectory. rewrite Hopen. simpl.
  apply open_stores_file in Hopen. destruct Hopen as (_ & Hlen).
  rewrite HL in Hlen. rewrite Hlen. unfold choose_indices.
  destruct (Z.eqb_spec n 0); [lia|]. simpl.
  unfold np_random_choice.
  destruct (Z.ltb_spec (Z.min n (Z.of_nat L)) 0); [reflexivity | lia].
Qed.

(** X16.  On a log without any data series the horizon is [None], and
    without step filtering the call raises [TypeError] once the readers
    are open, whatever count is asked for. *)
Theorem no_data_series_raises
        (g : G) (file : H5File) (rc : bool)
        (folder : option (string * Folder)) (kw : camera_kwargs_t)
        (num : option Z) (coeff : float) (tr0 : TrajectoryReader.t)
        (cr0 : option RecordedMultiCameraWrapper.t) :
  open_stores file rc folder kw = Ok (tr0, cr0) ->
  get_hdf5_length (root file) [] = Ok None ->
  load_trajectory wrist static false g file rc folder kw num coeff
  = Raise TypeError.
Proof.
  intros Hopen Hlen. unfold load_trajectory. rewrite Hopen. simpl.
  apply open_stores_file in Hopen. destruct Hopen as (_ & HL).
  rewrite Hlen in HL. rewrite HL. unfold choose_indices.
  destruct num as [n|]; [destruct (n =? 0)%Z|]; reflexivity.
Qed.

End WholeTrajectory.

Lemma whole_trajectory_in_order_witness :
  exists out row0 row1 row2,
    load_trajectory 1 2 false Descending log3 false None [] None
      default_coeff = Ok out
    /\ log_row log3 0 = Ok row0
    /\ log_row log3 1 = Ok row1
    /\ log_row log3 2 = Ok row2
    /\ timestep_list out = [row0; row1; row2]
    /\ exists L,
         get_hdf5_length (root log3) [] = Ok (Some L)
         /\ List.length (timestep_list out) = L
         /\ Forall2 (saved_at log3 1 2 false)
                    (seq 0 L) (timestep_list out)
         /\ loop_exit_of out = Exhausted
         /\ dict_get (attrs log3) "current_task" = Some (target_label out).
Proof.
  do 4 eexists.
  split; [vm_compute; reflexivity|].
  split; [vm_compute; reflexivity|].
  split; [vm_compute; reflexivity|].
  split; [vm_compute; reflexivity|].
  split; [reflexivity|].
  match goal with
  | |- context [timestep_list ?o] =>
      apply (@whole_trajectory_in_order
               descending _ 1 2 Descending
               log3 false None [] default_coeff o)
  end.
  vm_compute; reflexivity.
Defined.

Lemma zero_samples_returns_nothing_witness :
  exists out,
    load_trajectory 1 2 false Descending log3 false None [] (Some 0%Z)
      default_coeff = Ok out
    /\ timestep_list out = [].
Proof.
  eexists. split; [vm_compute; reflexivity|].
  match goal with
  | |- timestep_list ?o = _ =>
      apply (@zero_samples_returns_nothing
               descending _ 1 2 false Descending
               log3 false None [] default_coeff o)
  end.
  - exact descending_fair.
  - vm_compute; reflexivity.
Defined.

Lemma negative_samples_raise_witness :
  load_trajectory 1 2 false Descending log3 false None [] (Some (-1)%Z) default_coeff
  = Raise ValueError.
Proof.
  apply (@negative_samples_raise
           descending _ 1 2 Descending
           log3 false None [] default_coeff 3 (-1)%Z
           (TrajectoryReader.mk log3 false (Some 3) 0) None).
  - reflexivity.
  - vm_compute; reflexivity.
  - lia.
Defined.

Lemma no_data_series_raises_witness :
  load_trajectory 1 2 false Descending
    (mkFile [("observation", Group [])] [("current_task", "x")] true)
    false None [] (Some 5%Z) default_coeff
  = Raise TypeError.
Proof.
  apply (@no_data_series_raises
           descending _ 1 2 Descending
           (mkFile [("observation", Group [])] [("current_task", "x")] true)
           false None [] (Some 5%Z) default_coeff
           (TrajectoryReader.mk
              (mkFile [("observation", Group [])] [("current_task", "x")] true)
              false None 0) None).
  - reflexivity.
  - reflexivity.
Defined.

Lemma take_indices_incl (l : list pyval) (idxs : list nat) :
  forall r, take_indices l idxs = Ok r -> incl r l.
Proof.
  induction idxs as [|j idxs IH]; intros r; simpl.
  - intros E; inversion E; subst. intros x [].
  - destruct (nth_error l j) as [t|] eqn:Ht; [|discriminate].
    intros E. apply bind_Ok in E. destruct E as (r' & Hr' & E).
    inversion E; subst. intros x [<-|Hx].
    + eapply nth_error_In; eauto.
    + eapply IH; eauto.
Qed.

Lemma remove_extra_incl {G} `{RandomState G} (g g' : G) (l kept : list pyval)
      (num : option Z) :
  remove_extra g l num = Ok (kept, g') -> incl kept l.
Proof.
  unfold remove_extra. destruct num as [n|].
  - destruct (n <? Z.of_nat (List.length l))%Z.
    + intros E. apply bind_Ok in E. destruct E as ([ind g1] & _ & E).
      simpl in E. apply bind_Ok in E. destruct E as (r & Hr & E).
      inversion E; subst. eapply take_indices_incl; eauto.
    + intros E; inversion E; subst. apply incl_refl.
  - intros E; inversion E; subst. apply incl_refl.
Qed.

(** X17.  With step filtering on, every timestep [load_trajectory]
    returns has movement enabled: its [controller_info] either has no
    [movement_enabled] entry or a true one.  A step with movement
    disabled never reaches the result.  Each returned timestep is the
    one saved at some row of the log. *)
Theorem filtering_returns_only_enabled_steps
        {G : Type} `{RandomState G}
        (wrist static : Z) (g : G) (file : H5File) (rc : bool)
        (folder : option (string * Folder)) (kw : camera_kwargs_t)
        (num : option Z) (coeff : float) (out : Output) :
  load_trajectory wrist static true g file rc folder kw num coeff = Ok out ->
  Forall (fun ts =>
            movement_enabled_of ts = Ok true
            /\ exists i, saved_at file wrist static (rc && is_some folder)
                                  i ts)
         (timestep_list out).
Proof.
  intros E. apply load_trajectory_inv in E.
  destruct E as (tr0 & cr0 & idxs & g1 & acc & tr1 & Ho & _ & Hi & Hr & _).
  pose proof Ho as Hcam. apply open_stores_cameras in Hcam.
  apply open_stores_file in Ho. destruct Ho as (Hfile & _).
  apply iterate_saved in Hi. apply remove_extra_incl in Hr.
  rewrite Hfile, Hcam in Hi.
  rewrite Forall_forall in *. intros ts Hts.
  destruct (Hi ts (Hr ts Hts)) as (i & _ & Hs & Hme).
  split; [auto | eauto].
Qed.

Lemma filtering_returns_only_enabled_steps_witness :
  exists out t0 t2,
    load_trajectory 1 2 true Descending log3_paused false None [] None default_coeff
    = Ok out
    /\ load_hdf5_to_dict (root log3_paused) 0 ["videos"] = Ok t0
    /\ load_hdf5_to_dict (root log3_paused) 2 ["videos"] = Ok t2
    /\ timestep_list out = [t0; t2]
    /\ Forall (fun ts =>
                 movement_enabled_of ts = Ok true
                 /\ exists i, saved_at log3_paused 1 2 false i ts)
              (timestep_list out).
Proof.
  do 3 eexists.
  split; [vm_compute; reflexivity|].
  split; [vm_compute; reflexivity|].
  split; [vm_compute; reflexivity|].
  split; [reflexivity|].
  match goal with
  | |- Forall _ (timestep_list ?o) =>
      apply (@filtering_returns_only_enabled_steps
               descending _ 1 2 Descending
               log3_paused false None [] None default_coeff o)
  end.
  vm_compute; reflexivity.
Defined.

(** X18.  Asked to read cameras without a recording folder, on a log
    that embeds its videos ([observations/videos]) and has at least one
    step, [load_trajectory] raises [AssertionError] at the first
    timestep: [read_timestep(index=i)] refuses to run on a reader that is
    to read embedded images. *)
Theorem embedded_videos_are_refused
        {G : Type} `{RandomState G}
        (wrist static : Z) (rss : bool) (g : G) (file : H5File)
        (kw : camera_kwargs_t) (coeff : float) (L : nat) :
  h5_contains2 (root file) "observations" "videos" = true ->
  get_hdf5_length (root file) [] = Ok (Some (S L)) ->
  load_trajectory wrist static rss g file true None kw None coeff
  = Raise AssertionError.
Proof.
  intros Hvid Hlen. unfold load_trajectory, open_stores.
  unfold TrajectoryReader.__init__. rewrite Hvid, Hlen. reflexivity.
Qed.

Lemma embedded_videos_are_refused_witness :
  load_trajectory 1 2 false Descending
    (mkFile
       [("observations",
         Group [("videos", Group [("1", rows3 0 1 2)]);
                ("state", rows3 0 1 2)])] [] true)
    true None [] None default_coeff
  = Raise AssertionError.
Proof.
  apply (@embedded_videos_are_refused
           descending _ 1 2 false Descending
           (mkFile
              [("observations",
                Group [("videos", Group [("1", rows3 0 1 2)]);
                       ("state", rows3 0 1 2)])] [] true)
           [] default_coeff 2).
  - reflexivity.
  - vm_compute; reflexivity.
Defined.

(** ** The encoder *)

(** X19.  [_resize_and_encode] on an array PIL has a mode for returns
    an array of three axes, resized to the larger of the two numbers of
    [size] as width and the smaller as height: the two orders of [size]
    give the same image.  On any other array it raises [TypeError]. *)
Theorem resize_and_encode_is_landscape (image : Image) (a b : nat) :
  (fromarray_accepts image = true ->
   exists out,
     _resize_and_encode image (a, b) = Ok out
     /\ _resize_and_encode image (b, a) = Ok out
     /\ ndim out = 3
     /\ pil_size out = Some (Nat.max a b, Nat.min a b))
  /\ (fromarray_accepts image = false ->
      _resize_and_encode image (a, b) = Raise TypeError).
Proof.
  unfold _resize_and_encode. cbn [fst snd]. split; intros Hacc; rewrite Hacc;
    [|reflexivity].
  assert (Hc : forall w h,
             ndim (Resize w h image) = 2 + List.length (channels image))
    by reflexivity.
  assert (Hout : forall w h,
             let out := if Nat.eqb (ndim (Resize w h image)) 2
                        then ExpandDims (Resize w h image)
                        else Resize w h image in
             ndim out = 3 /\ pil_size out = Some (w, h)).
  { intros w h. rewrite Hc. unfold fromarray_accepts in Hacc.
    destruct (channels image) as [|c l] eqn:Hch.
    - cbn. rewrite Hch. cbn. split; reflexivity.
    - destruct c as [|[|[|[|c]]]]; cbn in Hacc; try discriminate.
      destruct l; [|discriminate].
      cbn. rewrite Hch. cbn. split; reflexivity. }
  destruct (Nat.ltb_spec a b) as [Hab|Hab];
    destruct (Nat.ltb_spec b a) as [Hba|Hba]; try lia.
  - rewrite Nat.max_r, Nat.min_l by lia.
    eexists. split; [reflexivity|]. split; [reflexivity|]. apply Hout.
  - rewrite Nat.max_l, Nat.min_r by lia.
    eexists. split; [reflexivity|]. split; [reflexivity|]. apply Hout.
  - assert (a = b) by lia. subst. rewrite Nat.max_id, Nat.min_id.
    eexists. split; [reflexivity|]. split; [reflexivity|]. apply Hout.
Qed.

Lemma str_inj (a b : Z) : str a = str b -> a = b.
Proof.
  unfold str. intros E.
  assert (Hnn : forall n, Z.to_int n <> Decimal.Pos Decimal.Nil
                          /\ Z.to_int n <> Decimal.Neg Decimal.Nil).
  { intros [|p|p]; simpl; split; try discriminate; intros [= Hp];
      apply (Unsigned.to_uint_nonnil p); exact Hp. }
  apply DecimalZ.to_int_inj.
  apply (f_equal NilZero.int_of_string) in E.
  rewrite !NilZero.isi in E by apply Hnn.
  congruence.
Qed.

Lemma uint_digits (c : ascii) (d : Decimal.uint) :
  c <> "0"%char -> c <> "1"%char -> c <> "2"%char -> c <> "3"%char ->
  c <> "4"%char -> c <> "5"%char -> c <> "6"%char -> c <> "7"%char ->
  c <> "8"%char -> c <> "9"%char ->
  has_char c (NilEmpty.string_of_uint d) = false.
Proof.
  intros. induction d; cbn [NilEmpty.string_of_uint has_char]; auto;
    rewrite IHd, orb_false_r; apply Ascii.eqb_neq; auto.
Qed.

Lemma str_no_underscore (n : Z) : has_char "_" (str n) = false.
Proof.
  assert (Hu : forall d, has_char "_" (NilZero.string_of_uint d) = false).
  { intros d. unfold NilZero.string_of_uint.
    destruct d; try reflexivity; apply uint_digits; discriminate. }
  unfold str. destruct (Z.to_int n); cbn [NilZero.string_of_int has_char].
  - apply Hu.
  - rewrite Hu. reflexivity.
Qed.

Lemma has_char_app (c : ascii) (a b : string) :
  has_char c (a ++ b) = has_char c a || has_char c b.
Proof.
  induction a as [|x a IH]; simpl; auto. rewrite IH, orb_assoc. reflexivity.
Qed.

Lemma str_not_depth (a b : Z) : str a <> (str b ++ "_depth")%string.
Proof.
  intros E. apply (f_equal (has_char "_")) in E.
  rewrite has_char_app, str_no_underscore in E.
  rewrite orb_true_r in E. discriminate.
Qed.

Lemma string_app_length (a b : string) :
  String.length (a ++ b) = String.length a + String.length b.
Proof. induction a; simpl; auto. Qed.

Lemma string_app_inv_tail (a b t : string) :
  (a ++ t = b ++ t)%string -> a = b.
Proof.
  revert b. induction a as [|x a IH]; intros [|y b] E; auto.
  - exfalso. apply (f_equal String.length) in E. simpl in E.
    rewrite string_app_length in E. lia.
  - exfalso. apply (f_equal String.length) in E. simpl in E.
    rewrite string_app_length in E. lia.
  - simpl in E. injection E as -> E. f_equal. auto.
Qed.

Lemma camera_keys_distinct (w s : Z) :
  w <> s ->
  NoDup [str w; (str w ++ "_depth")%string; str s; (str s ++ "_depth")%string].
Proof.
  intros Hws.
  assert (H1 : str w <> str s) by (intros E; apply Hws, str_inj, E).
  assert (H2 : (str w ++ "_depth")%string <> (str s ++ "_depth")%string)
    by (intros E; apply H1, (string_app_inv_tail _ _ _ E)).
  pose proof (@str_not_depth w w) as H3.
  pose proof (@str_not_depth w s) as H4.
  pose proof (@str_not_depth s w) as H5.
  pose proof (@str_not_depth s s) as H6.
  repeat constructor; simpl; intuition congruence.
Qed.

Lemma camera_type_override_distinct (w s : Z) :
  w <> s ->
  camera_type_override w s
  = [(str w, VInt 0); ((str w ++ "_depth")%string, VInt 0);
     (str s, VInt 1); ((str s ++ "_depth")%string, VInt 1)].
Proof.
  intros Hws. pose proof (camera_keys_distinct Hws) as Hnd.
  inversion Hnd as [|? ? Hn1 Hnd1]; subst.
  inversion Hnd1 as [|? ? Hn2 Hnd2]; subst.
  inversion Hnd2 as [|? ? Hn3 Hnd3]; subst.
  simpl in Hn1, Hn2, Hn3.
  assert (E1 : String.eqb (str w) (str w ++ "_depth") = false)
    by (apply String.eqb_neq; intuition).
  assert (E2 : String.eqb (str w) (str s) = false)
    by (apply String.eqb_neq; intuition).
  assert (E3 : String.eqb (str w ++ "_depth") (str s) = false)
    by (apply String.eqb_neq; intuition).
  assert (E4 : String.eqb (str w) (str s ++ "_depth") = false)
    by (apply String.eqb_neq; intuition).
  assert (E5 : String.eqb (str w ++ "_depth") (str s ++ "_depth") = false)
    by (apply String.eqb_neq; intuition).
  assert (E6 : String.eqb (str s) (str s ++ "_depth") = false)
    by (apply String.eqb_neq; intuition).
  unfold camera_type_override.
  repeat (cbn [dict_set]; rewrite ?E1, ?E2, ?E3, ?E4, ?E5, ?E6).
  reflexivity.
Qed.

Lemma camera_type_override_same (w : Z) :
  camera_type_override w w
  = [(str w, VInt 1); ((str w ++ "_depth")%string, VInt 1)].
Proof.
  assert (E1 : String.eqb (str w) (str w ++ "_depth") = false)
    by (apply String.eqb_neq, str_not_depth).
  unfold camera_type_override.
  repeat (cbn [dict_set]; rewrite ?E1, ?String.eqb_refl).
  reflexivity.
Qed.

Lemma resize_and_encode_is_landscape_witness :
  exists out,
    _resize_and_encode (CvtColor COLOR_BGR2GRAY (Decoded [0%Z])) (270, 360)
    = Ok out
    /\ _resize_and_encode (CvtColor COLOR_BGR2GRAY (Decoded [0%Z])) (360, 270)
       = Ok out
    /\ ndim out = 3
    /\ pil_size out = Some (360, 270).
Proof.
  apply (proj1 (@resize_and_encode_is_landscape
                  (CvtColor COLOR_BGR2GRAY (Decoded [0%Z])) 270 360)).
  reflexivity.
Defined.

(** X20.  On a timestep whose [camera_type] is the one [load_trajectory]
    writes for two different camera ids, the encoder takes the wrist
    image and depth image from the entries [str(wrist_cam_id)] and
    [str(wrist_cam_id) + "_depth"] of [image], and the static ones from
    the static camera's two entries. *)
Theorem make_step_picks_the_images_by_camera_id
        (b : builder) (label : string) (n i : nat) (w s : Z)
        (step obs images : pyval) (st : Step) :
  w <> s ->
  item step "observation" = Ok obs ->
  item obs "camera_type" = Ok (VDict (camera_type_override w s)) ->
  item obs "image" = Ok images ->
  make_step b label n i step = Ok st ->
  item images (str w) = Ok (wrist_image (observation st))
  /\ item images (str w ++ "_depth")
     = Ok (wrist_depth_image (observation st))
  /\ item images (str s) = Ok (static_image (observation st))
  /\ item images (str s ++ "_depth")
     = Ok (static_depth_image (observation st)).
Proof.
  intros Hws Hobs Hct Himg E. unfold make_step in E.
  rewrite Hobs in E. cbn [bind] in E.
  apply bind_Ok in E. destruct E as (act & _ & E).
  rewrite Hct in E. cbn [bind as_dict] in E.
  rewrite (camera_type_override_distinct Hws) in E.
  cbn [ids_where is_zero bind Z.eqb Bool.eqb] in E.
  rewrite Himg in E.
  cbn [bind list_item nth_error] in E.
  apply bind_Ok in E. destruct E as (i1 & H1 & E).
  apply bind_Ok in E. destruct E as (i2 & H2 & E).
  apply bind_Ok in E. destruct E as (i3 & H3 & E).
  apply bind_Ok in E. destruct E as (i4 & H4 & E).
  repeat (apply bind_Ok in E; destruct E as (? & _ & E)).
  inversion E; subst. cbn. auto.
Qed.

(** X21.  When the wrist and the static camera are given the same id,
    [camera_type] holds no wrist entry and the encoder raises
    [IndexError] at the first step. *)
Theorem make_step_with_one_camera_id_raises
        (b : builder) (label : string) (n i : nat) (w : Z)
        (step obs act images : pyval) :
  item step "observation" = Ok obs ->
  item step "action" = Ok act ->
  item obs "camera_type" = Ok (VDict (camera_type_override w w)) ->
  item obs "image" = Ok images ->
  make_step b label n i step = Raise IndexError.
Proof.
  intros Hobs Hact Hct Himg. unfold make_step.
  rewrite Hobs, Hact. cbn [bind]. rewrite Hct. cbn [bind as_dict].
  rewrite camera_type_override_same.
  cbn [ids_where is_zero bind Z.eqb Bool.eqb]. rewrite Himg. reflexivity.
Qed.

(** ** crawler and the list of examples *)

Lemma ascii_compare_lt_trans (a b c : ascii) :
  Ascii.compare a b = Lt -> Ascii.compare b c = Lt -> Ascii.compare a c = Lt.
Proof.
  unfold Ascii.compare. rewrite !N.compare_lt_iff. apply N.lt_trans.
Qed.

Lemma string_compare_lt_trans (s1 : string) :
  forall s2 s3,
    String.compare s1 s2 = Lt -> String.compare s2 s3 = Lt ->
    String.compare s1 s3 = Lt.
Proof.
  induction s1 as [|a s1 IH]; intros [|b s2] [|c s3]; simpl; try congruence.
  destruct (Ascii.compare a b) eqn:Hab; try discriminate;
    destruct (Ascii.compare b c) eqn:Hbc; try discriminate; intros H1 H2.
  - apply Ascii.compare_eq_iff in Hab, Hbc. subst.
    assert (E : Ascii.compare c c = Eq) by (unfold Ascii.compare; apply N.compare_refl).
    rewrite E. eauto.
  - apply Ascii.compare_eq_iff in Hab. subst. rewrite Hbc. reflexivity.
  - apply Ascii.compare_eq_iff in Hbc. subst. rewrite Hab. reflexivity.
  - rewrite (ascii_compare_lt_trans _ _ _ Hab Hbc). reflexivity.
Qed.

Lemma string_leb_trans (s1 s2 s3 : string) :
  String.leb s1 s2 = true -> String.leb s2 s3 = true -> String.leb s1 s3 = true.
Proof.
  unfold String.leb.
  destruct (String.compare s1 s2) eqn:H12; try discriminate;
    destruct (String.compare s2 s3) eqn:H23; try discriminate; intros _ _.
  - apply String.compare_eq_iff in H12, H23. subst.
    destruct (String.compare s3 s3) eqn:E; auto.
    pose proof (String.compare_antisym s3 s3) as A.
    rewrite E in A. discriminate.
  - apply String.compare_eq_iff in H12. subst. rewrite H23. reflexivity.
  - apply String.compare_eq_iff in H23. subst. rewrite H12. reflexivity.
  - rewrite (string_compare_lt_trans _ _ _ H12 H23). reflexivity.
Qed.

Lemma insert_string_perm (x : string) (l : list string) :
  Permutation (x :: l) (insert_string x l).
Proof.
  induction l as [|y l IH]; simpl; auto.
  destruct (String.leb x y); auto.
  rewrite perm_swap. constructor. exact IH.
Qed.

Lemma sort_strings_perm (l : list string) : Permutation l (sort_strings l).
Proof.
  induction l as [|x l IH]; simpl; auto.
  rewrite <- insert_string_perm. constructor. exact IH.
Qed.

Lemma insert_string_ascending (x : string) (l : list string) :
  ascending l -> ascending (insert_string x l).
Proof.
  unfold ascending. induction 1 as [|y l Hs IH Hy]; simpl.
  - constructor; constructor.
  - destruct (String.leb x y) eqn:E.
    + constructor; [constructor; auto|].
      constructor; auto.
      rewrite Forall_forall in *. intros z Hz.
      eapply string_leb_trans; eauto.
    + constructor; auto.
      rewrite Forall_forall in *. intros z Hz.
      apply (Permutation_in _ (Permutation_sym (insert_string_perm x l))) in Hz.
      destruct Hz as [<-|Hz]; auto.
      destruct (String.leb_total x y) as [H1|H1]; congruence.
Qed.

Lemma sort_strings_ascending (l : list string) : ascending (sort_strings l).
Proof.
  induction l as [|x l IH]; simpl.
  - constructor.
  - apply insert_string_ascending; exact IH.
Qed.

Lemma ascending_unique (l : list string) :
  forall l', ascending l -> ascending l' -> Permutation l l' -> l = l'.
Proof.
  unfold ascending.
  induction l as [|x l IH]; intros l' Hl Hl' Hp.
  - apply Permutation_nil in Hp. subst; reflexivity.
  - destruct l' as [|y l'].
    + apply Permutation_sym, Permutation_nil in Hp. discriminate.
    + inversion Hl as [|? ? Hs Hx]; subst.
      inversion Hl' as [|? ? Hs' Hy]; subst.
      assert (x = y).
      { assert (Hxin : In x (y :: l')) by (eapply Permutation_in; eauto; left; auto).
        assert (Hyin : In y (x :: l))
          by (eapply Permutation_in; [apply Permutation_sym; eauto|left; auto]).
        rewrite Forall_forall in Hx, Hy.
        destruct Hxin as [->|Hxin]; auto.
        destruct Hyin as [->|Hyin]; auto.
        apply String.leb_antisym; auto. }
      subst y. f_equal. apply IH; auto.
      eapply Permutation_cons_inv; eauto.
Qed.

Lemma sort_strings_permutation (l l' : list string) :
  Permutation l l' -> sort_strings l = sort_strings l'.
Proof.
  intros Hp. apply ascending_unique; try apply sort_strings_ascending.
  rewrite <- (sort_strings_perm l), <- (sort_strings_perm l'). exact Hp.
Qed.

Lemma endswith_app_short (p s suf : string) :
  String.length suf <= String.length s ->
  endswith (p ++ s) suf = endswith s suf.
Proof.
  intros Hlen. induction p as [|c p IH]; [reflexivity|].
  change (String c p ++ s)%string with (String c (p ++ s)).
  rewrite endswith_cons.
  destruct (String.eqb_spec (String c (p ++ s)) suf) as [E|_]; [|exact IH].
  apply (f_equal String.length) in E. simpl in E.
  rewrite string_app_length in E. lia.
Qed.

Lemma string_app_assoc (a b c : string) :
  ((a ++ b) ++ c = a ++ (b ++ c))%string.
Proof. induction a; simpl; congruence. Qed.

Lemma join1_relative (path b : string) :
  path <> "" -> String.prefix "/" b = false ->
  join1 path b
  = ((if endswith path "/" then path else path ++ "/") ++ b)%string.
Proof.
  intros Hp Hb. unfold join1. rewrite Hb.
  destruct (String.eqb_spec path ""); [contradiction|]. cbn [orb].
  destruct (endswith path "/"); [reflexivity|].
  rewrite string_app_assoc. reflexivity.
Qed.

Lemma app_nonempty (a b : string) : b <> "" -> (a ++ b)%string <> "".
Proof.
  intros Hb E. apply (f_equal String.length) in E.
  rewrite string_app_length in E. destruct b; [contradiction|].
  simpl in E. lia.
Qed.

Lemma os_path_join_pattern (d : string) :
  d <> "" -> os_path_join d ["success"; "**"; "**"] = pattern_of d.
Proof.
  intros Hd. unfold os_path_join, pattern_of. cbn [fold_left].
  rewrite (@join1_relative d "success" Hd eq_refl).
  set (base := (if endswith d "/" then d else (d ++ "/")%string)).
  rewrite (@join1_relative (base ++ "success") "**");
    [|apply app_nonempty; discriminate | reflexivity].
  rewrite (@endswith_app_short base "success" "/"); [|simpl; lia].
  change (endswith "success" "/") with false. cbv iota.
  rewrite (@join1_relative (((base ++ "success") ++ "/") ++ "**") "**");
    [|apply app_nonempty; discriminate | reflexivity].
  rewrite (@endswith_app_short ((base ++ "success") ++ "/") "**" "/");
    [|simpl; lia].
  change (endswith "**" "/") with false. cbv iota.
  rewrite !string_app_assoc. reflexivity.
Qed.

Lemma crawl_run (disk : Disk) (dirs : list string) :
  forall acc,
    crawl disk dirs acc
    = if forallb (isdir disk) (filter (fun d => negb (String.eqb d "")) dirs)
      then Ok (acc ++ found disk (filter (fun d => negb (String.eqb d "")) dirs))
      else Raise AssertionError.
Proof.
  induction dirs as [|d dirs IH]; intros acc; simpl.
  - rewrite app_nil_r. reflexivity.
  - cbn [crawl filter].
    destruct (String.eqb_spec d "") as [->|Hd]; cbn [negb]; [apply IH|].
    cbn [forallb]. unfold found. cbn [flat_map].
    destruct (isdir disk d); cbn [assert bind andb]; [|reflexivity].
    change (join1 (join1 (join1 d "success") "**") "**")
      with (os_path_join d ["success"; "**"; "**"]).
    rewrite IH, (os_path_join_pattern Hd), app_assoc. reflexivity.
Qed.

Lemma crawler_run (disk : Disk) (data_dirs : string) :
  crawler disk data_dirs
  = if forallb (isdir disk) (named_dirs data_dirs)
    then Ok (sort_strings (found disk (named_dirs data_dirs)))
    else Raise AssertionError.
Proof.
  unfold crawler, named_dirs. rewrite crawl_run.
  destruct (forallb _ _); reflexivity.
Qed.

Lemma found_permutation (disk : Disk) (l l' : list string) :
  Permutation l l' -> Permutation (found disk l) (found disk l').
Proof.
  unfold found. induction 1; simpl; auto.
  - apply Permutation_app_head; auto.
  - rewrite !app_assoc. apply Permutation_app_tail, Permutation_app_comm.
  - etransitivity; eauto.
Qed.

Lemma forallb_permutation {A} (f : A -> bool) (l l' : list A) :
  Permutation l l' -> forallb f l = forallb f l'.
Proof.
  induction 1; simpl; auto.
  - congruence.
  - destruct (f x), (f y); reflexivity.
  - congruence.
Qed.

Lemma split_comma_nonempty (s : string) : split_comma s <> [].
Proof.
  destruct s as [|c s]; simpl; [discriminate|].
  destruct (Ascii.eqb c ","); [discriminate|].
  destruct (split_comma s); discriminate.
Qed.

Lemma split_comma_trailing (s : string) :
  split_comma (s ++ ",") = split_comma s ++ [""].
Proof.
  induction s as [|c s IH]; [reflexivity|].
  change (String c s ++ ",")%string with (String c (s ++ ",")).
  cbn [split_comma]. rewrite IH.
  destruct (Ascii.eqb c ","); [reflexivity|].
  pose proof (split_comma_nonempty s) as Hne.
  destruct (split_comma s); [contradiction | reflexivity].
Qed.

Lemma filter_ascending (f : string -> bool) (l : list string) :
  ascending l -> ascending (filter f l).
Proof.
  unfold ascending. induction 1 as [|x l Hs IH Hx]; simpl; [constructor|].
  destruct (f x); auto. constructor; auto.
  rewrite Forall_forall in *. intros y Hy. apply filter_In in Hy.
  apply Hx, Hy.
Qed.

(** X.  When every directory named in [data_dirs] exists, [crawler]
    returns the paths matched under [<d>/success/**/**] for the named
    directories [d], each as often as [glob] reported it, in ascending
    order of code points.  The order in which [glob] lists them plays no
    part. *)
Theorem crawler_returns_the_matches_sorted (disk : Disk) (data_dirs : string) :
  (forall d, In d (named_dirs data_dirs) -> isdir disk d = true) ->
  exists paths,
    crawler disk data_dirs = Ok paths
    /\ ascending paths
    /\ Permutation paths (found disk (named_dirs data_dirs)).
Proof.
  intros Hdirs. rewrite crawler_run.
  assert (E : forallb (isdir disk) (named_dirs data_dirs) = true)
    by (apply forallb_forall; exact Hdirs).
  rewrite E. eexists. split; [reflexivity|]. split.
  - apply sort_strings_ascending.
  - apply Permutation_sym, sort_strings_perm.
Qed.

(** X.  [crawler] raises exactly when a non-empty component of
    [data_dirs] is not a directory, and then it is [AssertionError]. *)
Theorem crawler_raises_on_a_missing_directory
        (disk : Disk) (data_dirs : string) (e : exn) :
  crawler disk data_dirs = Raise e
  <-> e = AssertionError
      /\ exists d, In d (split_comma data_dirs) /\ d <> ""
                   /\ isdir disk d = false.
Proof.
  rewrite crawler_run.
  destruct (forallb (isdir disk) (named_dirs data_dirs)) eqn:E.
  - split; [discriminate|]. intros (_ & d & Hin & Hd & Hno).
    rewrite forallb_forall in E.
    rewrite E in Hno; [discriminate|]. unfold named_dirs.
    apply filter_In. split; auto.
    destruct (String.eqb_spec d ""); [contradiction | reflexivity].
  - split.
    + intros H. inversion H; subst. split; auto.
      assert (Hex : existsb (fun d => negb (isdir disk d))
                            (named_dirs data_dirs) = true).
      { clear - E. induction (named_dirs data_dirs) as [|d l IH]; simpl in *;
          [discriminate|].
        destruct (isdir disk d); simpl in *; auto. }
      apply existsb_exists in Hex. destruct Hex as (d & Hin & Hd).
      unfold named_dirs in Hin. apply filter_In in Hin.
      destruct Hin as (Hin & Hne). exists d. split; auto. split.
      * intros ->. discriminate.
      * destruct (isdir disk d); [discriminate | reflexivity].
    + intros (-> & _). reflexivity.
Qed.

(** X.  The answer of [crawler] does not depend on the order in which
    [data_dirs] names the directories, nor on empty components. *)
Theorem crawler_ignores_the_order_of_directories
        (disk : Disk) (data_dirs data_dirs' : string) :
  Permutation (named_dirs data_dirs) (named_dirs data_dirs') ->
  crawler disk data_dirs = crawler disk data_dirs'.
Proof.
  intros Hp. rewrite !crawler_run.
  rewrite (forallb_permutation (isdir disk) Hp).
  rewrite (sort_strings_permutation (found_permutation disk Hp)).
  reflexivity.
Qed.

(** X.  A trailing comma in [data_dirs] (the PPGM builder's list ends in
    one) changes nothing. *)
Theorem crawler_ignores_a_trailing_comma (disk : Disk) (data_dirs : string) :
  crawler disk (data_dirs ++ ",") = crawler disk data_dirs.
Proof.
  rewrite !crawler_run.
  assert (E : named_dirs (data_dirs ++ ",") = named_dirs data_dirs).
  { unfold named_dirs. rewrite split_comma_trailing, filter_app. simpl.
    apply app_nil_r. }
  rewrite E. reflexivity.
Qed.

(** X.  The examples [_generate_examples] goes through are the crawled
    paths that hold both [trajectory.h5] and [recordings/MP4], in
    ascending order; a path lacking either is left out without a word. *)
Theorem episode_paths_are_the_complete_episodes
        (disk : Disk) (data_dirs : string) :
  (forall d, In d (named_dirs data_dirs) -> isdir disk d = true) ->
  exists paths,
    episode_paths disk data_dirs = Ok paths
    /\ ascending paths
    /\ forall p, In p paths
                 <-> In p (found disk (named_dirs data_dirs))
                     /\ exists_ disk (p ++ "/trajectory.h5") = true
                     /\ exists_ disk (p ++ "/recordings/MP4") = true.
Proof.
  intros Hdirs. unfold episode_paths. rewrite crawler_run.
  assert (E : forallb (isdir disk) (named_dirs data_dirs) = true)
    by (apply forallb_forall; exact Hdirs).
  rewrite E. cbn [bind]. eexists. split; [reflexivity|]. split.
  - apply filter_ascending, sort_strings_ascending.
  - intros p. rewrite filter_In, andb_true_iff.
    split; intros (Hin & Hex); (split; [|exact Hex]).
    + eapply Permutation_in; [apply Permutation_sym, sort_strings_perm|auto].
    + eapply Permutation_in; [apply sort_strings_perm|auto].
Qed.

Lemma crawler_returns_the_matches_sorted_witness :
  exists paths,
    crawler two_days "more/,data," = Ok paths
    /\ ascending paths
    /\ Permutation paths
         ["more/success/day1/c"; "data/success/day2/b"; "data/success/day1/a"].
Proof.
  apply (@crawler_returns_the_matches_sorted two_days "more/,data,").
  intros d Hd. vm_compute in Hd.
  destruct Hd as [<-|[<-|[]]]; reflexivity.
Defined.

Lemma crawler_ignores_the_order_of_directories_witness :
  crawler two_days "more/,data," = crawler two_days "data,,more/".
Proof.
  apply (@crawler_ignores_the_order_of_directories
           two_days "more/,data," "data,,more/").
  apply perm_swap.
Defined.

Lemma episode_paths_are_the_complete_episodes_witness :
  exists paths,
    episode_paths two_days "more/,data," = Ok paths
    /\ ascending paths
    /\ forall p,
         In p paths
         <-> In p ["more/success/day1/c"; "data/success/day2/b";
                   "data/success/day1/a"]
             /\ exists_ two_days (p ++ "/trajectory.h5") = true
             /\ exists_ two_days (p ++ "/recordings/MP4") = true.
Proof.
  apply (@episode_paths_are_the_complete_episodes two_days "more/,data,").
  intros d Hd. vm_compute in Hd.
  destruct Hd as [<-|[<-|[]]]; reflexivity.
Defined.

Lemma make_step_picks_the_images_by_camera_id_witness :
  exists step images st,
    make_step PPGM "red cube" 3 0 step = Ok st
    /\ item images "1" = Ok (wrist_image (observation st))
    /\ item images "1_depth" = Ok (wrist_depth_image (observation st))
    /\ item images "2" = Ok (static_image (observation st))
    /\ item images "2_depth" = Ok (static_depth_image (observation st)).
Proof.
  pose (step :=
          match load_trajectory 1 2 false Descending log3 true (Some ("rec", recording3))
                  [] None default_coeff with
          | Ok out => nth 0 (timestep_list out) (VInt 0)
          | Raise _ => VInt 0
          end).
  pose (obs := match item step "observation" with
               | Ok o => o
               | Raise _ => VInt 0
               end).
  pose (images := match item obs "image" with
                  | Ok o => o
                  | Raise _ => VInt 0
                  end).
  destruct (make_step PPGM "red cube" 3 0 step) as [st|e] eqn:Hst;
    [|vm_compute in Hst; discriminate].
  exists step, images, st. split; [exact Hst|].
  apply (@make_step_picks_the_images_by_camera_id
           PPGM "red cube" 3 0 1 2 step obs images st).
  - lia.
  - vm_compute; reflexivity.
  - vm_compute; reflexivity.
  - vm_compute; reflexivity.
  - exact Hst.
Defined.

Lemma make_step_with_one_camera_id_raises_witness :
  exists out step,
    load_trajectory 1 1 false Descending log3 true
      (Some ("rec", mkFolder [mkEntry "1.mp4" three_frames;
                              mkEntry "1_depth.mp4" three_frames] []))
      [] None default_coeff = Ok out
    /\ nth_error (timestep_list out) 0 = Some step
    /\ make_step PPGM "red cube" 3 0 step = Raise IndexError.
Proof.
  pose (run := load_trajectory 1 1 false Descending log3 true
                 (Some ("rec", mkFolder [mkEntry "1.mp4" three_frames;
                                         mkEntry "1_depth.mp4" three_frames]
                                        []))
                 [] None default_coeff).
  destruct run as [out|e] eqn:Hrun; [|vm_compute in Hrun; discriminate].
  destruct (nth_error (timestep_list out) 0) as [step|] eqn:Hstep;
    [|vm_compute in Hrun; injection Hrun as <-; vm_compute in Hstep;
      discriminate].
  exists out, step. split; [exact Hrun|]. split; [exact Hstep|].
  pose (obs := match item step "observation" with
               | Ok o => o
               | Raise _ => VInt 0
               end).
  pose (act := match item step "action" with
               | Ok o => o
               | Raise _ => VInt 0
               end).
  pose (images := match item obs "image" with
                  | Ok o => o
                  | Raise _ => VInt 0
                  end).
  vm_compute in Hrun. injection Hrun as <-.
  vm_compute in Hstep. injection Hstep as <-.
  apply (@make_step_with_one_camera_id_raises
           PPGM "red cube" 3 0 1 _ obs act images);
    vm_compute; reflexivity.
Defined.
